(** * Hybrid-PIC field-update core of WarpX: a shallow embedding

    This development embeds
    [Source/FieldSolver/FiniteDifferenceSolver/HybridPICModel/HybridPICModel.cpp]
    and states properties of its functions.

    Conventions of the embedding.
    - [amrex::Real] is modelled by the exact reals [R]; rounding is not
      modelled.
    - An [amrex::MultiFab] is a box array, a number of components, a ghost
      width and, per box (FAB), an array indexed by grid point and component.
    - The borrowed fields (B, E, ion current, charge density) are objects of
      the surrounding simulation and are always valid; the buffers owned by
      the hybrid model are [std::unique_ptr]s, modelled by [option]: using an
      empty one, or indexing a per-level vector out of range, is undefined
      behaviour in C++ and is reported as [Fault].
    - [amrex::Abort] and the [WARPX_ALWAYS_ASSERT] family end the run: they
      are reported as [Abort msg].
    - The finite-difference stencils, the boundary fills, the expression
      parser's text front end and the grid substrate are collaborators of the
      file; they are the fields of [Collaborators]. *)

From Stdlib Require Import Reals Lra ZArith List String Bool Lia.
From Stdlib Require Import FunctionalExtensionality.
Import ListNotations.

Local Open Scope Z_scope.

(** ** Build configuration (preprocessor symbols) *)

Inductive Dim := DIM_1D_Z | DIM_XZ | DIM_RZ | DIM_3D.

Record Build := mkBuild {
  WARPX_DIM : Dim;
  AMREX_USE_EB : bool;
  WARPX_USE_OPENPMD : bool
}.

Definition AMREX_SPACEDIM (d : Dim) : nat :=
  match d with
  | DIM_1D_Z => 1%nat
  | DIM_XZ | DIM_RZ => 2%nat
  | DIM_3D => 3%nat
  end.

(** ** Index vectors, boxes and box arrays *)

Definition IntVect := list Z.

(** [IntVect(AMREX_D_DECL(a,b,c))]: the first [AMREX_SPACEDIM] of the three. *)
Definition IntVect_D_DECL (d : Dim) (a b c : Z) : IntVect :=
  firstn (AMREX_SPACEDIM d) [a; b; c].

Definition IntVect_eqb (a b : IntVect) : bool :=
  if list_eq_dec Z.eq_dec a b then true else false.

Definition IntVect_zip (f : Z -> Z -> Z) (a b : IntVect) : IntVect :=
  map (fun xy => f (fst xy) (snd xy)) (combine a b).

(** A grid point as [amrex::Array4] indexes it: [(i, j, k)]; the indices of
    the dimensions a build does not have are 0. *)
Definition Point : Type := (Z * Z * Z)%type.

Definition Point_eqb (p q : Point) : bool :=
  let '(i, j, k) := p in
  let '(i', j', k') := q in
  (i =? i') && (j =? j') && (k =? k').

Record Box := mkBox { smallEnd : IntVect; bigEnd : IntVect }.

(** [Box::convert] from a cell-centred box: a nodal direction has one more
    point at its upper end. *)
Definition Box_convert (b : Box) (typ : IntVect) : Box :=
  {| smallEnd := smallEnd b; bigEnd := IntVect_zip Z.add (bigEnd b) typ |}.

Definition Box_grow (b : Box) (ng : IntVect) : Box :=
  {| smallEnd := IntVect_zip Z.sub (smallEnd b) ng;
     bigEnd := IntVect_zip Z.add (bigEnd b) ng |}.

Definition Box_lo (b : Box) (dir : nat) : Z := nth dir (smallEnd b) 0.
Definition Box_hi (b : Box) (dir : nat) : Z := nth dir (bigEnd b) 0.

Definition in_range (lo x hi : Z) : bool := (lo <=? x) && (x <=? hi).

Definition Box_contains (b : Box) (p : Point) : bool :=
  let '(i, j, k) := p in
  in_range (Box_lo b 0) i (Box_hi b 0)
  && in_range (Box_lo b 1) j (Box_hi b 1)
  && in_range (Box_lo b 2) k (Box_hi b 2).

Definition Zrange (lo hi : Z) : list Z :=
  map (fun n => lo + Z.of_nat n) (seq 0 (Z.to_nat (hi - lo + 1))).

(** The points a loop over the box visits. *)
Definition Box_points (b : Box) : list Point :=
  flat_map (fun k =>
    flat_map (fun j =>
      map (fun i => (i, j, k)) (Zrange (Box_lo b 0) (Box_hi b 0)))
      (Zrange (Box_lo b 1) (Box_hi b 1)))
    (Zrange (Box_lo b 2) (Box_hi b 2)).

(** [amrex::BoxArray]: cell-centred boxes and one index type for all. *)
Record BoxArray := mkBoxArray { ba_boxes : list Box; ba_ixType : IntVect }.

(** [amrex::convert(ba, typ)]. *)
Definition convert (ba : BoxArray) (typ : IntVect) : BoxArray :=
  {| ba_boxes := ba_boxes ba; ba_ixType := typ |}.

(** The [n]-th box of the array seen with index type [typ] and grown by
    [ng]: what [mfi.tilebox(typ, ng)] returns for the [n]-th FAB (one tile
    per box). *)
Definition tilebox_as (ba : BoxArray) (typ ng : IntVect) (n : nat) : option Box :=
  option_map (fun b => Box_grow (Box_convert b typ) ng) (nth_error (ba_boxes ba) n).

Definition no_grow (ba : BoxArray) : IntVect := map (fun _ => 0) (ba_ixType ba).

(** [mfi.tilebox()]: the valid box in the array's own index type. *)
Definition tilebox (ba : BoxArray) (n : nat) : option Box :=
  option_map (fun b => Box_convert b (ba_ixType ba)) (nth_error (ba_boxes ba) n).

(** ** MultiFab *)

Definition Array4 := Point -> nat -> R.

Record MultiFab := mkMultiFab {
  boxArray : BoxArray;
  DistributionMap : nat;
  nComp : Z;
  nGrowVect : IntVect;
  fabdata : nat -> Array4
}.

Definition ixType (mf : MultiFab) : IntVect := ba_ixType (boxArray mf).

Definition with_fabdata (mf : MultiFab) (d : nat -> Array4) : MultiFab :=
  {| boxArray := boxArray mf; DistributionMap := DistributionMap mf;
     nComp := nComp mf; nGrowVect := nGrowVect mf; fabdata := d |}.

(** The cells a MultiFab operation with ghost width [ng] acts on in FAB [n]:
    the valid box grown by [ng]. *)
Definition MF_region (mf : MultiFab) (ng : IntVect) (n : nat) (p : Point) : bool :=
  match tilebox_as (boxArray mf) (ixType mf) ng n with
  | Some bx => Box_contains bx p
  | None => false
  end.

Definition MultiFab_setVal (mf : MultiFab) (v : R) : MultiFab :=
  with_fabdata mf (fun _ _ _ => v).

(** [MultiFab::Copy(dst, src, srccomp, dstcomp, 1, ng)]. *)
Definition MultiFab_Copy (dst src : MultiFab) (srccomp dstcomp : nat) (ng : IntVect)
  : MultiFab :=
  with_fabdata dst (fun n p c =>
    if MF_region dst ng n p && Nat.eqb c dstcomp
    then fabdata src n p srccomp else fabdata dst n p c).

(** [MultiFab::LinComb(dst, a, x, xcomp, b, y, ycomp, dstcomp, 1, ng)]:
    [dst = a*x + b*y]. *)
Definition MultiFab_LinComb (dst : MultiFab) (a : R) (x : MultiFab) (xcomp : nat)
    (b : R) (y : MultiFab) (ycomp : nat) (dstcomp : nat) (ng : IntVect) : MultiFab :=
  with_fabdata dst (fun n p c =>
    if MF_region dst ng n p && Nat.eqb c dstcomp
    then (a * fabdata x n p xcomp + b * fabdata y n p ycomp)%R
    else fabdata dst n p c).

(** [MultiFab::Subtract(dst, src, srccomp, dstcomp, 1, ng)]: [dst -= src]. *)
Definition MultiFab_Subtract (dst src : MultiFab) (srccomp dstcomp : nat) (ng : IntVect)
  : MultiFab :=
  with_fabdata dst (fun n p c =>
    if MF_region dst ng n p && Nat.eqb c dstcomp
    then (fabdata dst n p c - fabdata src n p srccomp)%R
    else fabdata dst n p c).

(** [MultiFab::Add(dst, src, srccomp, dstcomp, 1, ng)]: [dst += src]. *)
Definition MultiFab_Add (dst src : MultiFab) (srccomp dstcomp : nat) (ng : IntVect)
  : MultiFab :=
  with_fabdata dst (fun n p c =>
    if MF_region dst ng n p && Nat.eqb c dstcomp
    then (fabdata dst n p c + fabdata src n p srccomp)%R
    else fabdata dst n p c).

(** ** Element-wise kernels *)

Definition Array4_store (a : Array4) (p : Point) (v : R) : Array4 :=
  fun q c => if Point_eqb q p && Nat.eqb c 0 then v else a q c.

(** [amrex::ParallelFor(box, kernel)] for a kernel that either returns early
    ([None]) or stores one value in its own cell, component 0. *)
Definition ParallelFor (bx : Box) (kernel : Point -> option R) (a : Array4) : Array4 :=
  fold_left
    (fun acc p => match kernel p with
                  | Some v => Array4_store acc p v
                  | None => acc
                  end)
    (Box_points bx) a.

(** A loop [for (MFIter mfi(mf); mfi.isValid(); ++mfi)] that runs one
    [ParallelFor] per FAB over the box [bx n] and writes [mf]. *)
Definition MFIter_ParallelFor (mf : MultiFab) (bx : nat -> option Box)
    (kernel : nat -> Point -> option R) : MultiFab :=
  with_fabdata mf (fun n =>
    match bx n with
    | Some b => ParallelFor b (kernel n) (fabdata mf n)
    | None => fabdata mf n
    end).

(** Three-component arrays, [std::array<T, 3>]. *)
Definition Arr3 (A : Type) : Type := (A * A * A)%type.

Definition Arr3_x {A} (a : Arr3 A) : A := fst (fst a).
Definition Arr3_y {A} (a : Arr3 A) : A := snd (fst a).
Definition Arr3_z {A} (a : Arr3 A) : A := snd a.

Definition Arr3_get {A} (a : Arr3 A) (i : nat) : A :=
  match i with O => Arr3_x a | S O => Arr3_y a | _ => Arr3_z a end.

Definition Arr3_set {A} (a : Arr3 A) (i : nat) (v : A) : Arr3 A :=
  match i with
  | O => (v, Arr3_y a, Arr3_z a)
  | S O => (Arr3_x a, v, Arr3_z a)
  | _ => (Arr3_x a, Arr3_y a, v)
  end.

Definition Arr3_map {A B} (f : A -> B) (a : Arr3 A) : Arr3 B :=
  (f (Arr3_x a), f (Arr3_y a), f (Arr3_z a)).

Definition Arr3_const {A} (v : A) : Arr3 A := (v, v, v).

(** ** The expression parser ([amrex::Parser])

    A parsed expression is a tree of numbers, named symbols and applications
    of real functions.  [symbols] is the set of names that occur in it and a
    compiled executor evaluates it with the registered variables bound to
    its arguments in order. *)

Inductive Expr :=
| ENum (r : R)
| ESym (name : string)
| EUn (f : R -> R) (e : Expr)
| EBin (f : R -> R -> R) (e1 e2 : Expr).

Fixpoint Expr_symbols (e : Expr) : list string :=
  match e with
  | ENum _ => []
  | ESym s => [s]
  | EUn _ e1 => Expr_symbols e1
  | EBin _ e1 e2 => Expr_symbols e1 ++ Expr_symbols e2
  end.

Fixpoint Expr_eval (env : string -> R) (e : Expr) : R :=
  match e with
  | ENum r => r
  | ESym s => env s
  | EUn f e1 => f (Expr_eval env e1)
  | EBin f e1 e2 => f (Expr_eval env e1) (Expr_eval env e2)
  end.

Record Parser := mkParser { p_expr : Expr; p_vars : list string }.

Definition Parser_symbols (p : Parser) : list string := Expr_symbols (p_expr p).

(** [std::set<std::string>::count]. *)
Definition symbols_count (syms : list string) (s : string) : Z :=
  if in_dec string_dec s syms then 1 else 0.

Fixpoint bind_args (vars : list string) (args : list R) (s : string) : R :=
  match vars, args with
  | v :: vars', a :: args' => if string_dec s v then a else bind_args vars' args' s
  | _, _ => 0%R
  end.

(** [parser->compile<N>()] applied to [N] arguments. *)
Definition Parser_compile (p : Parser) (args : list R) : R :=
  Expr_eval (bind_args (p_vars p) args) (p_expr p).

(** ** Enumerations of the surrounding code *)

Inductive DtType := DtType_Full | DtType_FirstHalf | DtType_SecondHalf.
Inductive PatchType := PatchType_fine | PatchType_coarse.

(** ** The hybrid model's members *)

(** Members set by [ReadParameters]. *)
Record Params := mkParams {
  m_substeps : Z;
  m_gamma : R;
  m_elec_temp : R;
  m_n0_ref : R;
  m_eta_expression : string;
  m_n_floor : R;
  m_eta_h : R;
  m_Jx_ext_grid_function : string;
  m_Jy_ext_grid_function : string;
  m_Jz_ext_grid_function : string;
  m_Bx_ext_grid_function : string;
  m_By_ext_grid_function : string;
  m_Bz_ext_grid_function : string;
  B_ext_grid_s : string;
  external_fields_path : string
}.

(** Members set by [InitData]: the parsers (a compiled executor is its
    parser), the dependence flags and the staggering descriptors, one
    three-entry index type per component x, y, z. *)
Record Compiled := mkCompiled {
  m_resistivity_parser : option Parser;
  m_resistivity_has_J_dependence : bool;
  m_J_external_parser : Arr3 (option Parser);
  m_external_field_has_time_dependence : bool;
  m_B_external_parser : Arr3 (option Parser);
  J_IndexType : Arr3 (list Z);
  B_IndexType : Arr3 (list Z);
  E_IndexType : Arr3 (list Z)
}.

(** The per-level buffers the model owns. *)
Record Buffers := mkBuffers {
  electron_pressure_fp : list (option MultiFab);
  rho_fp_temp : list (option MultiFab);
  current_fp_temp : list (Arr3 (option MultiFab));
  current_fp_ampere : list (Arr3 (option MultiFab));
  current_fp_external : list (Arr3 (option MultiFab));
  bfield_fp_external : list (Arr3 (option MultiFab))
}.

Record HybridPICModel := mkHybrid {
  params : Params;
  compiled : Compiled;
  buffers : Buffers
}.

Definition set_params (m : HybridPICModel) (p : Params) : HybridPICModel :=
  {| params := p; compiled := compiled m; buffers := buffers m |}.
Definition set_compiled (m : HybridPICModel) (c : Compiled) : HybridPICModel :=
  {| params := params m; compiled := c; buffers := buffers m |}.
Definition set_buffers (m : HybridPICModel) (b : Buffers) : HybridPICModel :=
  {| params := params m; compiled := compiled m; buffers := b |}.

Definition set_electron_pressure_fp (b : Buffers) v : Buffers :=
  {| electron_pressure_fp := v; rho_fp_temp := rho_fp_temp b;
     current_fp_temp := current_fp_temp b; current_fp_ampere := current_fp_ampere b;
     current_fp_external := current_fp_external b;
     bfield_fp_external := bfield_fp_external b |}.
Definition set_rho_fp_temp (b : Buffers) v : Buffers :=
  {| electron_pressure_fp := electron_pressure_fp b; rho_fp_temp := v;
     current_fp_temp := current_fp_temp b; current_fp_ampere := current_fp_ampere b;
     current_fp_external := current_fp_external b;
     bfield_fp_external := bfield_fp_external b |}.
Definition set_current_fp_temp (b : Buffers) v : Buffers :=
  {| electron_pressure_fp := electron_pressure_fp b; rho_fp_temp := rho_fp_temp b;
     current_fp_temp := v; current_fp_ampere := current_fp_ampere b;
     current_fp_external := current_fp_external b;
     bfield_fp_external := bfield_fp_external b |}.
Definition set_current_fp_ampere (b : Buffers) v : Buffers :=
  {| electron_pressure_fp := electron_pressure_fp b; rho_fp_temp := rho_fp_temp b;
     current_fp_temp := current_fp_temp b; current_fp_ampere := v;
     current_fp_external := current_fp_external b;
     bfield_fp_external := bfield_fp_external b |}.
Definition set_current_fp_external (b : Buffers) v : Buffers :=
  {| electron_pressure_fp := electron_pressure_fp b; rho_fp_temp := rho_fp_temp b;
     current_fp_temp := current_fp_temp b; current_fp_ampere := current_fp_ampere b;
     current_fp_external := v;
     bfield_fp_external := bfield_fp_external b |}.
Definition set_bfield_fp_external (b : Buffers) v : Buffers :=
  {| electron_pressure_fp := electron_pressure_fp b; rho_fp_temp := rho_fp_temp b;
     current_fp_temp := current_fp_temp b; current_fp_ampere := current_fp_ampere b;
     current_fp_external := current_fp_external b;
     bfield_fp_external := v |}.

(** [std::vector::resize(n)] with value-initialised new entries. *)
Definition resize {A} (dflt : A) (l : list A) (n : nat) : list A :=
  firstn n l ++ repeat dflt (n - List.length l).

(** Assignment to the entry [lev] of a vector (nothing happens out of
    range; the callers check the range first). *)
Fixpoint list_set {A} (l : list A) (lev : nat) (v : A) : list A :=
  match l, lev with
  | [], _ => []
  | _ :: t, O => v :: t
  | h :: t, S n => h :: list_set t n v
  end.

(** ** The parameter table ([amrex::ParmParse], prefix [hybrid_pic_model]) *)

Record ParmParse := mkParmParse {
  pp_int : string -> option Z;
  pp_real : string -> option R;
  pp_str : string -> option string
}.

(** [queryWithParser(pp, name, ref)] and [pp.query(name, ref)]: whether the
    name is given, and the value of [ref] afterwards. *)
Definition query {A} (tbl : string -> option A) (name : string) (ref : A) : bool * A :=
  match tbl name with
  | Some v => (true, v)
  | None => (false, ref)
  end.

(** ** The world: the simulation singleton, the borrowed fields and the model *)

Inductive Event :=
| EvPrint (s : string)
| EvAllocInitMultiFab (name : string) (lev : nat)
| EvCalculateCurrentAmpere (lev : nat)
| EvFillBoundaryJ (lev : nat) (i : nat)
| EvHybridPICSolveE (lev : nat) (include_resistivity_term : bool)
| EvApplyEfieldBoundary (lev : nat) (patch_type : PatchType)
| EvFillBoundaryE (ng : IntVect) (nodal_sync : option bool)
| EvEvolveB (dt : R) (dt_type : DtType)
| EvFillBoundaryB (ng : IntVect) (nodal_sync : option bool).

Record World := mkWorld {
  parm : ParmParse;
  finestLevel : nat;
  Geom_CellSize : nat -> list R;
  Geom_ProbLo : nat -> list R;
  gett_new : nat -> R;
  current_fp : nat -> Arr3 MultiFab;
  rho_fp : nat -> MultiFab;
  Bfield : nat -> Arr3 MultiFab;
  Efield : nat -> Arr3 MultiFab;
  Jfield : nat -> Arr3 MultiFab;
  rhofield : nat -> MultiFab;
  edge_lengths : nat -> Arr3 (option MultiFab);
  hybrid : HybridPICModel;
  log : list Event
}.

Definition set_hybrid (w : World) (m : HybridPICModel) : World :=
  {| parm := parm w; finestLevel := finestLevel w; Geom_CellSize := Geom_CellSize w;
     Geom_ProbLo := Geom_ProbLo w; gett_new := gett_new w; current_fp := current_fp w;
     rho_fp := rho_fp w; Bfield := Bfield w; Efield := Efield w; Jfield := Jfield w;
     rhofield := rhofield w; edge_lengths := edge_lengths w; hybrid := m;
     log := log w |}.
Definition set_Bfield (w : World) (b : nat -> Arr3 MultiFab) : World :=
  {| parm := parm w; finestLevel := finestLevel w; Geom_CellSize := Geom_CellSize w;
     Geom_ProbLo := Geom_ProbLo w; gett_new := gett_new w; current_fp := current_fp w;
     rho_fp := rho_fp w; Bfield := b; Efield := Efield w; Jfield := Jfield w;
     rhofield := rhofield w; edge_lengths := edge_lengths w; hybrid := hybrid w;
     log := log w |}.
Definition set_Efield (w : World) (e : nat -> Arr3 MultiFab) : World :=
  {| parm := parm w; finestLevel := finestLevel w; Geom_CellSize := Geom_CellSize w;
     Geom_ProbLo := Geom_ProbLo w; gett_new := gett_new w; current_fp := current_fp w;
     rho_fp := rho_fp w; Bfield := Bfield w; Efield := e; Jfield := Jfield w;
     rhofield := rhofield w; edge_lengths := edge_lengths w; hybrid := hybrid w;
     log := log w |}.
Definition add_log (w : World) (ev : Event) : World :=
  {| parm := parm w; finestLevel := finestLevel w; Geom_CellSize := Geom_CellSize w;
     Geom_ProbLo := Geom_ProbLo w; gett_new := gett_new w; current_fp := current_fp w;
     rho_fp := rho_fp w; Bfield := Bfield w; Efield := Efield w; Jfield := Jfield w;
     rhofield := rhofield w; edge_lengths := edge_lengths w; hybrid := hybrid w;
     log := log w ++ [ev] |}.

Definition upd {A} (f : nat -> A) (lev : nat) (v : A) : nat -> A :=
  fun l => if Nat.eqb l lev then v else f l.

(** ** Computations: state, abort and fault *)

Inductive Result (A : Type) :=
| Ok (a : A) (w : World)
| Abort (msg : string) (w : World)
| Fault (w : World).
Arguments Ok {A} a w.
Arguments Abort {A} msg w.
Arguments Fault {A} w.

Definition M (A : Type) : Type := World -> Result A.

Definition ret {A} (a : A) : M A := fun w => Ok a w.

Definition bind {A B} (m : M A) (k : A -> M B) : M B :=
  fun w => match m w with
           | Ok a w' => k a w'
           | Abort msg w' => Abort msg w'
           | Fault w' => Fault w'
           end.

Notation "x <- m ;; k" := (bind m (fun x => k))
  (at level 61, m at next level, right associativity).
Notation "m ;;; k" := (bind m (fun _ => k))
  (at level 61, right associativity).

Definition get : M World := fun w => Ok w w.
Definition modify (f : World -> World) : M unit := fun w => Ok tt (f w).
Definition emit (ev : Event) : M unit := modify (fun w => add_log w ev).
Definition amrex_Abort {A} (msg : string) : M A := fun w => Abort msg w.
Definition fault {A} : M A := fun w => Fault w.

(** Dereferencing a [unique_ptr]. *)
Definition deref {A} (p : option A) : M A :=
  match p with
  | Some a => ret a
  | None => fault
  end.

Definition deref3 {A} (a : Arr3 (option A)) : M (Arr3 A) :=
  x <- deref (Arr3_get a 0) ;;
  y <- deref (Arr3_get a 1) ;;
  z <- deref (Arr3_get a 2) ;;
  ret (x, y, z).

Definition WARPX_ALWAYS_ASSERT_WITH_MESSAGE (c : bool) (msg : string) : M unit :=
  if c then ret tt else amrex_Abort msg.

(** [for (int lev = 0; lev <= finest; ++lev) body(lev)]. *)
Fixpoint for_range (body : nat -> M unit) (from count : nat) : M unit :=
  match count with
  | O => ret tt
  | S c => body from ;;; for_range body (S from) c
  end.

Definition for_levels (body : nat -> M unit) : M unit :=
  w <- get ;; for_range body 0 (S (finestLevel w)).

Definition get_buffers : M Buffers := fun w => Ok (buffers (hybrid w)) w.
Definition put_buffers (b : Buffers) : M unit :=
  modify (fun w => set_hybrid w (set_buffers (hybrid w) b)).

(** ** Collaborators

    What the file calls but does not define: the field solver's stencils,
    the simulation's boundary fills and field push, the parser's text front
    end, and constants of headers.  A collaborator that updates a field in
    place returns the field's new contents; the field keeps its box array,
    components and ghost width. *)

Definition FabData := nat -> Array4.

Record Collaborators := mkCollaborators {
  (** [PhysConst::q_e]. *)
  q_e : R;
  (** The indeterminate contents of a MultiFab that was allocated and not
      yet written. *)
  uninit : FabData;
  (** [utils::parser::makeParser]'s reading of an expression text. *)
  parse : string -> Expr;
  (** [Utils::TextMsg::Err]. *)
  TextMsg_Err : string -> string;
  (** [FiniteDifferenceSolver::CalculateCurrentAmpere(Jfield, Bfield,
      edge_lengths, lev)]: the new contents of its first argument. *)
  fdtd_CalculateCurrentAmpere :
    nat -> Arr3 MultiFab -> Arr3 MultiFab -> Arr3 (option MultiFab) -> Arr3 FabData;
  (** [MultiFab::FillBoundary(warpx.Geom(lev).periodicity())]. *)
  MultiFab_FillBoundary : nat -> MultiFab -> FabData;
  (** [FiniteDifferenceSolver::HybridPICSolveE(Efield, Jfield, Jifield,
      Jextfield, Bfield, Bextfield, rhofield, Pefield, edge_lengths, lev,
      hybrid_model, include_resistivity_term)]: the new contents of
      [Efield]. *)
  fdtd_HybridPICSolveE :
    nat -> Arr3 MultiFab -> Arr3 MultiFab -> Arr3 MultiFab -> Arr3 MultiFab ->
    Arr3 MultiFab -> Arr3 MultiFab -> MultiFab -> MultiFab ->
    Arr3 (option MultiFab) -> HybridPICModel -> bool -> Arr3 FabData;
  (** [WarpX::ApplyEfieldBoundary(lev, patch_type)] on the E field of [lev]. *)
  warpx_ApplyEfieldBoundary : nat -> PatchType -> Arr3 MultiFab -> Arr3 FabData;
  (** [WarpX::FillBoundaryE(ng, nodal_sync)] on the E field of all levels. *)
  warpx_FillBoundaryE :
    IntVect -> option bool -> (nat -> Arr3 MultiFab) -> nat -> Arr3 FabData;
  (** [WarpX::EvolveB(dt, dt_type)]: the new B field of all levels from the
      E field, the edge lengths and the old B field. *)
  warpx_EvolveB :
    R -> DtType -> (nat -> Arr3 MultiFab) -> (nat -> Arr3 (option MultiFab)) ->
    (nat -> Arr3 MultiFab) -> nat -> Arr3 FabData;
  (** [WarpX::FillBoundaryB(ng, nodal_sync)] on the B field of all levels. *)
  warpx_FillBoundaryB :
    IntVect -> option bool -> (nat -> Arr3 MultiFab) -> nat -> Arr3 FabData;
  (** [WarpX::ApplyElectronPressureBoundary(lev, patch_type)]. *)
  warpx_ApplyElectronPressureBoundary : nat -> PatchType -> MultiFab -> FabData;
  (** The openPMD build of [ReadExternalBFieldFromFile]: reading the mesh
      [F_name]/[F_component] of the file and interpolating it onto the given
      MultiFab, or the message of the assertion that failed. *)
  openPMD_read_and_interpolate :
    string -> Arr3 (option MultiFab) -> nat -> MultiFab -> string -> string ->
    string + FabData
}.

Definition Arr3_map2 {A B C} (f : A -> B -> C) (a : Arr3 A) (b : Arr3 B) : Arr3 C :=
  (f (Arr3_x a) (Arr3_x b), f (Arr3_y a) (Arr3_y b), f (Arr3_z a) (Arr3_z b)).

(** In-place update of the three components of a field. *)
Definition overwrite3 (f : Arr3 MultiFab) (d : Arr3 FabData) : Arr3 MultiFab :=
  Arr3_map2 with_fabdata f d.

Definition Arr3_map3 {A B C D} (f : A -> B -> C -> D)
    (a : Arr3 A) (b : Arr3 B) (c : Arr3 C) : Arr3 D :=
  (f (Arr3_x a) (Arr3_x b) (Arr3_x c), f (Arr3_y a) (Arr3_y b) (Arr3_y c),
   f (Arr3_z a) (Arr3_z b) (Arr3_z c)).

(** The power [x^y] of a real base and a real exponent, where it has a real
    value: [exp (y * ln x)] for a positive base; the integer power for a
    whole exponent, whatever the base (so 0 to a positive whole exponent is
    0, and every base to the exponent 0 gives 1); 0 for the base 0 and a
    positive exponent that is not whole.  The base 0 with a negative
    exponent and a negative base with an exponent that is not whole have no
    real power (a floating-point [pow] gives an infinity or a NaN there,
    which [R] does not have): nothing is stated about the value there. *)
Definition real_power (x y : R) : R :=
  if Rlt_dec 0 x then exp (y * ln x)
  else if Req_dec_T y (IZR (Int_part y)) then powerRZ x (Int_part y)
  else 0%R.

(** Modelled from the spec: [ElectronPressure::get_pressure] is declared in
    the model's header, which is not among the sources.  The spec's
    Equation-of-State Evaluator: [pressure(rho) = n0 * T_e * (rho/n0)^gamma]
    when gamma is not 1; it reduces to [T_e * rho] when gamma is 1. *)
Definition get_pressure (n0 T0 gamma rho : R) : R :=
  if Req_dec_T gamma 1 then (T0 * rho)%R
  else (n0 * T0 * real_power (rho / n0) gamma)%R.

Section Model.

Context (bld : Build) (ext : Collaborators).

Local Open Scope string_scope.

(** [MultiFab(ba, dm, ncomp, ngrow)]: allocated, not initialised. *)
Definition MultiFab_new (ba : BoxArray) (dm : nat) (ncomp : Z) (ngrow : IntVect)
  : MultiFab :=
  {| boxArray := ba; DistributionMap := dm; nComp := ncomp; nGrowVect := ngrow;
     fabdata := uninit ext |}.

(** Modelled from the spec: [WarpX::AllocInitMultiFab] is defined in WarpX.cpp,
    which is not among the sources.  It (re)creates the field named [name]
    with the given box array, components and ghost width and sets every
    value to [initial_value] (the spec's "(re)creates all owned fields at the
    stated staggering, zero-initialized" for the initial value 0 passed
    here). *)
Definition AllocInitMultiFab (ba : BoxArray) (dm : nat) (ncomp : Z) (ngrow : IntVect)
    (lev : nat) (name : string) (initial_value : R) : M MultiFab :=
  emit (EvAllocInitMultiFab name lev) ;;;
  ret (MultiFab_setVal (MultiFab_new ba dm ncomp ngrow) initial_value).

(** *** ReadParameters and the constructor *)

Definition put_params (p : Params) : M unit :=
  modify (fun w => set_hybrid w (set_params (hybrid w) p)).

Definition ReadParameters : M unit :=
  w <- get ;;
  let pp_hybrid := parm w in
  let p := params (hybrid w) in
  let substeps := snd (query (pp_int pp_hybrid) "substeps" (m_substeps p)) in
  let gamma := snd (query (pp_real pp_hybrid) "gamma" (m_gamma p)) in
  let elec_temp_q := query (pp_real pp_hybrid) "elec_temp" (m_elec_temp p) in
  let p1 := mkParams substeps gamma (snd elec_temp_q) (m_n0_ref p)
              (m_eta_expression p) (m_n_floor p) (m_eta_h p)
              (m_Jx_ext_grid_function p) (m_Jy_ext_grid_function p)
              (m_Jz_ext_grid_function p) (m_Bx_ext_grid_function p)
              (m_By_ext_grid_function p) (m_Bz_ext_grid_function p)
              (B_ext_grid_s p) (external_fields_path p) in
  put_params p1 ;;;
  (if negb (fst elec_temp_q)
   then amrex_Abort
          "hybrid_pic_model.elec_temp must be specified when using the hybrid solver"
   else ret tt) ;;;
  let n0_ref_q := query (pp_real pp_hybrid) "n0_ref" (m_n0_ref p) in
  let n0_ref_given := fst n0_ref_q in
  let p2 := mkParams substeps gamma (snd elec_temp_q) (snd n0_ref_q)
              (m_eta_expression p) (m_n_floor p) (m_eta_h p)
              (m_Jx_ext_grid_function p) (m_Jy_ext_grid_function p)
              (m_Jz_ext_grid_function p) (m_Bx_ext_grid_function p)
              (m_By_ext_grid_function p) (m_Bz_ext_grid_function p)
              (B_ext_grid_s p) (external_fields_path p) in
  put_params p2 ;;;
  (if (if Req_dec_T gamma 1 then false else true) && negb n0_ref_given
   then amrex_Abort
          "hybrid_pic_model.n0_ref should be specified if hybrid_pic_model.gamma != 1"
   else ret tt) ;;;
  let style := snd (query (pp_str pp_hybrid) "B_external_init_style" (B_ext_grid_s p)) in
  let p3 := mkParams substeps gamma
              (* convert electron temperature from eV to J *)
              (snd elec_temp_q * q_e ext)%R
              (snd n0_ref_q)
              (snd (query (pp_str pp_hybrid) "plasma_resistivity(rho,J)"
                      (m_eta_expression p)))
              (snd (query (pp_real pp_hybrid) "n_floor" (m_n_floor p)))
              (snd (query (pp_real pp_hybrid) "plasma_hyper_resistivity" (m_eta_h p)))
              (snd (query (pp_str pp_hybrid) "Jx_external_grid_function(x,y,z,t)"
                      (m_Jx_ext_grid_function p)))
              (snd (query (pp_str pp_hybrid) "Jy_external_grid_function(x,y,z,t)"
                      (m_Jy_ext_grid_function p)))
              (snd (query (pp_str pp_hybrid) "Jz_external_grid_function(x,y,z,t)"
                      (m_Jz_ext_grid_function p)))
              (snd (query (pp_str pp_hybrid) "Bx_external_grid_function(x,y,z)"
                      (m_Bx_ext_grid_function p)))
              (snd (query (pp_str pp_hybrid) "By_external_grid_function(x,y,z)"
                      (m_By_ext_grid_function p)))
              (snd (query (pp_str pp_hybrid) "Bz_external_grid_function(x,y,z)"
                      (m_Bz_ext_grid_function p)))
              style (external_fields_path p) in
  put_params p3 ;;;
  emit (EvPrint style) ;;;
  if String.eqb style "read_from_file"
  then
    let path := snd (query (pp_str pp_hybrid) "read_fields_from_path"
                       (external_fields_path p)) in
    put_params (mkParams (m_substeps p3) (m_gamma p3) (m_elec_temp p3) (m_n0_ref p3)
                  (m_eta_expression p3) (m_n_floor p3) (m_eta_h p3)
                  (m_Jx_ext_grid_function p3) (m_Jy_ext_grid_function p3)
                  (m_Jz_ext_grid_function p3) (m_Bx_ext_grid_function p3)
                  (m_By_ext_grid_function p3) (m_Bz_ext_grid_function p3)
                  (B_ext_grid_s p3) path) ;;;
    emit (EvPrint path)
  else ret tt.

Definition null3 : Arr3 (option MultiFab) := (None, None, None).

Definition AllocateMFs (nlevs_max : nat) : M unit :=
  b <- get_buffers ;;
  put_buffers
    {| electron_pressure_fp := resize None (electron_pressure_fp b) nlevs_max;
       rho_fp_temp := resize None (rho_fp_temp b) nlevs_max;
       current_fp_temp := resize null3 (current_fp_temp b) nlevs_max;
       current_fp_ampere := resize null3 (current_fp_ampere b) nlevs_max;
       current_fp_external := resize null3 (current_fp_external b) nlevs_max;
       bfield_fp_external := resize null3 (bfield_fp_external b) nlevs_max |}.

(** [HybridPICModel::HybridPICModel(nlevs_max)]. *)
Definition HybridPICModel_ctor (nlevs_max : nat) : M unit :=
  ReadParameters ;;;
  AllocateMFs nlevs_max.

(** *** Per-level allocation and release *)

(** The entry [lev] of a per-level vector; out of range is a fault. *)
Definition at_level {A} (v : list A) (lev : nat) : M A := deref (nth_error v lev).

(** [vec[lev] = v] for one of the model's scalar-field vectors. *)
Definition assign_level {A} (getv : Buffers -> list A)
    (setv : Buffers -> list A -> Buffers) (lev : nat) (v : A) : M unit :=
  b <- get_buffers ;;
  _ <- at_level (getv b) lev ;;
  put_buffers (setv b (list_set (getv b) lev v)).

(** [vec[lev][i] = v] for one of the model's vector-field vectors. *)
Definition assign_level_comp {A} (getv : Buffers -> list (Arr3 A))
    (setv : Buffers -> list (Arr3 A) -> Buffers) (lev i : nat) (v : A) : M unit :=
  b <- get_buffers ;;
  a <- at_level (getv b) lev ;;
  put_buffers (setv b (list_set (getv b) lev (Arr3_set a i v))).

Definition AllocateLevelMFs (lev : nat) (ba : BoxArray) (dm : nat) (ncomps : Z)
    (ngJ ngRho jx_nodal_flag jy_nodal_flag jz_nodal_flag rho_nodal_flag : IntVect)
  : M unit :=
  let d := WARPX_DIM bld in
  mf <- AllocInitMultiFab (convert ba rho_nodal_flag) dm ncomps ngRho lev
          "electron_pressure_fp" 0%R ;;
  assign_level electron_pressure_fp set_electron_pressure_fp lev (Some mf) ;;;
  mf <- AllocInitMultiFab (convert ba rho_nodal_flag) dm ncomps ngRho lev
          "rho_fp_temp" 0%R ;;
  assign_level rho_fp_temp set_rho_fp_temp lev (Some mf) ;;;
  mf <- AllocInitMultiFab (convert ba jx_nodal_flag) dm ncomps ngJ lev
          "current_fp_temp[x]" 0%R ;;
  assign_level_comp current_fp_temp set_current_fp_temp lev 0 (Some mf) ;;;
  mf <- AllocInitMultiFab (convert ba jy_nodal_flag) dm ncomps ngJ lev
          "current_fp_temp[y]" 0%R ;;
  assign_level_comp current_fp_temp set_current_fp_temp lev 1 (Some mf) ;;;
  mf <- AllocInitMultiFab (convert ba jz_nodal_flag) dm ncomps ngJ lev
          "current_fp_temp[z]" 0%R ;;
  assign_level_comp current_fp_temp set_current_fp_temp lev 2 (Some mf) ;;;
  mf <- AllocInitMultiFab (convert ba jx_nodal_flag) dm ncomps ngJ lev
          "current_fp_ampere[x]" 0%R ;;
  assign_level_comp current_fp_ampere set_current_fp_ampere lev 0 (Some mf) ;;;
  mf <- AllocInitMultiFab (convert ba jy_nodal_flag) dm ncomps ngJ lev
          "current_fp_ampere[y]" 0%R ;;
  assign_level_comp current_fp_ampere set_current_fp_ampere lev 1 (Some mf) ;;;
  mf <- AllocInitMultiFab (convert ba jz_nodal_flag) dm ncomps ngJ lev
          "current_fp_ampere[z]" 0%R ;;
  assign_level_comp current_fp_ampere set_current_fp_ampere lev 2 (Some mf) ;;;
  (* the external current density multifab is made nodal ... this also
     allows the external current multifab to not have any ghost cells *)
  mf <- AllocInitMultiFab (convert ba (IntVect_D_DECL d 1 1 1)) dm ncomps
          (IntVect_D_DECL d 0 0 0) lev "current_fp_external[x]" 0%R ;;
  assign_level_comp current_fp_external set_current_fp_external lev 0 (Some mf) ;;;
  mf <- AllocInitMultiFab (convert ba (IntVect_D_DECL d 1 1 1)) dm ncomps
          (IntVect_D_DECL d 0 0 0) lev "current_fp_external[y]" 0%R ;;
  assign_level_comp current_fp_external set_current_fp_external lev 1 (Some mf) ;;;
  mf <- AllocInitMultiFab (convert ba (IntVect_D_DECL d 1 1 1)) dm ncomps
          (IntVect_D_DECL d 0 0 0) lev "current_fp_external[z]" 0%R ;;
  assign_level_comp current_fp_external set_current_fp_external lev 2 (Some mf) ;;;
  (* external magnetic field *)
  mf <- AllocInitMultiFab (convert ba (IntVect_D_DECL d 1 1 1)) dm ncomps
          (IntVect_D_DECL d 0 0 0) lev "bfield_fp_external[x]" 0%R ;;
  assign_level_comp bfield_fp_external set_bfield_fp_external lev 0 (Some mf) ;;;
  mf <- AllocInitMultiFab (convert ba (IntVect_D_DECL d 1 1 1)) dm ncomps
          (IntVect_D_DECL d 0 0 0) lev "bfield_fp_external[y]" 0%R ;;
  assign_level_comp bfield_fp_external set_bfield_fp_external lev 1 (Some mf) ;;;
  mf <- AllocInitMultiFab (convert ba (IntVect_D_DECL d 1 1 1)) dm ncomps
          (IntVect_D_DECL d 0 0 0) lev "bfield_fp_external[z]" 0%R ;;
  assign_level_comp bfield_fp_external set_bfield_fp_external lev 2 (Some mf) ;;;
  match d with
  | DIM_RZ =>
      WARPX_ALWAYS_ASSERT_WITH_MESSAGE (ncomps =? 1)%Z
        "Ohm's law solver only support m = 0 azimuthal mode at present."
  | _ => ret tt
  end.

Definition ClearLevel (lev : nat) : M unit :=
  assign_level electron_pressure_fp set_electron_pressure_fp lev None ;;;
  assign_level rho_fp_temp set_rho_fp_temp lev None ;;;
  for_range (fun i =>
    assign_level_comp current_fp_temp set_current_fp_temp lev i None ;;;
    assign_level_comp current_fp_ampere set_current_fp_ampere lev i None ;;;
    assign_level_comp current_fp_external set_current_fp_external lev i None)
    0 3.

(** *** External fields from parsed expressions *)

Definition makeParser (text : string) (vars : list string) : Parser :=
  {| p_expr := parse ext text; p_vars := vars |}.

(** [flag += n] for a [bool] member and an integer count. *)
Definition bool_plus_assign (flag : bool) (n : Z) : bool :=
  negb (((if flag then 1 else 0) + n) =? 0)%Z.

Definition rnth (l : list R) (n : nat) : R := nth n l 0%R.
Definition znth (l : list Z) (n : nat) : Z := nth n l 0%Z.

(** The physical coordinates the kernels of [GetExternalBField] and
    [GetCurrentExternal] compute for the grid point [(i, j, k)] of a field
    with index type [nodal_flag]. *)
Definition node_coords (nodal_flag : IntVect) (dx_lev real_box_lo : list R) (p : Point)
  : R * R * R :=
  let '(i, j, k) := p in
  let fac n := ((1 - IZR (znth nodal_flag n)) * rnth dx_lev n * 0.5)%R in
  match WARPX_DIM bld with
  | DIM_1D_Z =>
      (0, 0, IZR j * rnth dx_lev 0 + rnth real_box_lo 0 + fac 0%nat)%R
  | DIM_XZ | DIM_RZ =>
      (IZR i * rnth dx_lev 0 + rnth real_box_lo 0 + fac 0%nat, 0,
       IZR j * rnth dx_lev 1 + rnth real_box_lo 1 + fac 1%nat)%R
  | DIM_3D =>
      (IZR i * rnth dx_lev 0 + rnth real_box_lo 0 + fac 0%nat,
       IZR j * rnth dx_lev 1 + rnth real_box_lo 1 + fac 1%nat,
       IZR k * rnth dx_lev 2 + rnth real_box_lo 2 + fac 2%nat)%R
  end.

(** [if (l(i, j, k) <= 0) return;] under [AMREX_USE_EB]. *)
Definition covered (l : option MultiFab) (n : nat) (p : Point) : bool :=
  match l with
  | Some mf => if Rle_dec (fabdata mf n p 0%nat) 0 then true else false
  | None => false
  end.

(** The edge-length arrays a kernel reads: dereferenced under
    [AMREX_USE_EB], unused otherwise. *)
Definition eb_arrays (edge : Arr3 (option MultiFab)) : M (Arr3 (option MultiFab)) :=
  if AMREX_USE_EB bld
  then l <- deref3 edge ;; ret (Arr3_map Some l)
  else ret null3.

(** One component of the three-box [ParallelFor] of the two functions
    below: the field [mf] is written over the boxes of [mfx]'s iterator seen
    with [mf]'s index type and grown by [mf]'s ghost width. *)
Definition fill_from_executor (mfx mf : MultiFab) (l : option MultiFab)
    (dx_lev real_box_lo : list R) (executor : R -> R -> R -> R) : MultiFab :=
  let nodal_flag := ixType mf in
  MFIter_ParallelFor mf
    (tilebox_as (boxArray mfx) nodal_flag (nGrowVect mf))
    (fun n p =>
       if covered l n p then None
       else let '(x, y, z) := node_coords nodal_flag dx_lev real_box_lo p in
            Some (executor x y z)).

Definition GetExternalBField_lev (edge : Arr3 (option MultiFab)) (lev : nat) : M unit :=
  w <- get ;;
  let dx_lev := Geom_CellSize w lev in
  let real_box_lo := Geom_ProbLo w lev in
  mfs <- at_level (bfield_fp_external (buffers (hybrid w))) lev ;;
  mfx <- deref (Arr3_get mfs 0) ;;
  mfy <- deref (Arr3_get mfs 1) ;;
  mfz <- deref (Arr3_get mfs 2) ;;
  Bx_external <- deref (Arr3_get (m_B_external_parser (compiled (hybrid w))) 0) ;;
  By_external <- deref (Arr3_get (m_B_external_parser (compiled (hybrid w))) 1) ;;
  Bz_external <- deref (Arr3_get (m_B_external_parser (compiled (hybrid w))) 2) ;;
  l <- eb_arrays edge ;;
  let run (e : Parser) := fun x y z => Parser_compile e [x; y; z] in
  let mfx' := fill_from_executor mfx mfx (Arr3_get l 0) dx_lev real_box_lo
                (run Bx_external) in
  let mfy' := fill_from_executor mfx mfy (Arr3_get l 1) dx_lev real_box_lo
                (run By_external) in
  let mfz' := fill_from_executor mfx mfz (Arr3_get l 2) dx_lev real_box_lo
                (run Bz_external) in
  b <- get_buffers ;;
  put_buffers (set_bfield_fp_external b
     (list_set (bfield_fp_external b) lev (Some mfx', Some mfy', Some mfz'))).

Definition GetExternalBField : M unit :=
  for_levels (fun lev => w <- get ;; GetExternalBField_lev (edge_lengths w lev) lev).

Definition GetCurrentExternal_lev (edge : Arr3 (option MultiFab)) (lev : nat) : M unit :=
  w <- get ;;
  let t := gett_new w lev in
  let dx_lev := Geom_CellSize w lev in
  let real_box_lo := Geom_ProbLo w lev in
  mfs <- at_level (current_fp_external (buffers (hybrid w))) lev ;;
  mfx <- deref (Arr3_get mfs 0) ;;
  mfy <- deref (Arr3_get mfs 1) ;;
  mfz <- deref (Arr3_get mfs 2) ;;
  Jx_external <- deref (Arr3_get (m_J_external_parser (compiled (hybrid w))) 0) ;;
  Jy_external <- deref (Arr3_get (m_J_external_parser (compiled (hybrid w))) 1) ;;
  Jz_external <- deref (Arr3_get (m_J_external_parser (compiled (hybrid w))) 2) ;;
  l <- eb_arrays edge ;;
  let run (e : Parser) := fun x y z => Parser_compile e [x; y; z; t] in
  let mfx' := fill_from_executor mfx mfx (Arr3_get l 0) dx_lev real_box_lo
                (run Jx_external) in
  let mfy' := fill_from_executor mfx mfy (Arr3_get l 1) dx_lev real_box_lo
                (run Jy_external) in
  let mfz' := fill_from_executor mfx mfz (Arr3_get l 2) dx_lev real_box_lo
                (run Jz_external) in
  b <- get_buffers ;;
  put_buffers (set_current_fp_external b
     (list_set (current_fp_external b) lev (Some mfx', Some mfy', Some mfz'))).

Definition GetCurrentExternal : M unit :=
  w <- get ;;
  if negb (m_external_field_has_time_dependence (compiled (hybrid w)))
  then ret tt
  else for_levels
         (fun lev => w <- get ;; GetCurrentExternal_lev (edge_lengths w lev) lev).

(** *** External B field from a file *)

Definition WARPX_ABORT_WITH_MESSAGE {A} (msg : string) : M A := amrex_Abort msg.

(** [ReadExternalBFieldFromFile(path, edge_lengths, lev, mf, F_name,
    F_component)]: the new contents of [*mf].  [mf] is a raw pointer, null
    when the buffer it was taken from is not allocated.  Without openPMD, or
    in 1D and XZ, the function is a stub that aborts without looking at
    [mf]; the openPMD version starts by reading [mf->ixType()]. *)
Definition ReadExternalBFieldFromFile (read_fields_from_path : string)
    (edge : Arr3 (option MultiFab)) (lev : nat) (mf : option MultiFab)
    (F_name F_component : string) : M MultiFab :=
  match WARPX_USE_OPENPMD bld, WARPX_DIM bld with
  | _, DIM_1D_Z =>
      WARPX_ABORT_WITH_MESSAGE "Reading fields from openPMD files is not supported in 1D"
  | _, DIM_XZ =>
      WARPX_ABORT_WITH_MESSAGE
        "Reading from openPMD for external fields is not known to work with XZ (see #3828)"
  | false, _ =>
      WARPX_ABORT_WITH_MESSAGE
        "OpenPMD field reading requires OpenPMD support to be enabled"
  | true, _ =>
      mf <- deref mf ;;
      match openPMD_read_and_interpolate ext read_fields_from_path edge lev mf
              F_name F_component with
      | inl msg => amrex_Abort msg
      | inr d => ret (with_fabdata mf d)
      end
  end.

(** *** InitData *)

Definition put_compiled (c : Compiled) : M unit :=
  modify (fun w => set_hybrid w (set_compiled (hybrid w) c)).

(** The Yee staggering [InitData] requires of E and B for the build's
    dimensionality. *)
Definition yee_staggering (Ex Ey Ez Bx By Bz : IntVect) : bool :=
  match WARPX_DIM bld with
  | DIM_1D_Z =>
      IntVect_eqb Ex [1] && IntVect_eqb Ey [1] && IntVect_eqb Ez [0] &&
      IntVect_eqb Bx [0] && IntVect_eqb By [0] && IntVect_eqb Bz [1]
  | DIM_XZ | DIM_RZ =>
      IntVect_eqb Ex [0;1] && IntVect_eqb Ey [1;1] && IntVect_eqb Ez [1;0] &&
      IntVect_eqb Bx [1;0] && IntVect_eqb By [0;0] && IntVect_eqb Bz [0;1]
  | DIM_3D =>
      IntVect_eqb Ex [0;1;1] && IntVect_eqb Ey [1;0;1] && IntVect_eqb Ez [1;1;0] &&
      IntVect_eqb Bx [1;0;0] && IntVect_eqb By [0;1;0] && IntVect_eqb Bz [0;0;1]
  end%Z.

(** The stored staggering descriptor: the entries of the build's dimensions
    are copied from [stag]; the unused dimensions are then set to nodal. *)
Definition store_IndexType (old : list Z) (stag : IntVect) : list Z :=
  let sd := AMREX_SPACEDIM (WARPX_DIM bld) in
  let copied := map (fun idim => if (idim <? sd)%nat then znth stag idim
                                 else znth old idim) [0; 1; 2]%nat in
  match WARPX_DIM bld with
  | DIM_1D_Z => [znth copied 0; 1; 1]
  | DIM_XZ | DIM_RZ => [znth copied 0; znth copied 1; 1]
  | DIM_3D => copied
  end%Z.

Definition Print (s : string) : M unit := emit (EvPrint s).

Definition InitData : M unit :=
  w <- get ;;
  let p := params (hybrid w) in
  let c := compiled (hybrid w) in
  let resistivity_parser := makeParser (m_eta_expression p) ["rho"; "J"] in
  let Jp0 := makeParser (m_Jx_ext_grid_function p) ["x"; "y"; "z"; "t"] in
  let Jp1 := makeParser (m_Jy_ext_grid_function p) ["x"; "y"; "z"; "t"] in
  let Jp2 := makeParser (m_Jz_ext_grid_function p) ["x"; "y"; "z"; "t"] in
  (* check if the external current parsers depend on time *)
  let has_t :=
    fold_left (fun flag parser =>
                 bool_plus_assign flag (symbols_count (Parser_symbols parser) "t"))
      [Jp0; Jp1; Jp2] (m_external_field_has_time_dependence c) in
  let Bp0 := makeParser (m_Bx_ext_grid_function p) ["x"; "y"; "z"] in
  let Bp1 := makeParser (m_By_ext_grid_function p) ["x"; "y"; "z"] in
  let Bp2 := makeParser (m_Bz_ext_grid_function p) ["x"; "y"; "z"] in
  let c1 :=
    {| m_resistivity_parser := Some resistivity_parser;
       m_resistivity_has_J_dependence :=
         bool_plus_assign (m_resistivity_has_J_dependence c)
           (symbols_count (Parser_symbols resistivity_parser) "J");
       m_J_external_parser := (Some Jp0, Some Jp1, Some Jp2);
       m_external_field_has_time_dependence := has_t;
       m_B_external_parser := (Some Bp0, Some Bp1, Some Bp2);
       J_IndexType := J_IndexType c;
       B_IndexType := B_IndexType c;
       E_IndexType := E_IndexType c |} in
  put_compiled c1 ;;;
  (* Get the grid staggering of the fields involved in calculating E *)
  let J_stag := Arr3_map ixType (current_fp w 0) in
  let B_stag := Arr3_map ixType (Bfield w 0) in
  let E_stag := Arr3_map ixType (Efield w 0) in
  let appropriate_grids :=
    yee_staggering (Arr3_get E_stag 0) (Arr3_get E_stag 1) (Arr3_get E_stag 2)
                   (Arr3_get B_stag 0) (Arr3_get B_stag 1) (Arr3_get B_stag 2)
    && IntVect_eqb (Arr3_get J_stag 0) (Arr3_get E_stag 0)
    && IntVect_eqb (Arr3_get J_stag 1) (Arr3_get E_stag 1)
    && IntVect_eqb (Arr3_get J_stag 2) (Arr3_get E_stag 2) in
  WARPX_ALWAYS_ASSERT_WITH_MESSAGE appropriate_grids
    "Ohm's law E-solve only works with staggered (Yee) grids." ;;;
  put_compiled
    {| m_resistivity_parser := m_resistivity_parser c1;
       m_resistivity_has_J_dependence := m_resistivity_has_J_dependence c1;
       m_J_external_parser := m_J_external_parser c1;
       m_external_field_has_time_dependence := has_t;
       m_B_external_parser := m_B_external_parser c1;
       J_IndexType := Arr3_map2 store_IndexType (J_IndexType c) J_stag;
       B_IndexType := Arr3_map2 store_IndexType (B_IndexType c) B_stag;
       E_IndexType := Arr3_map2 store_IndexType (E_IndexType c) E_stag |} ;;;
  (* Initialize external current - note that this approach skips the check
     if the current is time dependent which is what needs to be done to
     write time independent fields on the first step. *)
  for_levels (fun lev =>
    w <- get ;;
    let edge := if AMREX_USE_EB bld then edge_lengths w lev else null3 in
    GetCurrentExternal_lev edge lev ;;;
    (if String.eqb (B_ext_grid_s p) "parse_b_ext_grid_function"
     then Print "parse_b_ext_grid_function" ;;;
          GetExternalBField_lev edge lev
     else ret tt) ;;;
    (if String.eqb (B_ext_grid_s p) "read_from_file"
     then Print "read_from_file" ;;;
          for_range (fun i =>
            b <- get_buffers ;;
            mfs <- at_level (bfield_fp_external b) lev ;;
            mf' <- ReadExternalBFieldFromFile (external_fields_path p) edge lev
                     (Arr3_get mfs i)
                     "B" (match i with O => "x" | S O => "y" | _ => "z" end) ;;
            assign_level_comp bfield_fp_external set_bfield_fp_external lev i
              (Some mf')) 0 3 ;;;
          Print "Done"
     else ret tt)).

(** *** Ampere current, Ohm's-law solve and electron pressure *)

Definition CalculateCurrentAmpere_lev (lev : nat) : M unit :=
  w <- get ;;
  b <- get_buffers ;;
  J <- at_level (current_fp_ampere b) lev ;;
  J <- deref3 J ;;
  emit (EvCalculateCurrentAmpere lev) ;;;
  let J := overwrite3 J
             (fdtd_CalculateCurrentAmpere ext lev J (Bfield w lev) (edge_lengths w lev)) in
  put_buffers (set_current_fp_ampere b
     (list_set (current_fp_ampere b) lev (Arr3_map Some J))) ;;;
  (* we shouldn't apply the boundary condition to J ... *)
  for_range (fun i =>
    b <- get_buffers ;;
    J <- at_level (current_fp_ampere b) lev ;;
    Ji <- deref (Arr3_get J i) ;;
    emit (EvFillBoundaryJ lev i) ;;;
    assign_level_comp current_fp_ampere set_current_fp_ampere lev i
      (Some (with_fabdata Ji (MultiFab_FillBoundary ext lev Ji)))) 0 3.

Definition CalculateCurrentAmpere : M unit :=
  for_levels CalculateCurrentAmpere_lev.

(** The overload with a patch type: the stencil solve, then the E-field
    boundary condition. *)
Definition HybridPICSolveE_patch (lev : nat) (patch_type : PatchType)
    (include_resistivity_term : bool) : M unit :=
  w <- get ;;
  let b := buffers (hybrid w) in
  Jamp <- at_level (current_fp_ampere b) lev ;;
  Jamp <- deref3 Jamp ;;
  Jext <- at_level (current_fp_external b) lev ;;
  Jext <- deref3 Jext ;;
  Bext <- at_level (bfield_fp_external b) lev ;;
  Bext <- deref3 Bext ;;
  Pe <- at_level (electron_pressure_fp b) lev ;;
  Pe <- deref Pe ;;
  (* Solve E field in regular cells *)
  emit (EvHybridPICSolveE lev include_resistivity_term) ;;;
  let E := overwrite3 (Efield w lev)
             (fdtd_HybridPICSolveE ext lev (Efield w lev) Jamp (Jfield w lev) Jext
                (Bfield w lev) Bext (rhofield w lev) Pe (edge_lengths w lev)
                (hybrid w) include_resistivity_term) in
  modify (fun w => set_Efield w (upd (Efield w) lev E)) ;;;
  emit (EvApplyEfieldBoundary lev patch_type) ;;;
  modify (fun w => set_Efield w
            (upd (Efield w) lev
               (overwrite3 (Efield w lev)
                  (warpx_ApplyEfieldBoundary ext lev patch_type (Efield w lev))))).

Definition HybridPICSolveE_lev (lev : nat) (include_resistivity_term : bool) : M unit :=
  HybridPICSolveE_patch lev PatchType_fine include_resistivity_term ;;;
  if (0 <? lev)%nat
  then amrex_Abort (TextMsg_Err ext
         "HybridPICSolveE: Only one level implemented for hybrid-PIC solver.")
  else ret tt.

Definition HybridPICSolveE (include_resistivity_term : bool) : M unit :=
  for_levels (fun lev => HybridPICSolveE_lev lev include_resistivity_term).

(** [FillElectronPressureMF(Pe_field, rho_field)]: the new contents of
    [*Pe_field]. *)
Definition FillElectronPressureMF (m : HybridPICModel) (Pe_field rho_field : MultiFab)
  : MultiFab :=
  let n0_ref := m_n0_ref (params m) in
  let elec_temp := m_elec_temp (params m) in
  let gamma := m_gamma (params m) in
  MFIter_ParallelFor Pe_field (tilebox (boxArray Pe_field))
    (fun n p => Some (get_pressure n0_ref elec_temp gamma (fabdata rho_field n p 0%nat))).

Definition CalculateElectronPressure_lev (lev : nat) (a_dt_type : DtType) : M unit :=
  w <- get ;;
  let b := buffers (hybrid w) in
  Pe <- at_level (electron_pressure_fp b) lev ;;
  Pe <- deref Pe ;;
  (* The full step uses rho^{n+1}, otherwise use the old or averaged
     charge density. *)
  Pe' <- match a_dt_type with
         | DtType_Full => ret (FillElectronPressureMF (hybrid w) Pe (rho_fp w lev))
         | _ => rho <- at_level (rho_fp_temp b) lev ;;
                rho <- deref rho ;;
                ret (FillElectronPressureMF (hybrid w) Pe rho)
         end ;;
  let Pe' := with_fabdata Pe'
               (warpx_ApplyElectronPressureBoundary ext lev PatchType_fine Pe') in
  assign_level electron_pressure_fp set_electron_pressure_fp lev
    (Some (with_fabdata Pe' (MultiFab_FillBoundary ext lev Pe'))).

Definition CalculateElectronPressure (a_dt_type : DtType) : M unit :=
  for_levels (fun lev => CalculateElectronPressure_lev lev a_dt_type).

(** *** The field push and the Runge-Kutta sub-cycle

    The reference parameters [Bfield], [Efield], [Jfield], [rhofield] and
    [edge_lengths] of the two functions are the world's fields of these
    names: [Bfield] and [Efield] are the fields the simulation's [EvolveB]
    and boundary fills act on. *)

Definition FieldPush (dt : R) (dt_type : DtType) (ng : IntVect)
    (nodal_sync : option bool) : M unit :=
  (* Calculate J = curl x B / mu0 *)
  CalculateCurrentAmpere ;;;
  (* Calculate the E-field from Ohm's law *)
  HybridPICSolveE true ;;;
  emit (EvFillBoundaryE ng nodal_sync) ;;;
  modify (fun w => set_Efield w
            (fun lev => overwrite3 (Efield w lev)
                          (warpx_FillBoundaryE ext ng nodal_sync (Efield w) lev))) ;;;
  (* Push forward the B-field using Faraday's law *)
  emit (EvEvolveB dt dt_type) ;;;
  modify (fun w => set_Bfield w
            (fun lev => overwrite3 (Bfield w lev)
                          (warpx_EvolveB ext dt dt_type (Efield w) (edge_lengths w)
                             (Bfield w) lev))) ;;;
  emit (EvFillBoundaryB ng nodal_sync) ;;;
  modify (fun w => set_Bfield w
            (fun lev => overwrite3 (Bfield w lev)
                          (warpx_FillBoundaryB ext ng nodal_sync (Bfield w) lev))).

Definition put_Bfield_lev (lev : nat) (B : Arr3 MultiFab) : M unit :=
  modify (fun w => set_Bfield w (upd (Bfield w) lev B)).

(** The loops over the component [ii] act on the component [ii] of [Bfield],
    [B_old] and [K] only, so each loop is a component-wise map. *)
Definition BfieldEvolveRK_lev (dt : R) (lev : nat) (dt_type : DtType) (ng : IntVect)
    (nodal_sync : option bool) : M unit :=
  w <- get ;;
  (* Make copies of the B-field multifabs at t = n and create multifabs for
     each direction to store the Runge-Kutta intermediate terms. *)
  let B_old :=
    Arr3_map (fun B => MultiFab_Copy
                (MultiFab_new (boxArray B) (DistributionMap B) 1 (nGrowVect B))
                B 0 0 ng) (Bfield w lev) in
  let K :=
    Arr3_map (fun B => MultiFab_setVal
                (MultiFab_new (boxArray B) (DistributionMap B) 2 (nGrowVect B))
                0%R) (Bfield w lev) in
  (* Step 1: *)
  FieldPush (0.5 * dt)%R dt_type ng nodal_sync ;;;
  w <- get ;;
  (* Extract 0.5 * dt * K0 for each direction into index 0 of K. *)
  let K := Arr3_map3 (fun K B B_old => MultiFab_LinComb K 1%R B 0 (-1)%R B_old 0 0 ng)
             K (Bfield w lev) B_old in
  (* Step 2: *)
  FieldPush (0.5 * dt)%R dt_type ng nodal_sync ;;;
  w <- get ;;
  (* Subtract 0.5 * dt * K0 from the Bfield for each direction, to get
     B_new = B_old + 0.5 * dt * K1. *)
  let B := Arr3_map2 (fun B K => MultiFab_Subtract B K 0 0 ng) (Bfield w lev) K in
  put_Bfield_lev lev B ;;;
  (* Extract 0.5 * dt * K1 for each direction into index 1 of K. *)
  let K := Arr3_map3 (fun K B B_old => MultiFab_LinComb K 1%R B 0 (-1)%R B_old 0 1 ng)
             K B B_old in
  (* Step 3: *)
  FieldPush dt dt_type ng nodal_sync ;;;
  w <- get ;;
  (* Subtract 0.5 * dt * K1 from the Bfield for each direction to get
     B_new = B_old + dt * K2. *)
  let B := Arr3_map2 (fun B K => MultiFab_Subtract B K 1 0 ng) (Bfield w lev) K in
  put_Bfield_lev lev B ;;;
  (* Step 4: *)
  FieldPush (0.5 * dt)%R dt_type ng nodal_sync ;;;
  w <- get ;;
  (* Subtract B_old from the Bfield for each direction, to get
     B = dt * K2 + 0.5 * dt * K3. *)
  let B := Arr3_map2 (fun B B_old => MultiFab_Subtract B B_old 0 0 ng)
             (Bfield w lev) B_old in
  (* Add dt * K2 + 0.5 * dt * K3 to index 0 of K (= 0.5 * dt * K0). *)
  let K := Arr3_map2 (fun K B => MultiFab_Add K B 0 0 ng) K B in
  (* Add 2 * 0.5 * dt * K1 to index 0 of K. *)
  let K := Arr3_map (fun K => MultiFab_LinComb K 1%R K 0 2%R K 1 0 ng) K in
  (* Overwrite the Bfield with the Runge-Kutta sum:
     B_new = B_old + 1/3 * dt * (0.5 * K0 + K1 + K2 + 0.5 * K3). *)
  let B := Arr3_map3 (fun B B_old K => MultiFab_LinComb B 1%R B_old 0 (1 / 3)%R K 0 0 ng)
             B B_old K in
  put_Bfield_lev lev B.

Definition BfieldEvolveRK (dt : R) (dt_type : DtType) (ng : IntVect)
    (nodal_sync : option bool) : M unit :=
  for_levels (fun lev => BfieldEvolveRK_lev dt lev dt_type ng nodal_sync).

End Model.

(** ** A small concrete simulation

    One level, one box of 2 x 2 x 2 cells, the 3D build without embedded
    boundaries.  The stand-in stencils make the field push the Euler step of
    [dB/dt = B]: the Ohm's-law solve returns [E = B] and the Faraday push
    returns [B + dt * E]. *)

Local Open Scope string_scope.

Definition demo_build : Build :=
  {| WARPX_DIM := DIM_3D; AMREX_USE_EB := false; WARPX_USE_OPENPMD := false |}.

Definition demo_parse (s : string) : Expr :=
  if String.eqb s "t" then ESym "t"
  else if String.eqb s "x" then ESym "x"
  else if String.eqb s "2*x" then EBin Rmult (ENum 2) (ESym "x")
  else ENum 0.

Definition demo_EvolveB (dt : R) (dt_type : DtType) (E : nat -> Arr3 MultiFab)
    (edge : nat -> Arr3 (option MultiFab)) (B : nat -> Arr3 MultiFab) (lev : nat)
  : Arr3 FabData :=
  Arr3_map2 (fun Bi Ei => fun n p c => (fabdata Bi n p c + dt * fabdata Ei n p c)%R)
    (B lev) (E lev).

Definition demo_ext : Collaborators :=
  {| q_e := 1602176634 / 10 ^ 28;
     uninit := fun _ _ _ => 0%R;
     parse := demo_parse;
     TextMsg_Err := fun s => s;
     fdtd_CalculateCurrentAmpere := fun _ J _ _ => Arr3_map fabdata J;
     MultiFab_FillBoundary := fun _ mf => fabdata mf;
     fdtd_HybridPICSolveE := fun _ _ _ _ _ B _ _ _ _ _ _ => Arr3_map fabdata B;
     warpx_ApplyEfieldBoundary := fun _ _ E => Arr3_map fabdata E;
     warpx_FillBoundaryE := fun _ _ E lev => Arr3_map fabdata (E lev);
     warpx_EvolveB := demo_EvolveB;
     warpx_FillBoundaryB := fun _ _ B lev => Arr3_map fabdata (B lev);
     warpx_ApplyElectronPressureBoundary := fun _ _ mf => fabdata mf;
     openPMD_read_and_interpolate := fun _ _ _ mf _ _ => inr (fabdata mf) |}.

Definition demo_ba : BoxArray :=
  {| ba_boxes := [ {| smallEnd := [0; 0; 0]; bigEnd := [1; 1; 1] |} ];
     ba_ixType := [0; 0; 0] |}.

Definition demo_mf (typ : IntVect) (v : R) : MultiFab :=
  {| boxArray := convert demo_ba typ; DistributionMap := 0%nat; nComp := 1;
     nGrowVect := [1; 1; 1]; fabdata := fun _ _ _ => v |}.

Definition demo_E : Arr3 MultiFab :=
  (demo_mf [0; 1; 1] 0, demo_mf [1; 0; 1] 0, demo_mf [1; 1; 0] 0).
Definition demo_B : Arr3 MultiFab :=
  (demo_mf [1; 0; 0] 1, demo_mf [0; 1; 0] 1, demo_mf [0; 0; 1] 1).

(** A model object as its constructor finds it: no parser, no dependence
    flag set, empty vectors. *)
Definition demo_model : HybridPICModel :=
  {| params :=
       {| m_substeps := 50; m_gamma := 1; m_elec_temp := 0; m_n0_ref := 1;
          m_eta_expression := "0.0"; m_n_floor := 1; m_eta_h := 0;
          m_Jx_ext_grid_function := "0.0"; m_Jy_ext_grid_function := "0.0";
          m_Jz_ext_grid_function := "0.0"; m_Bx_ext_grid_function := "0.0";
          m_By_ext_grid_function := "0.0"; m_Bz_ext_grid_function := "0.0";
          B_ext_grid_s := "default"; external_fields_path := "" |};
     compiled :=
       {| m_resistivity_parser := None; m_resistivity_has_J_dependence := false;
          m_J_external_parser := (None, None, None);
          m_external_field_has_time_dependence := false;
          m_B_external_parser := (None, None, None);
          J_IndexType := ([0; 0; 0], [0; 0; 0], [0; 0; 0]);
          B_IndexType := ([0; 0; 0], [0; 0; 0], [0; 0; 0]);
          E_IndexType := ([0; 0; 0], [0; 0; 0], [0; 0; 0]) |};
     buffers :=
       {| electron_pressure_fp := []; rho_fp_temp := []; current_fp_temp := [];
          current_fp_ampere := []; current_fp_external := [];
          bfield_fp_external := [] |} |}.

Definition demo_world (pp : ParmParse) (finest : nat) : World :=
  {| parm := pp; finestLevel := finest;
     Geom_CellSize := fun _ => [1; 1; 1]%R;
     Geom_ProbLo := fun _ => [0; 0; 0]%R;
     gett_new := fun _ => 0%R;
     current_fp := fun _ => demo_E;
     rho_fp := fun _ => demo_mf [1; 1; 1] 1;
     Bfield := fun _ => demo_B;
     Efield := fun _ => demo_E;
     Jfield := fun _ => demo_E;
     rhofield := fun _ => demo_mf [1; 1; 1] 1;
     edge_lengths := fun _ => (None, None, None);
     hybrid := demo_model;
     log := [] |}.

Definition pp_empty : ParmParse :=
  {| pp_int := fun _ => None; pp_real := fun _ => None; pp_str := fun _ => None |}.

(** [elec_temp = 10], nothing else. *)
Definition pp_elec_temp : ParmParse :=
  {| pp_int := fun _ => None;
     pp_real := fun s => if String.eqb s "elec_temp" then Some 10%R else None;
     pp_str := fun _ => None |}.

(** [elec_temp = 10], [gamma = 2], no [n0_ref]. *)
Definition pp_gamma2 : ParmParse :=
  {| pp_int := fun _ => None;
     pp_real := fun s => if String.eqb s "elec_temp" then Some 10%R
                         else if String.eqb s "gamma" then Some 2%R else None;
     pp_str := fun _ => None |}.

(** [elec_temp = 10] and an external-B style that is neither of the two
    the code compares with. *)
Definition pp_unknown_style : ParmParse :=
  {| pp_int := fun _ => None;
     pp_real := fun s => if String.eqb s "elec_temp" then Some 10%R else None;
     pp_str := fun s => if String.eqb s "B_external_init_style"
                        then Some "from_a_crystal_ball" else None |}.

(** The demo world with its level (or two levels) allocated. *)
Definition demo_allocate (lev : nat) : M unit :=
  AllocateLevelMFs demo_build demo_ext lev demo_ba 0%nat 1
    [1; 1; 1] [1; 1; 1] [0; 1; 1] [1; 0; 1] [1; 1; 0] [1; 1; 1].

(** ** Reading results *)

Definition final_world {A} (r : Result A) : World :=
  match r with
  | Ok _ w => w
  | Abort _ w => w
  | Fault w => w
  end.

Definition is_alloc (o : option (option MultiFab)) : bool :=
  match o with
  | Some (Some _) => true
  | _ => false
  end.

Definition is_alloc3 (o : option (Arr3 (option MultiFab))) : bool :=
  match o with
  | Some (Some _, Some _, Some _) => true
  | _ => false
  end.

Definition in_rangeb {A} (l : list A) (lev : nat) : bool :=
  match nth_error l lev with
  | Some _ => true
  | None => false
  end.

(** Every per-level vector of the model has an entry [lev]. *)
Definition level_exists (b : Buffers) (lev : nat) : bool :=
  in_rangeb (electron_pressure_fp b) lev && in_rangeb (rho_fp_temp b) lev &&
  in_rangeb (current_fp_temp b) lev && in_rangeb (current_fp_ampere b) lev &&
  in_rangeb (current_fp_external b) lev && in_rangeb (bfield_fp_external b) lev.

(** The buffers the field push reads or writes at [lev] are allocated. *)
Definition push_ready (b : Buffers) (lev : nat) : bool :=
  is_alloc (nth_error (electron_pressure_fp b) lev) &&
  is_alloc3 (nth_error (current_fp_ampere b) lev) &&
  is_alloc3 (nth_error (current_fp_external b) lev) &&
  is_alloc3 (nth_error (bfield_fp_external b) lev).

(** The value of [gamma] after [ReadParameters] has queried it. *)
Definition gamma_read (w : World) : R :=
  snd (query (pp_real (parm w)) "gamma" (m_gamma (params (hybrid w)))).

Local Open Scope string_scope.

Definition msg_elec_temp : string :=
  "hybrid_pic_model.elec_temp must be specified when using the hybrid solver".
Definition msg_n0_ref : string :=
  "hybrid_pic_model.n0_ref should be specified if hybrid_pic_model.gamma != 1".
Definition msg_one_level : string :=
  "HybridPICSolveE: Only one level implemented for hybrid-PIC solver.".
Definition msg_yee : string :=
  "Ohm's law E-solve only works with staggered (Yee) grids.".

(** ** Basic facts about computations and vectors *)

Lemma bind_Ok {A B} (m : M A) (k : A -> M B) w a w' :
  m w = Ok a w' -> bind m k w = k a w'.
Proof. unfold bind. intros ->. reflexivity. Qed.

Lemma bind_Abort {A B} (m : M A) (k : A -> M B) w msg w' :
  m w = Abort msg w' -> bind m k w = Abort msg w'.
Proof. unfold bind. intros ->. reflexivity. Qed.

Lemma bind_Fault {A B} (m : M A) (k : A -> M B) w w' :
  m w = Fault w' -> bind m k w = Fault w'.
Proof. unfold bind. intros ->. reflexivity. Qed.

Lemma bind_bind {A B C} (m : M A) (f : A -> M B) (g : B -> M C) w :
  bind (bind m f) g w = bind m (fun x => bind (f x) g) w.
Proof. unfold bind. destruct (m w); reflexivity. Qed.

Lemma bind_ret {A B} (a : A) (k : A -> M B) w : bind (ret a) k w = k a w.
Proof. reflexivity. Qed.

Lemma bind_get {B} (k : World -> M B) w : bind get k w = k w w.
Proof. reflexivity. Qed.

Lemma bind_get_buffers {B} (k : Buffers -> M B) w :
  bind get_buffers k w = k (buffers (hybrid w)) w.
Proof. reflexivity. Qed.

Lemma bind_emit {B} ev (k : unit -> M B) w : bind (emit ev) k w = k tt (add_log w ev).
Proof. reflexivity. Qed.

Lemma bind_modify {B} f (k : unit -> M B) w : bind (modify f) k w = k tt (f w).
Proof. reflexivity. Qed.

Lemma bind_put_buffers {B} b (k : unit -> M B) w :
  bind (put_buffers b) k w = k tt (set_hybrid w (set_buffers (hybrid w) b)).
Proof. reflexivity. Qed.

Lemma bind_deref_Some {A B} (a : A) (k : A -> M B) w : bind (deref (Some a)) k w = k a w.
Proof. reflexivity. Qed.

Lemma bind_deref3_Some {A B} (x y z : A) (k : Arr3 A -> M B) w :
  bind (deref3 (Some x, Some y, Some z)) k w = k (x, y, z) w.
Proof. reflexivity. Qed.

Lemma bind_at_level {A B} (l : list A) lev x (k : A -> M B) w :
  nth_error l lev = Some x -> bind (at_level l lev) k w = k x w.
Proof. intros H. unfold bind, at_level. rewrite H. reflexivity. Qed.

Lemma for_levels_single {B} (body : nat -> M unit) (k : unit -> M B) w :
  finestLevel w = 0%nat ->
  bind (for_levels body) k w = bind (body 0%nat) k w.
Proof.
  intros H. unfold for_levels. rewrite bind_bind, bind_get, H.
  cbn [for_range]. unfold bind, ret. destruct (body 0%nat w) as [[] w0| |]; reflexivity.
Qed.

Lemma bind_Ok_inv {A B} (m : M A) (k : A -> M B) w b w'' :
  bind m k w = Ok b w'' -> exists a w', m w = Ok a w' /\ k a w' = Ok b w''.
Proof.
  unfold bind. destruct (m w) as [a w'| |]; try discriminate.
  intros H. exists a, w'. split; [reflexivity | exact H].
Qed.

Lemma nth_error_list_set_eq {A} (l : list A) n v x :
  nth_error l n = Some x -> nth_error (list_set l n v) n = Some v.
Proof.
  revert n. induction l as [|h t IH]; intros [|n]; cbn; try discriminate; auto.
Qed.

Lemma nth_error_list_set_neq {A} (l : list A) n m v :
  n <> m -> nth_error (list_set l n v) m = nth_error l m.
Proof.
  revert n m. induction l as [|h t IH]; intros [|n] [|m] Hne; cbn; auto;
    congruence.
Qed.

Lemma list_set_twice {A} (l : list A) n v v' :
  list_set (list_set l n v) n v' = list_set l n v'.
Proof.
  revert n. induction l as [|h t IH]; intros [|n]; cbn; auto. now rewrite IH.
Qed.

Lemma in_rangeb_true {A} (l : list A) lev :
  in_rangeb l lev = true -> exists x, nth_error l lev = Some x.
Proof. unfold in_rangeb. destruct (nth_error l lev); [eauto | discriminate]. Qed.

Lemma is_alloc_true o : is_alloc o = true -> exists mf, o = Some (Some mf).
Proof. destruct o as [[mf|]|]; cbn; try discriminate. eauto. Qed.

Lemma is_alloc3_true o :
  is_alloc3 o = true -> exists x y z, o = Some (Some x, Some y, Some z).
Proof.
  destruct o as [[[[x|] [y|]] [z|]]|]; cbn; try discriminate. eauto.
Qed.

Lemma in_rangeb_list_set {A} (l : list A) n m v :
  in_rangeb (list_set l n v) m = in_rangeb l m.
Proof.
  unfold in_rangeb. revert n m.
  induction l as [|h t IH]; intros [|n] [|m]; cbn; auto.
Qed.

Lemma nth_error_list_set_same {A} (l : list A) n v :
  in_rangeb l n = true -> nth_error (list_set l n v) n = Some v.
Proof.
  intros H. apply in_rangeb_true in H. destruct H as [x H].
  eapply nth_error_list_set_eq; eassumption.
Qed.

Lemma level_exists_inv (b : Buffers) lev :
  level_exists b lev = true ->
  in_rangeb (electron_pressure_fp b) lev = true /\
  in_rangeb (rho_fp_temp b) lev = true /\
  in_rangeb (current_fp_temp b) lev = true /\
  in_rangeb (current_fp_ampere b) lev = true /\
  in_rangeb (current_fp_external b) lev = true /\
  in_rangeb (bfield_fp_external b) lev = true.
Proof.
  unfold level_exists. intros H.
  repeat (apply andb_true_iff in H; destruct H as [H ?]). auto 10.
Qed.

Lemma at_level_in_range {A} (l : list A) lev (w : World) :
  in_rangeb l lev = true -> exists x, nth_error l lev = Some x /\ at_level l lev w = Ok x w.
Proof.
  intros H. apply in_rangeb_true in H. destruct H as [x H].
  exists x. split; [exact H|]. unfold at_level. rewrite H. reflexivity.
Qed.

Lemma assign_level_run {A} (getv : Buffers -> list A) setv lev (v : A) w :
  in_rangeb (getv (buffers (hybrid w))) lev = true ->
  assign_level getv setv lev v w
  = Ok tt (set_hybrid w (set_buffers (hybrid w)
             (setv (buffers (hybrid w)) (list_set (getv (buffers (hybrid w))) lev v)))).
Proof.
  intros H. apply in_rangeb_true in H. destruct H as [x H].
  unfold assign_level, bind, get_buffers, at_level, put_buffers, modify.
  rewrite H. reflexivity.
Qed.

Lemma assign_level_comp_run {A} (getv : Buffers -> list (Arr3 A)) setv lev i (v : A) w a :
  nth_error (getv (buffers (hybrid w))) lev = Some a ->
  assign_level_comp getv setv lev i v w
  = Ok tt (set_hybrid w (set_buffers (hybrid w)
             (setv (buffers (hybrid w))
                (list_set (getv (buffers (hybrid w))) lev (Arr3_set a i v))))).
Proof.
  intros H.
  unfold assign_level_comp, bind, get_buffers, at_level, put_buffers, modify.
  rewrite H. reflexivity.
Qed.

(** ** Element-wise kernels, point by point *)

Lemma Point_eqb_eq (p q : Point) : Point_eqb p q = true <-> p = q.
Proof.
  destruct p as [[i j] k], q as [[i' j'] k']. cbn.
  rewrite !andb_true_iff, !Z.eqb_eq. split.
  - intros [[-> ->] ->]. reflexivity.
  - intros H. injection H as -> -> ->. auto.
Qed.

Lemma In_Zrange (x lo hi : Z) : In x (Zrange lo hi) <-> (lo <= x <= hi)%Z.
Proof.
  unfold Zrange. rewrite in_map_iff. split.
  - intros [n [<- Hn]]. apply in_seq in Hn. lia.
  - intros H. exists (Z.to_nat (x - lo)). split; [lia|].
    apply in_seq. lia.
Qed.

Lemma In_Box_points (b : Box) (p : Point) :
  In p (Box_points b) <-> Box_contains b p = true.
Proof.
  destruct p as [[i j] k]. unfold Box_points, Box_contains, in_range.
  rewrite in_flat_map.
  rewrite !andb_true_iff, !Z.leb_le. split.
  - intros [k' [Hk H]]. apply in_flat_map in H. destruct H as [j' [Hj H]].
    apply in_map_iff in H. destruct H as [i' [E Hi]].
    injection E as -> -> ->.
    apply In_Zrange in Hk, Hj, Hi. lia.
  - intros H. exists k. split; [apply In_Zrange; lia|].
    apply in_flat_map. exists j. split; [apply In_Zrange; lia|].
    apply in_map_iff. exists i. split; [reflexivity|apply In_Zrange; lia].
Qed.

Lemma existsb_Box_points (b : Box) (p : Point) :
  existsb (Point_eqb p) (Box_points b) = Box_contains b p.
Proof.
  destruct (Box_contains b p) eqn:E.
  - apply existsb_exists. exists p. split.
    + apply In_Box_points. exact E.
    + apply Point_eqb_eq. reflexivity.
  - destruct (existsb (Point_eqb p) (Box_points b)) eqn:E'; [|reflexivity].
    apply existsb_exists in E'. destruct E' as [q [Hq Hpq]].
    apply Point_eqb_eq in Hpq. subst q.
    apply In_Box_points in Hq. congruence.
Qed.

Lemma fold_store_spec (kernel : Point -> option R) (l : list Point) :
  forall (a : Array4) (q : Point) (c : nat),
    fold_left (fun acc p => match kernel p with
                            | Some v => Array4_store acc p v
                            | None => acc
                            end) l a q c
    = if existsb (Point_eqb q) l && Nat.eqb c 0
      then match kernel q with Some v => v | None => a q c end
      else a q c.
Proof.
  induction l as [|p l IH]; intros a q c; [reflexivity|].
  cbn [fold_left existsb]. rewrite IH.
  destruct (Point_eqb q p) eqn:Eqp.
  - apply Point_eqb_eq in Eqp. subst p. cbn [orb].
    destruct (Nat.eqb c 0) eqn:Ec.
    + rewrite andb_true_r.
      destruct (kernel q) as [v|] eqn:Ek.
      * destruct (existsb (Point_eqb q) l); [reflexivity|].
        unfold Array4_store. rewrite Ec.
        assert (Point_eqb q q = true) as -> by (apply Point_eqb_eq; reflexivity).
        reflexivity.
      * destruct (existsb (Point_eqb q) l); reflexivity.
    + rewrite !andb_false_r.
      destruct (kernel q) as [v|]; [|reflexivity].
      unfold Array4_store. rewrite Ec, andb_false_r. reflexivity.
  - cbn [orb].
    assert (Hsame : match kernel p with
                    | Some v => Array4_store a p v
                    | None => a
                    end q c = a q c).
    { destruct (kernel p); [|reflexivity].
      unfold Array4_store. rewrite Eqp. reflexivity. }
    rewrite Hsame. reflexivity.
Qed.

(** The value a [ParallelFor] leaves at a point and component. *)
Lemma ParallelFor_spec (bx : Box) (kernel : Point -> option R) (a : Array4)
    (q : Point) (c : nat) :
  ParallelFor bx kernel a q c
  = if Box_contains bx q && Nat.eqb c 0
    then match kernel q with Some v => v | None => a q c end
    else a q c.
Proof.
  unfold ParallelFor. rewrite fold_store_spec, existsb_Box_points. reflexivity.
Qed.

Lemma real_power_positive (x y : R) :
  (0 < x)%R -> real_power x y = exp (y * ln x).
Proof.
  intros H. unfold real_power. destruct (Rlt_dec 0 x); [reflexivity|contradiction].
Qed.

Lemma real_power_base_1 (y : R) : real_power 1 y = 1%R.
Proof. rewrite real_power_positive by lra. rewrite ln_1, Rmult_0_r. apply exp_0. Qed.

Lemma Int_part_IZR (k : Z) : Int_part (IZR k) = k.
Proof. symmetry. apply Int_part_spec. lra. Qed.

(** The base 0 to a positive exponent, whole or not, is 0. *)
Lemma real_power_base_0 (y : R) : (0 < y)%R -> real_power 0 y = 0%R.
Proof.
  intros Hy. unfold real_power.
  destruct (Rlt_dec 0 0) as [H|_]; [lra|].
  destruct (Req_dec_T y (IZR (Int_part y))) as [E|_]; [|reflexivity].
  destruct (Int_part y) as [|k|k] eqn:Ek.
  - rewrite E in Hy. lra.
  - unfold powerRZ. apply pow_i. apply Pos2Nat.is_pos.
  - rewrite E in Hy. pose proof (IZR_lt (Z.neg k) 0 (Pos2Z.neg_is_neg k)). lra.
Qed.

(** On a whole exponent that is not negative, the power is the iterated
    product, whatever the base. *)
Lemma real_power_whole (x : R) (k : nat) : real_power x (INR k) = (x ^ k)%R.
Proof.
  unfold real_power. destruct (Rlt_dec 0 x) as [Hx|_].
  - apply (Rpower_pow k x Hx).
  - rewrite Int_part_INR, <- INR_IZR_INZ.
    destruct (Req_dec_T (INR k) (INR k)) as [_|N]; [|contradiction].
    symmetry. apply pow_powerRZ.
Qed.

Lemma get_pressure_gamma_1 (n0 T0 rho : R) : get_pressure n0 T0 1 rho = (T0 * rho)%R.
Proof. unfold get_pressure. destruct (Req_dec_T 1 1); [reflexivity|congruence]. Qed.

Lemma get_pressure_polytropic (n0 T0 gamma rho : R) :
  gamma <> 1%R ->
  get_pressure n0 T0 gamma rho = (n0 * T0 * real_power (rho / n0) gamma)%R.
Proof.
  intros H. unfold get_pressure. destruct (Req_dec_T gamma 1); [contradiction|reflexivity].
Qed.

Lemma get_pressure_at_n0 (n0 T0 gamma : R) : get_pressure n0 T0 gamma n0 = (n0 * T0)%R.
Proof.
  unfold get_pressure. destruct (Req_dec_T gamma 1); [ring|].
  destruct (Req_dec_T n0 0) as [->|Hn0]; [ring|].
  replace (n0 / n0)%R with 1%R by (field; exact Hn0).
  rewrite real_power_base_1. ring.
Qed.

(** ** What the field push leaves alone

    The frame of a world is everything but the B field, the E field, the
    Ampere current and the log. *)

Definition buffers_frame (b : Buffers) :=
  (electron_pressure_fp b, rho_fp_temp b, current_fp_temp b,
   current_fp_external b, bfield_fp_external b).

Definition world_frame (w : World) :=
  (parm w, finestLevel w, Geom_CellSize w, Geom_ProbLo w, gett_new w,
   current_fp w, rho_fp w, Jfield w, rhofield w, edge_lengths w,
   params (hybrid w), compiled (hybrid w)).

Definition frame_of (w : World) := (world_frame w, buffers_frame (buffers (hybrid w))).

(** From any world with the frame of [w0], the computation ends (normally
    or not) in a world with the frame of [w0]. *)
Definition keeps_from (w0 : World) {A} (m : M A) : Prop :=
  forall w, frame_of w = frame_of w0 -> frame_of (final_world (m w)) = frame_of w0.

Lemma kf_bind w0 {A B} (m : M A) (k : A -> M B) :
  keeps_from w0 m -> (forall a, keeps_from w0 (k a)) -> keeps_from w0 (bind m k).
Proof.
  intros Hm Hk w Hw. unfold bind. specialize (Hm w Hw).
  destruct (m w) as [a w'|msg w'|w']; cbn in *; auto.
  apply Hk. exact Hm.
Qed.

Lemma kf_bind_get w0 {B} (k : World -> M B) :
  (forall w', frame_of w' = frame_of w0 -> keeps_from w0 (k w')) ->
  keeps_from w0 (bind get k).
Proof. intros Hk w Hw. unfold bind, get. apply Hk; exact Hw. Qed.

Lemma kf_bind_get_buffers w0 {B} (k : Buffers -> M B) :
  (forall b, buffers_frame b = buffers_frame (buffers (hybrid w0)) -> keeps_from w0 (k b)) ->
  keeps_from w0 (bind get_buffers k).
Proof.
  intros Hk w Hw. unfold bind, get_buffers. apply Hk; [|exact Hw].
  unfold frame_of in Hw. congruence.
Qed.

Lemma kf_ret w0 {A} (a : A) : keeps_from w0 (ret a).
Proof. intros w Hw. exact Hw. Qed.

Lemma kf_fault w0 {A} : keeps_from w0 (@fault A).
Proof. intros w Hw. exact Hw. Qed.

Lemma kf_abort w0 {A} msg : keeps_from w0 (@amrex_Abort A msg).
Proof. intros w Hw. exact Hw. Qed.

Lemma kf_deref w0 {A} (o : option A) : keeps_from w0 (deref o).
Proof. destruct o; [apply kf_ret | apply kf_fault]. Qed.

Lemma kf_at_level w0 {A} (l : list A) lev : keeps_from w0 (at_level l lev).
Proof. apply kf_deref. Qed.

Lemma kf_deref3 w0 {A} (a : Arr3 (option A)) : keeps_from w0 (deref3 a).
Proof.
  unfold deref3. repeat (apply kf_bind; [apply kf_deref | intros]). apply kf_ret.
Qed.

Lemma kf_emit w0 ev : keeps_from w0 (emit ev).
Proof. intros w Hw. exact Hw. Qed.

Lemma kf_set_Efield w0 (f : World -> nat -> Arr3 MultiFab) :
  keeps_from w0 (modify (fun w => set_Efield w (f w))).
Proof. intros w Hw. exact Hw. Qed.

Lemma kf_set_Bfield w0 (f : World -> nat -> Arr3 MultiFab) :
  keeps_from w0 (modify (fun w => set_Bfield w (f w))).
Proof. intros w Hw. exact Hw. Qed.

Lemma kf_set_Bfield_const w0 (B : World -> nat -> Arr3 MultiFab) :
  keeps_from w0 (modify (fun w => set_Bfield w (B w))).
Proof. intros w Hw. exact Hw. Qed.

Lemma kf_put_ampere w0 (b : Buffers) v :
  buffers_frame b = buffers_frame (buffers (hybrid w0)) ->
  keeps_from w0 (put_buffers (set_current_fp_ampere b v)).
Proof.
  intros Hb w Hw. unfold frame_of in *. cbn.
  injection Hw as Hw1 Hw2. unfold world_frame in *. cbn.
  change (buffers_frame (set_current_fp_ampere b v)) with (buffers_frame b).
  rewrite Hb. congruence.
Qed.

Lemma kf_assign_ampere w0 lev i v :
  keeps_from w0 (assign_level_comp current_fp_ampere set_current_fp_ampere lev i v).
Proof.
  unfold assign_level_comp.
  apply kf_bind_get_buffers. intros b Hb.
  apply kf_bind; [apply kf_at_level | intros a].
  apply kf_put_ampere. exact Hb.
Qed.

Lemma kf_for_range w0 (body : nat -> M unit) :
  (forall lev, keeps_from w0 (body lev)) ->
  forall count from, keeps_from w0 (for_range body from count).
Proof.
  intros Hb. induction count as [|c IH]; intros from; cbn [for_range].
  - apply kf_ret.
  - apply kf_bind; [apply Hb | intros _; apply IH].
Qed.

Lemma kf_for_levels w0 (body : nat -> M unit) :
  (forall lev, keeps_from w0 (body lev)) -> keeps_from w0 (for_levels body).
Proof.
  intros Hb. unfold for_levels. apply kf_bind_get. intros w' _.
  apply kf_for_range. exact Hb.
Qed.

(** ** The stages of the Runge-Kutta sub-cycle, as the spec describes them *)

Definition Delta := nat -> Point -> R.

Definition no_delta : Delta := fun _ _ => 0%R.

(** [K = B_after - B_old - K_prev] (component 0 of the fields). *)
Definition stage_delta (B_after B_old : MultiFab) (K_prev : Delta) : Delta :=
  fun n p => (fabdata B_after n p 0%nat - fabdata B_old n p 0%nat - K_prev n p)%R.

(** The field a stage starts from: [B_old + K] on the cells the MultiFab
    operations with ghost width [ng] act on, the field as the previous push
    left it elsewhere. *)
Definition restart_from (ng : IntVect) (B_after B_old : MultiFab) (K : Delta) : MultiFab :=
  with_fabdata B_after (fun n p c =>
    if MF_region B_after ng n p && Nat.eqb c 0
    then (fabdata B_old n p 0%nat + K n p)%R
    else fabdata B_after n p c).

(** The worlds of one run: after the pushes of stages 1 and 2, before and
    after the pushes of stages 3 and 4. *)
Record RK_run := mkRK_run {
  out1 : World; out2 : World; in3 : World; out3 : World; in4 : World; out4 : World
}.

Definition RK_K0 (w : World) (s : RK_run) : Arr3 Delta :=
  Arr3_map2 (fun a o => stage_delta a o no_delta) (Bfield (out1 s) 0) (Bfield w 0).
Definition RK_K1 (w : World) (s : RK_run) : Arr3 Delta :=
  Arr3_map3 stage_delta (Bfield (out2 s) 0) (Bfield w 0) (RK_K0 w s).
Definition RK_K2 (w : World) (s : RK_run) : Arr3 Delta :=
  Arr3_map3 stage_delta (Bfield (out3 s) 0) (Bfield w 0) (RK_K1 w s).
Definition RK_K3 (w : World) (s : RK_run) : Arr3 Delta :=
  Arr3_map3 stage_delta (Bfield (out4 s) 0) (Bfield w 0) (RK_K2 w s).

Definition with_B0 (w : World) (B : Arr3 MultiFab) : World :=
  set_Bfield w (upd (Bfield w) 0 B).

(** ** Invariants of computations *)

(** From a world where [I] holds, the computation ends normally in a world
    where [I] holds, or aborts with a message in [E], or faults. *)
Definition invariant (I : World -> Prop) (E : string -> Prop) {A} (m : M A) : Prop :=
  forall w, I w -> match m w with
                   | Ok _ w' => I w'
                   | Abort msg _ => E msg
                   | Fault _ => True
                   end.

Section Invariant.

Variables (I : World -> Prop) (E : string -> Prop).

Lemma inv_bind {A B} (m : M A) (k : A -> M B) :
  invariant I E m -> (forall a, invariant I E (k a)) -> invariant I E (bind m k).
Proof.
  intros Hm Hk w Hw. unfold bind. specialize (Hm w Hw).
  destruct (m w) as [a w'|msg w'|w']; auto. apply Hk. exact Hm.
Qed.

Lemma inv_bind_get {B} (k : World -> M B) :
  (forall w', I w' -> invariant I E (k w')) -> invariant I E (bind get k).
Proof. intros Hk w Hw. unfold bind, get. apply Hk; exact Hw. Qed.

Lemma inv_bind_get_buffers {B} (k : Buffers -> M B) :
  (forall w', I w' -> invariant I E (k (buffers (hybrid w')))) ->
  invariant I E (bind get_buffers k).
Proof. intros Hk w Hw. unfold bind, get_buffers. apply Hk; exact Hw. Qed.

Lemma inv_ret {A} (a : A) : invariant I E (ret a).
Proof. intros w Hw. exact Hw. Qed.

Lemma inv_fault {A} : invariant I E (@fault A).
Proof. intros w Hw. exact Logic.I. Qed.

Lemma inv_abort {A} msg : E msg -> invariant I E (@amrex_Abort A msg).
Proof. intros H w Hw. exact H. Qed.

Lemma inv_deref {A} (o : option A) : invariant I E (deref o).
Proof. destruct o; [apply inv_ret | apply inv_fault]. Qed.

Lemma inv_deref3 {A} (a : Arr3 (option A)) : invariant I E (deref3 a).
Proof.
  unfold deref3. repeat (apply inv_bind; [apply inv_deref | intros]). apply inv_ret.
Qed.

Lemma inv_modify (f : World -> World) :
  (forall w, I w -> I (f w)) -> invariant I E (modify f).
Proof. intros H w Hw. apply H. exact Hw. Qed.

Lemma inv_for_range (body : nat -> M unit) :
  (forall lev, invariant I E (body lev)) ->
  forall count from, invariant I E (for_range body from count).
Proof.
  intros Hb. induction count as [|c IH]; intros from; cbn [for_range].
  - apply inv_ret.
  - apply inv_bind; [apply Hb | intros _; apply IH].
Qed.

Lemma inv_for_levels (body : nat -> M unit) :
  (forall lev, invariant I E (body lev)) -> invariant I E (for_levels body).
Proof.
  intros Hb. unfold for_levels. apply inv_bind_get. intros w' _.
  apply inv_for_range. exact Hb.
Qed.

End Invariant.

(** ** Worlds that differ in the simulation time only *)

Definition set_gett_new (w : World) (t : nat -> R) : World :=
  {| parm := parm w; finestLevel := finestLevel w; Geom_CellSize := Geom_CellSize w;
     Geom_ProbLo := Geom_ProbLo w; gett_new := t; current_fp := current_fp w;
     rho_fp := rho_fp w; Bfield := Bfield w; Efield := Efield w; Jfield := Jfield w;
     rhofield := rhofield w; edge_lengths := edge_lengths w; hybrid := hybrid w;
     log := log w |}.


(** ** Expressions without a symbol do not depend on it *)




(** Brings a world built by setters back to an explicit record. *)
Ltac norm_world :=
  unfold set_hybrid, set_Bfield, set_Efield, add_log,
    set_params, set_compiled, set_buffers,
    set_electron_pressure_fp, set_rho_fp_temp, set_current_fp_temp,
    set_current_fp_ampere, set_current_fp_external, set_bfield_fp_external;
  cbn [ parm finestLevel Geom_CellSize Geom_ProbLo gett_new current_fp rho_fp
        Bfield Efield Jfield rhofield edge_lengths hybrid log
        params compiled buffers
        electron_pressure_fp rho_fp_temp current_fp_temp current_fp_ampere
        current_fp_external bfield_fp_external ].

(** Brings three-component arrays to explicit triples. *)
Ltac norm_arr :=
  unfold Arr3_get, Arr3_set, Arr3_map, Arr3_map2, Arr3_map3, overwrite3,
    Arr3_x, Arr3_y, Arr3_z;
  cbv beta iota; cbn [fst snd].

Section Theorems.

Context (bld : Build) (ext : Collaborators).

(** *** Configuration *)

(** C5. The constructor aborts with the electron-temperature message when
    [elec_temp] is not given, and with the reference-density message when
    [elec_temp] is given, the value of [gamma] read is not 1 and [n0_ref] is
    not given.  In both cases the abort is raised by [ReadParameters]:
    [AllocateMFs] has not run, so the model's buffer vectors are as they were
    at entry and no buffer has been allocated. *)
Theorem ctor_aborts_without_required_parameters :
  forall (w : World) (nlevs_max : nat),
    (pp_real (parm w) "elec_temp" = None ->
     exists w',
       HybridPICModel_ctor ext nlevs_max w = Abort msg_elec_temp w' /\
       ReadParameters ext w = Abort msg_elec_temp w' /\
       buffers (hybrid w') = buffers (hybrid w) /\ log w' = log w)
    /\
    (pp_real (parm w) "elec_temp" <> None ->
     gamma_read w <> 1%R ->
     pp_real (parm w) "n0_ref" = None ->
     exists w',
       HybridPICModel_ctor ext nlevs_max w = Abort msg_n0_ref w' /\
       ReadParameters ext w = Abort msg_n0_ref w' /\
       buffers (hybrid w') = buffers (hybrid w) /\ log w' = log w).
Proof.
  intros w nlevs_max. split.
  - intros Hte. eexists.
    unfold HybridPICModel_ctor, ReadParameters, bind, get, put_params, modify,
      query, amrex_Abort.
    rewrite Hte. cbn. repeat split; reflexivity.
  - intros Hte Hg Hn0.
    destruct (pp_real (parm w) "elec_temp") as [te|] eqn:E; [|congruence].
    eexists.
    unfold HybridPICModel_ctor, ReadParameters, bind, get, put_params, modify,
      query, amrex_Abort.
    rewrite E, Hn0. cbn.
    unfold gamma_read, query in Hg.
    destruct (Req_dec_T _ 1) as [Heq|Hne]; [contradiction|].
    cbn. repeat split; reflexivity.
Qed.

(** *** The Ohm's-law solve above level 0 *)

Lemma push_ready_inv (b : Buffers) lev :
  push_ready b lev = true ->
  exists Pe Jx Jy Jz Jex Jey Jez Bex Bey Bez,
    nth_error (electron_pressure_fp b) lev = Some (Some Pe) /\
    nth_error (current_fp_ampere b) lev = Some (Some Jx, Some Jy, Some Jz) /\
    nth_error (current_fp_external b) lev = Some (Some Jex, Some Jey, Some Jez) /\
    nth_error (bfield_fp_external b) lev = Some (Some Bex, Some Bey, Some Bez).
Proof.
  unfold push_ready. intros H.
  apply andb_true_iff in H. destruct H as [H H4].
  apply andb_true_iff in H. destruct H as [H H3].
  apply andb_true_iff in H. destruct H as [H1 H2].
  apply is_alloc_true in H1. destruct H1 as [Pe H1].
  apply is_alloc3_true in H2. destruct H2 as (Jx & Jy & Jz & H2).
  apply is_alloc3_true in H3. destruct H3 as (Jex & Jey & Jez & H3).
  apply is_alloc3_true in H4. destruct H4 as (Bex & Bey & Bez & H4).
  exists Pe, Jx, Jy, Jz, Jex, Jey, Jez, Bex, Bey, Bez. auto.
Qed.

Lemma HybridPICSolveE_patch_returns lev patch_type incl w :
  push_ready (buffers (hybrid w)) lev = true ->
  exists w', HybridPICSolveE_patch ext lev patch_type incl w = Ok tt w'.
Proof.
  intros H. apply push_ready_inv in H.
  destruct H as (Pe & Jx & Jy & Jz & Jex & Jey & Jez & Bex & Bey & Bez &
                 H1 & H2 & H3 & H4).
  unfold HybridPICSolveE_patch, bind, get, at_level.
  rewrite H2, H3, H4, H1. cbn. eexists. reflexivity.
Qed.

(** C8. Invoking the per-level Ohm's-law solve on a level above 0 never
    returns normally; with the level's buffers allocated it runs the stencil
    solve and the E boundary condition of that level and then aborts with
    the "only one level" error. *)
Theorem HybridPICSolveE_lev_aborts_above_level_0 :
  forall (lev : nat) (include_resistivity_term : bool) (w : World),
    (0 < lev)%nat ->
    (forall a w', HybridPICSolveE_lev ext lev include_resistivity_term w <> Ok a w')
    /\
    (push_ready (buffers (hybrid w)) lev = true ->
     exists w',
       HybridPICSolveE_lev ext lev include_resistivity_term w
       = Abort (TextMsg_Err ext msg_one_level) w' /\
       HybridPICSolveE_patch ext lev PatchType_fine include_resistivity_term w
       = Ok tt w').
Proof.
  intros lev incl w Hlev.
  assert (Hb : (0 <? lev)%nat = true) by (apply Nat.ltb_lt; exact Hlev).
  split.
  - intros a w'. unfold HybridPICSolveE_lev, bind.
    destruct (HybridPICSolveE_patch ext lev PatchType_fine incl w);
      try discriminate.
    rewrite Hb. discriminate.
  - intros Hr.
    destruct (HybridPICSolveE_patch_returns lev PatchType_fine incl w Hr) as [w' Hw'].
    exists w'. split; [|exact Hw'].
    unfold HybridPICSolveE_lev. rewrite (bind_Ok _ _ _ _ _ Hw').
    rewrite Hb. reflexivity.
Qed.

(** *** Releasing a level *)

Lemma ClearLevel_effect (lev : nat) (w : World) :
  level_exists (buffers (hybrid w)) lev = true ->
  exists w',
    ClearLevel lev w = Ok tt w' /\
    nth_error (electron_pressure_fp (buffers (hybrid w'))) lev = Some None /\
    nth_error (rho_fp_temp (buffers (hybrid w'))) lev = Some None /\
    nth_error (current_fp_temp (buffers (hybrid w'))) lev = Some (None, None, None) /\
    nth_error (current_fp_ampere (buffers (hybrid w'))) lev = Some (None, None, None) /\
    nth_error (current_fp_external (buffers (hybrid w'))) lev = Some (None, None, None) /\
    bfield_fp_external (buffers (hybrid w')) = bfield_fp_external (buffers (hybrid w)).
Proof.
  intros H. apply level_exists_inv in H.
  destruct H as (H1 & H2 & H3 & H4 & H5 & H6).
  destruct (in_rangeb_true _ _ H3) as [[[t0 t1] t2] E3].
  destruct (in_rangeb_true _ _ H4) as [[[a0 a1] a2] E4].
  destruct (in_rangeb_true _ _ H5) as [[[e0 e1] e2] E5].
  unfold ClearLevel, for_range.
  eexists. split.
  - rewrite (bind_Ok _ _ _ _ _ (assign_level_run _ _ lev None w H1)). norm_world.
    erewrite bind_Ok by (apply assign_level_run; norm_world; exact H2). norm_world.
    repeat (rewrite ?bind_bind;
            erewrite bind_Ok
              by (eapply assign_level_comp_run; norm_world;
                  first [ eassumption
                        | apply nth_error_list_set_same;
                          rewrite ?in_rangeb_list_set; assumption ]);
            norm_world).
    reflexivity.
  - norm_world.
    rewrite !nth_error_list_set_same
      by (rewrite ?in_rangeb_list_set; assumption).
    repeat split; reflexivity.
Qed.

(** C6 (the code on a concrete run). In the demo world with level 0
    allocated, [ClearLevel 0] resets the electron pressure, the scratch
    density and current, the Ampere current and the external current of the
    level, and leaves the three external-B buffers of the level allocated. *)
Theorem ClearLevel_leaves_external_B_allocated :
  exists w0 w',
    (AllocateMFs 1 ;;; demo_allocate 0) (demo_world pp_elec_temp 0) = Ok tt w0 /\
    ClearLevel 0 w0 = Ok tt w' /\
    nth_error (electron_pressure_fp (buffers (hybrid w'))) 0 = Some None /\
    nth_error (rho_fp_temp (buffers (hybrid w'))) 0 = Some None /\
    nth_error (current_fp_temp (buffers (hybrid w'))) 0 = Some (None, None, None) /\
    nth_error (current_fp_ampere (buffers (hybrid w'))) 0 = Some (None, None, None) /\
    nth_error (current_fp_external (buffers (hybrid w'))) 0 = Some (None, None, None) /\
    is_alloc3 (nth_error (bfield_fp_external (buffers (hybrid w0))) 0) = true /\
    is_alloc3 (nth_error (bfield_fp_external (buffers (hybrid w'))) 0) = true.
Proof.
  exists (final_world ((AllocateMFs 1 ;;; demo_allocate 0) (demo_world pp_elec_temp 0))).
  exists (final_world
            (ClearLevel 0
               (final_world ((AllocateMFs 1 ;;; demo_allocate 0)
                               (demo_world pp_elec_temp 0))))).
  split; [vm_compute; reflexivity|].
  split; [vm_compute; reflexivity|].
  split; [vm_compute; reflexivity|].
  split; [vm_compute; reflexivity|].
  split; [vm_compute; reflexivity|].
  split; [vm_compute; reflexivity|].
  split; [vm_compute; reflexivity|].
  split; vm_compute; reflexivity.
Qed.

(** *** Allocating a level *)

Ltac side_range :=
  norm_world; rewrite ?in_rangeb_list_set; assumption.

Ltac side_entry :=
  norm_world;
  first [ eassumption
        | apply nth_error_list_set_same; rewrite ?in_rangeb_list_set; assumption ].

(** Runs a sequence of allocations and assignments whose side conditions
    are range facts in the context. *)
Ltac run_assignments :=
  repeat (rewrite ?bind_bind;
          first [ rewrite bind_ret
                | erewrite bind_Ok by (apply assign_level_run; side_range)
                | erewrite bind_Ok by (eapply assign_level_comp_run; side_entry)
                | erewrite bind_Ok by (unfold emit, modify; reflexivity) ];
          norm_world).

Definition all_nodal (d : Dim) : IntVect := repeat 1%Z (AMREX_SPACEDIM d).
Definition no_ghost (d : Dim) : IntVect := repeat 0%Z (AMREX_SPACEDIM d).

(** A MultiFab as [AllocInitMultiFab] makes it with the initial value 0. *)
Definition zero_MultiFab (ba : BoxArray) (typ : IntVect) (dm : nat) (ncomps : Z)
    (ng : IntVect) : MultiFab :=
  {| boxArray := convert ba typ; DistributionMap := dm; nComp := ncomps;
     nGrowVect := ng; fabdata := fun _ _ _ => 0%R |}.

Definition msg_m0 : string :=
  "Ohm's law solver only support m = 0 azimuthal mode at present.".

(** C10. Allocating a level (whose entry exists in the model's vectors)
    creates the three external-current and the three external-B components
    with the all-nodal index type and zero ghost cells, whatever staggering
    flags and ghost widths are passed for the ion and Ampere currents and the
    density; every owned buffer of the level is created with all values 0.
    The call returns normally, except in the RZ build with more than one
    component, where it aborts after the buffers were created. *)
Theorem AllocateLevelMFs_external_fields_nodal_without_ghosts :
  forall (w : World) (lev : nat) (ba : BoxArray) (dm : nat) (ncomps : Z)
         (ngJ ngRho jx_nodal_flag jy_nodal_flag jz_nodal_flag rho_nodal_flag : IntVect),
    level_exists (buffers (hybrid w)) lev = true ->
    let d := WARPX_DIM bld in
    let r := AllocateLevelMFs bld ext lev ba dm ncomps ngJ ngRho
               jx_nodal_flag jy_nodal_flag jz_nodal_flag rho_nodal_flag w in
    let b' := buffers (hybrid (final_world r)) in
    let ext_mf := zero_MultiFab ba (all_nodal d) dm ncomps (no_ghost d) in
    (r = Ok tt (final_world r) \/
     (d = DIM_RZ /\ ncomps <> 1%Z /\ r = Abort msg_m0 (final_world r))) /\
    nth_error (current_fp_external b') lev
      = Some (Some ext_mf, Some ext_mf, Some ext_mf) /\
    nth_error (bfield_fp_external b') lev
      = Some (Some ext_mf, Some ext_mf, Some ext_mf) /\
    ixType ext_mf = all_nodal d /\ nGrowVect ext_mf = no_ghost d /\
    (forall n p c, fabdata ext_mf n p c = 0%R) /\
    nth_error (electron_pressure_fp b') lev
      = Some (Some (zero_MultiFab ba rho_nodal_flag dm ncomps ngRho)) /\
    nth_error (rho_fp_temp b') lev
      = Some (Some (zero_MultiFab ba rho_nodal_flag dm ncomps ngRho)) /\
    nth_error (current_fp_temp b') lev
      = Some (Some (zero_MultiFab ba jx_nodal_flag dm ncomps ngJ),
              Some (zero_MultiFab ba jy_nodal_flag dm ncomps ngJ),
              Some (zero_MultiFab ba jz_nodal_flag dm ncomps ngJ)) /\
    nth_error (current_fp_ampere b') lev
      = Some (Some (zero_MultiFab ba jx_nodal_flag dm ncomps ngJ),
              Some (zero_MultiFab ba jy_nodal_flag dm ncomps ngJ),
              Some (zero_MultiFab ba jz_nodal_flag dm ncomps ngJ)).
Proof.
  intros w lev ba dm ncomps ngJ ngRho jx jy jz rho H d r b' ext_mf.
  apply level_exists_inv in H.
  destruct H as (H1 & H2 & H3 & H4 & H5 & H6).
  destruct (in_rangeb_true _ _ H3) as [[[t0 t1] t2] E3].
  destruct (in_rangeb_true _ _ H4) as [[[a0 a1] a2] E4].
  destruct (in_rangeb_true _ _ H5) as [[[e0 e1] e2] E5].
  destruct (in_rangeb_true _ _ H6) as [[[b0 b1] b2] E6].
  assert (Hd : IntVect_D_DECL d 1 1 1 = all_nodal d /\
               IntVect_D_DECL d 0 0 0 = no_ghost d)
    by (unfold IntVect_D_DECL, all_nodal, no_ghost; destruct d; split; reflexivity).
  destruct Hd as [Hn Hg].
  subst b' r. unfold AllocateLevelMFs, AllocInitMultiFab.
  fold d. rewrite Hn, Hg.
  run_assignments.
  assert (Hend :
    forall w1 : World,
      let r1 := match d with
                | DIM_RZ => WARPX_ALWAYS_ASSERT_WITH_MESSAGE (ncomps =? 1)%Z msg_m0
                | _ => ret tt
                end w1 in
      final_world r1 = w1 /\
      (r1 = Ok tt w1 \/ (d = DIM_RZ /\ ncomps <> 1%Z /\ r1 = Abort msg_m0 w1))).
  { intros w1. destruct d; cbn; auto.
    unfold WARPX_ALWAYS_ASSERT_WITH_MESSAGE.
    destruct (ncomps =? 1)%Z eqn:E; cbn; auto.
    split; [reflexivity|]. right. repeat split; auto.
    intros ->. discriminate. }
  unfold msg_m0 in Hend.
  match goal with
  | |- context [ match d with DIM_RZ => _ | _ => _ end ?w1 ] =>
      destruct (Hend w1) as [Hf Hr]
  end.
  cbv zeta in Hf, Hr. rewrite Hf.
  split; [exact Hr|].
  norm_world.
  rewrite !nth_error_list_set_same by (rewrite ?in_rangeb_list_set; assumption).
  cbn [Arr3_set].
  repeat split; reflexivity.
Qed.

(** *** Electron pressure *)

(** C4. [FillElectronPressureMF] is point-wise and pure: at every point of
    a valid box of the pressure field it stores the equation of state of the
    charge density at that same point, which is [T_e * rho] when gamma is 1,
    [n0 * T_e * (rho/n0)^gamma] when gamma is not 1, and [n0 * T_e] where the
    density is [n0].  The power is the real power: [exp (gamma * ln (rho/n0))]
    where [rho/n0] is positive, 0 where the density is 0 (for a positive
    gamma), and the iterated product for every density when gamma is a whole
    number.  The stored value depends on the density field through that one
    point only; cells outside the valid boxes, other components and the
    field's layout are left as they were. *)
Theorem FillElectronPressureMF_pointwise_equation_of_state :
  forall (m : HybridPICModel) (Pe_field rho_field : MultiFab)
         (n : nat) (bx : Box) (p : Point),
    tilebox (boxArray Pe_field) n = Some bx ->
    Box_contains bx p = true ->
    let n0 := m_n0_ref (params m) in
    let Te := m_elec_temp (params m) in
    let gamma := m_gamma (params m) in
    let rho := fabdata rho_field n p 0%nat in
    let Pe' := FillElectronPressureMF m Pe_field rho_field in
    fabdata Pe' n p 0%nat = get_pressure n0 Te gamma rho /\
    (gamma = 1%R -> fabdata Pe' n p 0%nat = (Te * rho)%R) /\
    (gamma <> 1%R ->
     fabdata Pe' n p 0%nat = (n0 * Te * real_power (rho / n0) gamma)%R) /\
    (gamma <> 1%R -> (0 < rho / n0)%R ->
     fabdata Pe' n p 0%nat = (n0 * Te * exp (gamma * ln (rho / n0)))%R) /\
    (gamma <> 1%R -> (0 < gamma)%R -> n0 <> 0%R -> rho = 0%R ->
     fabdata Pe' n p 0%nat = 0%R) /\
    (forall k : nat, gamma = INR k -> k <> 1%nat -> n0 <> 0%R ->
     fabdata Pe' n p 0%nat = (n0 * Te * (rho / n0) ^ k)%R) /\
    (rho = n0 -> fabdata Pe' n p 0%nat = (n0 * Te)%R) /\
    (forall rho_field2 : MultiFab,
        fabdata rho_field2 n p 0%nat = rho ->
        fabdata (FillElectronPressureMF m Pe_field rho_field2) n p 0%nat
        = fabdata Pe' n p 0%nat) /\
    (forall q c, Box_contains bx q = false \/ c <> 0%nat ->
                 fabdata Pe' n q c = fabdata Pe_field n q c) /\
    boxArray Pe' = boxArray Pe_field /\ nComp Pe' = nComp Pe_field /\
    nGrowVect Pe' = nGrowVect Pe_field.
Proof.
  intros m Pe_field rho_field n bx p Hbx Hp n0 Te gamma rho Pe'.
  assert (Hval : forall rf q c,
            fabdata (FillElectronPressureMF m Pe_field rf) n q c
            = if Box_contains bx q && Nat.eqb c 0
              then get_pressure n0 Te gamma (fabdata rf n q 0%nat)
              else fabdata Pe_field n q c).
  { intros rf q c. unfold FillElectronPressureMF, MFIter_ParallelFor. cbn.
    rewrite Hbx, ParallelFor_spec. reflexivity. }
  assert (Hp0 : fabdata Pe' n p 0%nat = get_pressure n0 Te gamma rho).
  { subst Pe'. rewrite Hval, Hp. reflexivity. }
  split; [exact Hp0|].
  split; [intros Hg; rewrite Hp0, Hg; apply get_pressure_gamma_1|].
  split; [intros Hg; rewrite Hp0; apply get_pressure_polytropic; exact Hg|].
  split.
  { intros Hg Hpos. rewrite Hp0, get_pressure_polytropic by exact Hg.
    rewrite real_power_positive by exact Hpos. reflexivity. }
  split.
  { intros Hg Hpos Hn0 Hr. rewrite Hp0, get_pressure_polytropic by exact Hg.
    rewrite Hr. replace (0 / n0)%R with 0%R by (field; exact Hn0).
    rewrite real_power_base_0 by exact Hpos. ring. }
  split.
  { intros k Hk Hk1 Hn0. rewrite Hp0, get_pressure_polytropic.
    - rewrite Hk, real_power_whole. reflexivity.
    - rewrite Hk. change 1%R with (INR 1). intros E. apply INR_eq in E.
      contradiction. }
  split; [intros Hr; rewrite Hp0, Hr; apply get_pressure_at_n0|].
  split.
  { intros rf2 Hrf2. rewrite Hp0, Hval, Hp, Hrf2. reflexivity. }
  split; [|repeat split; reflexivity].
  intros q c [Hq|Hc]; subst Pe'; rewrite Hval.
  - rewrite Hq. reflexivity.
  - apply Nat.eqb_neq in Hc. rewrite Hc, andb_false_r. reflexivity.
Qed.

(** One step of a run whose buffers are found allocated. *)
Ltac run_step :=
  first [ rewrite bind_bind
        | rewrite bind_get
        | rewrite bind_ret
        | rewrite bind_get_buffers
        | rewrite bind_emit
        | rewrite bind_modify
        | rewrite bind_put_buffers
        | rewrite bind_deref_Some
        | rewrite bind_deref3_Some
        | erewrite bind_at_level
            by (norm_world; rewrite ?list_set_twice;
                first [ eassumption
                      | eapply nth_error_list_set_eq; eassumption ]) ];
  norm_world; rewrite ?list_set_twice; norm_arr.

(** *** The field push on a single level *)

Definition FieldPush_events (dt : R) (dt_type : DtType) (ng : IntVect)
    (nodal_sync : option bool) : list Event :=
  [ EvCalculateCurrentAmpere 0; EvFillBoundaryJ 0 0; EvFillBoundaryJ 0 1;
    EvFillBoundaryJ 0 2; EvHybridPICSolveE 0 true;
    EvApplyEfieldBoundary 0 PatchType_fine; EvFillBoundaryE ng nodal_sync;
    EvEvolveB dt dt_type; EvFillBoundaryB ng nodal_sync ].

(** The five steps of one field push on level 0 as functions of the world.
    (1) The Ampere current is recomputed from the current B field and its
    boundary filled; [Jamp] is the Ampere-current buffer found at level 0. *)
Definition ampere_step (Jamp : Arr3 MultiFab) (w : World) : World :=
  let J1 := overwrite3 Jamp
              (fdtd_CalculateCurrentAmpere ext 0 Jamp (Bfield w 0) (edge_lengths w 0)) in
  let J2 := Arr3_map (fun Ji => with_fabdata Ji (MultiFab_FillBoundary ext 0 Ji)) J1 in
  {| parm := parm w; finestLevel := finestLevel w; Geom_CellSize := Geom_CellSize w;
     Geom_ProbLo := Geom_ProbLo w; gett_new := gett_new w; current_fp := current_fp w;
     rho_fp := rho_fp w; Bfield := Bfield w; Efield := Efield w; Jfield := Jfield w;
     rhofield := rhofield w; edge_lengths := edge_lengths w;
     hybrid := set_buffers (hybrid w)
                 (set_current_fp_ampere (buffers (hybrid w))
                    (list_set (current_fp_ampere (buffers (hybrid w))) 0
                       (Arr3_map Some J2)));
     log := log w ++ [ EvCalculateCurrentAmpere 0; EvFillBoundaryJ 0 0;
                       EvFillBoundaryJ 0 1; EvFillBoundaryJ 0 2 ] |}.

(** (2) E is solved from the Ampere current [Jamp], the ion current, the
    external current [Jext], B, the external B [Bext], the density and the
    electron pressure [Pe], with the resistivity term as [incl] says; then
    the E boundary condition is applied. *)
Definition solve_step (incl : bool) (Pe : MultiFab) (Jamp Jext Bext : Arr3 MultiFab)
    (w : World) : World :=
  let E1 := overwrite3 (Efield w 0)
              (fdtd_HybridPICSolveE ext 0 (Efield w 0) Jamp (Jfield w 0) Jext
                 (Bfield w 0) Bext (rhofield w 0) Pe (edge_lengths w 0)
                 (hybrid w) incl) in
  {| parm := parm w; finestLevel := finestLevel w; Geom_CellSize := Geom_CellSize w;
     Geom_ProbLo := Geom_ProbLo w; gett_new := gett_new w; current_fp := current_fp w;
     rho_fp := rho_fp w; Bfield := Bfield w;
     Efield := upd (Efield w) 0
                 (overwrite3 E1 (warpx_ApplyEfieldBoundary ext 0 PatchType_fine E1));
     Jfield := Jfield w; rhofield := rhofield w; edge_lengths := edge_lengths w;
     hybrid := hybrid w;
     log := log w ++ [ EvHybridPICSolveE 0 incl;
                       EvApplyEfieldBoundary 0 PatchType_fine ] |}.

(** (3) The E boundary fill. *)
Definition fillE_step (ng : IntVect) (nodal_sync : option bool) (w : World) : World :=
  {| parm := parm w; finestLevel := finestLevel w; Geom_CellSize := Geom_CellSize w;
     Geom_ProbLo := Geom_ProbLo w; gett_new := gett_new w; current_fp := current_fp w;
     rho_fp := rho_fp w; Bfield := Bfield w;
     Efield := fun lev => overwrite3 (Efield w lev)
                            (warpx_FillBoundaryE ext ng nodal_sync (Efield w) lev);
     Jfield := Jfield w; rhofield := rhofield w; edge_lengths := edge_lengths w;
     hybrid := hybrid w; log := log w ++ [ EvFillBoundaryE ng nodal_sync ] |}.

(** (4) The Faraday push of B by [dt] with the current E. *)
Definition evolveB_step (dt : R) (dt_type : DtType) (w : World) : World :=
  {| parm := parm w; finestLevel := finestLevel w; Geom_CellSize := Geom_CellSize w;
     Geom_ProbLo := Geom_ProbLo w; gett_new := gett_new w; current_fp := current_fp w;
     rho_fp := rho_fp w;
     Bfield := fun lev => overwrite3 (Bfield w lev)
                            (warpx_EvolveB ext dt dt_type (Efield w) (edge_lengths w)
                               (Bfield w) lev);
     Efield := Efield w; Jfield := Jfield w; rhofield := rhofield w;
     edge_lengths := edge_lengths w; hybrid := hybrid w;
     log := log w ++ [ EvEvolveB dt dt_type ] |}.

(** (5) The B boundary fill. *)
Definition fillB_step (ng : IntVect) (nodal_sync : option bool) (w : World) : World :=
  {| parm := parm w; finestLevel := finestLevel w; Geom_CellSize := Geom_CellSize w;
     Geom_ProbLo := Geom_ProbLo w; gett_new := gett_new w; current_fp := current_fp w;
     rho_fp := rho_fp w;
     Bfield := fun lev => overwrite3 (Bfield w lev)
                            (warpx_FillBoundaryB ext ng nodal_sync (Bfield w) lev);
     Efield := Efield w; Jfield := Jfield w; rhofield := rhofield w;
     edge_lengths := edge_lengths w; hybrid := hybrid w;
     log := log w ++ [ EvFillBoundaryB ng nodal_sync ] |}.

(** The Ampere current a push leaves in its buffer. *)
Definition ampere_current (Jamp : Arr3 MultiFab) (w : World) : Arr3 MultiFab :=
  Arr3_map (fun Ji => with_fabdata Ji (MultiFab_FillBoundary ext 0 Ji))
    (overwrite3 Jamp
       (fdtd_CalculateCurrentAmpere ext 0 Jamp (Bfield w 0) (edge_lengths w 0))).

(** The data flow of one field push on level 0, from the buffers [Pe],
    [Jamp], [Jext], [Bext] found at level 0. *)
Definition FieldPush_flow (dt : R) (dt_type : DtType) (ng : IntVect)
    (nodal_sync : option bool) (w : World)
    (Pe : MultiFab) (Jamp Jext Bext : Arr3 MultiFab) : World :=
  fillB_step ng nodal_sync
    (evolveB_step dt dt_type
       (fillE_step ng nodal_sync
          (solve_step true Pe (ampere_current Jamp w) Jext Bext
             (ampere_step Jamp w)))).

Lemma upd_upd {A} (f : nat -> A) n a b : upd (upd f n a) n b = upd f n b.
Proof.
  apply functional_extensionality. intros l. unfold upd.
  destruct (Nat.eqb l n); reflexivity.
Qed.

Lemma CalculateCurrentAmpere_lev_single {B} (k : unit -> M B) w Jx Jy Jz :
  nth_error (current_fp_ampere (buffers (hybrid w))) 0 = Some (Some Jx, Some Jy, Some Jz) ->
  bind (CalculateCurrentAmpere_lev ext 0) k w = k tt (ampere_step (Jx, Jy, Jz) w).
Proof.
  intros HJ.
  unfold CalculateCurrentAmpere_lev, assign_level_comp.
  cbn [for_range].
  repeat run_step.
  unfold ampere_step. norm_world. norm_arr.
  rewrite <- !app_assoc. cbn [app].
  reflexivity.
Qed.

Lemma HybridPICSolveE_lev_single {B} (k : unit -> M B) incl w Pe Jamp Jext Bext :
  nth_error (electron_pressure_fp (buffers (hybrid w))) 0 = Some (Some Pe) ->
  nth_error (current_fp_ampere (buffers (hybrid w))) 0 = Some (Arr3_map Some Jamp) ->
  nth_error (current_fp_external (buffers (hybrid w))) 0 = Some (Arr3_map Some Jext) ->
  nth_error (bfield_fp_external (buffers (hybrid w))) 0 = Some (Arr3_map Some Bext) ->
  bind (HybridPICSolveE_lev ext 0 incl) k w = k tt (solve_step incl Pe Jamp Jext Bext w).
Proof.
  intros HPe HJ HJe HBe.
  destruct Jamp as [[Jx Jy] Jz], Jext as [[Jex Jey] Jez], Bext as [[Bex Bey] Bez].
  unfold Arr3_map in HJ, HJe, HBe. cbn in HJ, HJe, HBe.
  unfold HybridPICSolveE_lev, HybridPICSolveE_patch. cbn [Nat.ltb Nat.leb].
  repeat run_step.
  unfold solve_step. norm_world. norm_arr.
  rewrite upd_upd, <- !app_assoc. cbn [app upd Nat.eqb].
  reflexivity.
Qed.

Lemma FieldPush_single_level dt dt_type ng nodal_sync w Pe Jx Jy Jz Jext Bext :
  finestLevel w = 0%nat ->
  nth_error (electron_pressure_fp (buffers (hybrid w))) 0 = Some (Some Pe) ->
  nth_error (current_fp_ampere (buffers (hybrid w))) 0 = Some (Some Jx, Some Jy, Some Jz) ->
  nth_error (current_fp_external (buffers (hybrid w))) 0 = Some (Arr3_map Some Jext) ->
  nth_error (bfield_fp_external (buffers (hybrid w))) 0 = Some (Arr3_map Some Bext) ->
  FieldPush ext dt dt_type ng nodal_sync w
  = Ok tt (FieldPush_flow dt dt_type ng nodal_sync w Pe (Jx, Jy, Jz) Jext Bext).
Proof.
  intros Hfin HPe HJ HJe HBe.
  unfold FieldPush, CalculateCurrentAmpere, HybridPICSolveE.
  rewrite (for_levels_single _ _ _ Hfin).
  rewrite (CalculateCurrentAmpere_lev_single _ _ _ _ _ HJ).
  rewrite (for_levels_single _ _ (ampere_step (Jx, Jy, Jz) w) Hfin).
  erewrite (HybridPICSolveE_lev_single _ true (ampere_step (Jx, Jy, Jz) w) Pe
              (ampere_current (Jx, Jy, Jz) w) Jext Bext);
    [ | exact HPe
      | unfold ampere_step, ampere_current; norm_world;
        eapply nth_error_list_set_eq; exact HJ
      | exact HJe | exact HBe ].
  reflexivity.
Qed.

(** *** The frame of the field push and of the Runge-Kutta sub-cycle *)

Ltac kf_step :=
  cbv beta;
  lazymatch goal with
  | |- keeps_from _ (bind get _) => apply kf_bind_get; intros ? ?
  | |- keeps_from _ (bind get_buffers _) => apply kf_bind_get_buffers; intros ? ?
  | |- keeps_from _ (bind _ _) => apply kf_bind; [|intros ?]
  | |- keeps_from _ (ret _) => apply kf_ret
  | |- keeps_from _ fault => apply kf_fault
  | |- keeps_from _ (amrex_Abort _) => apply kf_abort
  | |- keeps_from _ (deref3 _) => apply kf_deref3
  | |- keeps_from _ (at_level _ _) => apply kf_at_level
  | |- keeps_from _ (deref _) => apply kf_deref
  | |- keeps_from _ (emit _) => apply kf_emit
  | |- keeps_from _ (modify (fun w => set_Efield w _)) => apply kf_set_Efield
  | |- keeps_from _ (modify (fun w => set_Bfield w _)) => apply kf_set_Bfield
  | |- keeps_from _ (assign_level_comp current_fp_ampere _ _ _ _) =>
      apply kf_assign_ampere
  | |- keeps_from _ (put_buffers (set_current_fp_ampere _ _)) =>
      apply kf_put_ampere; assumption
  | |- keeps_from _ (for_levels _) => apply kf_for_levels; intros ?
  | |- keeps_from _ (for_range _ _ _) => apply kf_for_range; intros ?
  end.

Lemma kf_CalculateCurrentAmpere_lev w0 lev :
  keeps_from w0 (CalculateCurrentAmpere_lev ext lev).
Proof. unfold CalculateCurrentAmpere_lev. repeat kf_step. Qed.

Lemma kf_HybridPICSolveE_patch w0 lev patch_type incl :
  keeps_from w0 (HybridPICSolveE_patch ext lev patch_type incl).
Proof. unfold HybridPICSolveE_patch. repeat kf_step. Qed.

Lemma kf_HybridPICSolveE_lev w0 lev incl :
  keeps_from w0 (HybridPICSolveE_lev ext lev incl).
Proof.
  unfold HybridPICSolveE_lev.
  apply kf_bind; [apply kf_HybridPICSolveE_patch | intros _].
  destruct (0 <? lev)%nat; repeat kf_step.
Qed.

Lemma kf_FieldPush w0 dt dt_type ng nodal_sync :
  keeps_from w0 (FieldPush ext dt dt_type ng nodal_sync).
Proof.
  unfold FieldPush, CalculateCurrentAmpere, HybridPICSolveE.
  apply kf_bind; [apply kf_for_levels; intros; apply kf_CalculateCurrentAmpere_lev|].
  intros _.
  apply kf_bind; [apply kf_for_levels; intros; apply kf_HybridPICSolveE_lev|].
  intros _. repeat kf_step.
Qed.

Lemma kf_BfieldEvolveRK_lev w0 dt lev dt_type ng nodal_sync :
  keeps_from w0 (BfieldEvolveRK_lev ext dt lev dt_type ng nodal_sync).
Proof.
  unfold BfieldEvolveRK_lev, put_Bfield_lev. cbv zeta.
  repeat first [ apply kf_FieldPush | apply kf_set_Bfield_const | kf_step ].
Qed.

Definition layout (mf : MultiFab) :=
  (boxArray mf, DistributionMap mf, nComp mf, nGrowVect mf).

Lemma MF_region_layout (a b : MultiFab) ng n p :
  layout a = layout b -> MF_region a ng n p = MF_region b ng n p.
Proof.
  unfold layout, MF_region, ixType. intros H. injection H as H1 _ _ _.
  rewrite H1. reflexivity.
Qed.

Lemma layout_overwrite3 (a : Arr3 MultiFab) (d : Arr3 FabData) ii :
  layout (Arr3_get (overwrite3 a d) ii) = layout (Arr3_get a ii).
Proof. destruct ii as [|[|ii]]; reflexivity. Qed.

Lemma nth_error_list_set_0 {A} (l : list A) (x v : A) :
  nth_error l 0 = Some x -> nth_error (list_set l 0 v) 0 = Some v.
Proof. apply nth_error_list_set_eq. Qed.

(** On a single level with the buffers of level 0 allocated, the field
    push returns; it keeps the frame, the allocation and the layout of B. *)
Lemma FieldPush_returns dt dt_type ng nodal_sync w :
  finestLevel w = 0%nat ->
  push_ready (buffers (hybrid w)) 0 = true ->
  exists w',
    FieldPush ext dt dt_type ng nodal_sync w = Ok tt w' /\
    frame_of w' = frame_of w /\
    push_ready (buffers (hybrid w')) 0 = true /\
    (forall lev ii, layout (Arr3_get (Bfield w' lev) ii)
                    = layout (Arr3_get (Bfield w lev) ii)) /\
    log w' = (log w ++ FieldPush_events dt dt_type ng nodal_sync)%list.
Proof.
  intros Hfin Hr.
  destruct (push_ready_inv _ _ Hr)
    as (Pe & Jx & Jy & Jz & Jex & Jey & Jez & Bex & Bey & Bez & H1 & H2 & H3 & H4).
  pose proof (FieldPush_single_level dt dt_type ng nodal_sync w Pe Jx Jy Jz
                (Jex, Jey, Jez) (Bex, Bey, Bez) Hfin H1 H2 H3 H4) as Hp.
  eexists. split; [exact Hp|].
  split; [|split; [|split]].
  - pose proof (kf_FieldPush w dt dt_type ng nodal_sync w eq_refl) as Hk.
    rewrite Hp in Hk. exact Hk.
  - unfold push_ready, FieldPush_flow.
    cbn [hybrid buffers fillB_step evolveB_step fillE_step solve_step ampere_step
         set_buffers set_current_fp_ampere electron_pressure_fp current_fp_ampere
         current_fp_external bfield_fp_external].
    rewrite H1, H3, H4, (nth_error_list_set_0 _ _ _ H2). reflexivity.
  - intros lev ii.
    unfold FieldPush_flow.
    cbn [Bfield fillB_step]. rewrite layout_overwrite3.
    cbn [Bfield evolveB_step]. rewrite layout_overwrite3.
    reflexivity.
  - unfold FieldPush_flow, FieldPush_events.
    cbn [log fillB_step evolveB_step fillE_step solve_step ampere_step].
    rewrite <- !app_assoc. reflexivity.
Qed.

(** *** The Runge-Kutta sub-cycle *)

(** The four pushes of a run from [w]: (dt/2) from [w]; (dt/2) from the
    result, that is from [B_old + K0]; (dt) from [B_old + K1]; (dt/2) from
    [B_old + K2]. *)
Definition RK_stages (dt : R) (dt_type : DtType) (ng : IntVect)
    (nodal_sync : option bool) (w : World) (s : RK_run) : Prop :=
  FieldPush ext (0.5 * dt) dt_type ng nodal_sync w = Ok tt (out1 s) /\
  FieldPush ext (0.5 * dt) dt_type ng nodal_sync (out1 s) = Ok tt (out2 s) /\
  in3 s = with_B0 (out2 s)
            (Arr3_map3 (restart_from ng) (Bfield (out2 s) 0) (Bfield w 0) (RK_K1 w s)) /\
  FieldPush ext dt dt_type ng nodal_sync (in3 s) = Ok tt (out3 s) /\
  in4 s = with_B0 (out3 s)
            (Arr3_map3 (restart_from ng) (Bfield (out3 s) 0) (Bfield w 0) (RK_K2 w s)) /\
  FieldPush ext (0.5 * dt) dt_type ng nodal_sync (in4 s) = Ok tt (out4 s).

(** The weighted sum the finalize step stores, in the captured deltas. *)
Definition RK_sum (K0 K1 K2 K3 : Delta) : Delta :=
  fun n p => (1 / 3 * (K0 n p + 2 * K1 n p + K2 n p + K3 n p))%R.

Definition RK_final (ng : IntVect) (w : World) (s : RK_run) : Arr3 MultiFab :=
  Arr3_map3 (restart_from ng) (Bfield (out4 s) 0) (Bfield w 0)
    (Arr3_map2 (fun k01 k23 => RK_sum (fst k01) (snd k01) (fst k23) (snd k23))
       (Arr3_map2 pair (RK_K0 w s) (RK_K1 w s))
       (Arr3_map2 pair (RK_K2 w s) (RK_K3 w s))).

Lemma MF_region_boxArray (a b : MultiFab) ng n p :
  boxArray a = boxArray b -> MF_region a ng n p = MF_region b ng n p.
Proof. unfold MF_region, ixType. intros ->. reflexivity. Qed.

Lemma layout_boxArray (a b : MultiFab) : layout a = layout b -> boxArray a = boxArray b.
Proof. unfold layout. intros H. injection H as H _ _ _. exact H. Qed.

Lemma MultiFab_ext (a : MultiFab) (d1 d2 : FabData) :
  (forall n p c, d1 n p c = d2 n p c) -> with_fabdata a d1 = with_fabdata a d2.
Proof.
  intros H. unfold with_fabdata. f_equal.
  apply functional_extensionality. intros n.
  apply functional_extensionality. intros p.
  apply functional_extensionality. intros c. apply H.
Qed.

(** The arithmetic between the pushes, one component at a time: [B0] is
    the component at entry and [B1] .. [B4] are what the four pushes leave. *)
Definition rk_B_old (ng : IntVect) (B0 : MultiFab) : MultiFab :=
  MultiFab_Copy (MultiFab_new ext (boxArray B0) (DistributionMap B0) 1 (nGrowVect B0))
    B0 0 0 ng.
Definition rk_K_init (B0 : MultiFab) : MultiFab :=
  MultiFab_setVal (MultiFab_new ext (boxArray B0) (DistributionMap B0) 2 (nGrowVect B0))
    0%R.
Definition rk_K_step1 (ng : IntVect) (B0 B1 : MultiFab) : MultiFab :=
  MultiFab_LinComb (rk_K_init B0) 1%R B1 0 (-1)%R (rk_B_old ng B0) 0 0 ng.
Definition rk_B_step2 (ng : IntVect) (B0 B1 B2 : MultiFab) : MultiFab :=
  MultiFab_Subtract B2 (rk_K_step1 ng B0 B1) 0 0 ng.
Definition rk_K_step2 (ng : IntVect) (B0 B1 B2 : MultiFab) : MultiFab :=
  MultiFab_LinComb (rk_K_step1 ng B0 B1) 1%R (rk_B_step2 ng B0 B1 B2) 0 (-1)%R
    (rk_B_old ng B0) 0 1 ng.
Definition rk_B_step3 (ng : IntVect) (B0 B1 B2 B3 : MultiFab) : MultiFab :=
  MultiFab_Subtract B3 (rk_K_step2 ng B0 B1 B2) 1 0 ng.
Definition rk_B_final (ng : IntVect) (B0 B1 B2 B4 : MultiFab) : MultiFab :=
  let B := MultiFab_Subtract B4 (rk_B_old ng B0) 0 0 ng in
  let K := MultiFab_Add (rk_K_step2 ng B0 B1 B2) B 0 0 ng in
  let K := MultiFab_LinComb K 1%R K 0 2%R K 1 0 ng in
  MultiFab_LinComb B 1%R (rk_B_old ng B0) 0 (1 / 3)%R K 0 0 ng.

Definition Arr3_map4 {A B C D E} (f : A -> B -> C -> D -> E)
    (a : Arr3 A) (b : Arr3 B) (c : Arr3 C) (d : Arr3 D) : Arr3 E :=
  (f (Arr3_x a) (Arr3_x b) (Arr3_x c) (Arr3_x d),
   f (Arr3_y a) (Arr3_y b) (Arr3_y c) (Arr3_y d),
   f (Arr3_z a) (Arr3_z b) (Arr3_z c) (Arr3_z d)).

(** The sub-cycle as the four pushes and the arithmetic between them. *)
Lemma BfieldEvolveRK_lev_unfold dt dt_type ng nodal_sync w w1 w2 w3 w4 :
  FieldPush ext (0.5 * dt) dt_type ng nodal_sync w = Ok tt w1 ->
  FieldPush ext (0.5 * dt) dt_type ng nodal_sync w1 = Ok tt w2 ->
  FieldPush ext dt dt_type ng nodal_sync
    (with_B0 w2 (Arr3_map3 (rk_B_step2 ng) (Bfield w 0) (Bfield w1 0) (Bfield w2 0)))
  = Ok tt w3 ->
  FieldPush ext (0.5 * dt) dt_type ng nodal_sync
    (with_B0 w3 (Arr3_map4 (rk_B_step3 ng) (Bfield w 0) (Bfield w1 0) (Bfield w2 0)
                   (Bfield w3 0)))
  = Ok tt w4 ->
  BfieldEvolveRK_lev ext dt 0 dt_type ng nodal_sync w
  = Ok tt (with_B0 w4 (Arr3_map4 (rk_B_final ng) (Bfield w 0) (Bfield w1 0)
                         (Bfield w2 0) (Bfield w4 0))).
Proof.
  intros Hp1 Hp2 Hp3 Hp4.
  unfold BfieldEvolveRK_lev, put_Bfield_lev.
  rewrite bind_get. cbv zeta.
  rewrite (bind_Ok _ _ _ _ _ Hp1), bind_get.
  rewrite (bind_Ok _ _ _ _ _ Hp2), bind_get.
  rewrite bind_modify.
  match goal with
  | |- bind _ _ ?i = _ =>
      change i with (with_B0 w2 (Arr3_map3 (rk_B_step2 ng) (Bfield w 0)
                                   (Bfield w1 0) (Bfield w2 0)))
  end.
  rewrite (bind_Ok _ _ _ _ _ Hp3), bind_get.
  rewrite bind_modify.
  match goal with
  | |- bind _ _ ?i = _ =>
      change i with (with_B0 w3 (Arr3_map4 (rk_B_step3 ng) (Bfield w 0)
                                   (Bfield w1 0) (Bfield w2 0) (Bfield w3 0)))
  end.
  rewrite (bind_Ok _ _ _ _ _ Hp4), bind_get.
  reflexivity.
Qed.

(** Rewrites the region of a field with the box array of [B0] to the
    region of [B0], then splits on whether the cell is in it. *)
Ltac rk_pointwise B0 ng n p c :=
  repeat match goal with
         | |- context [ MF_region ?X ng n p ] =>
             lazymatch X with
             | B0 => fail
             | _ => rewrite (MF_region_boxArray X B0 ng n p)
                      by first [ reflexivity | assumption ]
             end
         end;
  destruct (MF_region B0 ng n p); cbn [andb]; [|reflexivity];
  let Ec := fresh "Ec" in
  destruct (Nat.eqb c 0) eqn:Ec; [|reflexivity];
  apply Nat.eqb_eq in Ec; subst c;
  unfold stage_delta, no_delta; cbn [Nat.eqb]; try ring.

Ltac rk_unfold :=
  unfold rk_B_final, rk_B_step3, rk_K_step2, rk_B_step2, rk_K_step1, rk_K_init,
    rk_B_old, MultiFab_Subtract, MultiFab_LinComb, MultiFab_Add, MultiFab_Copy,
    MultiFab_setVal, MultiFab_new, restart_from;
  cbv zeta.

Lemma with_fabdata_twice (a : MultiFab) (d1 d2 : FabData) :
  with_fabdata (with_fabdata a d1) d2 = with_fabdata a d2.
Proof. reflexivity. Qed.

Lemma rk_B_step2_spec ng B0 B1 B2 :
  boxArray B2 = boxArray B0 ->
  rk_B_step2 ng B0 B1 B2
  = restart_from ng B2 B0 (stage_delta B2 B0 (stage_delta B1 B0 no_delta)).
Proof.
  intros H2. rk_unfold. apply MultiFab_ext. intros n p c.
  cbn [fabdata with_fabdata].
  rk_pointwise B0 ng n p c.
Qed.

Lemma rk_B_step3_spec ng B0 B1 B2 B3 :
  boxArray B2 = boxArray B0 ->
  boxArray B3 = boxArray B0 ->
  rk_B_step3 ng B0 B1 B2 B3
  = restart_from ng B3 B0
      (stage_delta B3 B0 (stage_delta B2 B0 (stage_delta B1 B0 no_delta))).
Proof.
  intros H2 H3. rk_unfold. apply MultiFab_ext. intros n p c.
  cbn [fabdata with_fabdata].
  rk_pointwise B0 ng n p c.
Qed.

Lemma rk_B_final_spec ng B0 B1 B2 B3 B4 :
  boxArray B2 = boxArray B0 ->
  boxArray B4 = boxArray B0 ->
  let K0 := stage_delta B1 B0 no_delta in
  let K1 := stage_delta B2 B0 K0 in
  let K2 := stage_delta B3 B0 K1 in
  let K3 := stage_delta B4 B0 K2 in
  rk_B_final ng B0 B1 B2 B4 = restart_from ng B4 B0 (RK_sum K0 K1 K2 K3).
Proof.
  intros H2 H4 K0 K1 K2 K3. subst K0 K1 K2 K3.
  rk_unfold. rewrite with_fabdata_twice. apply MultiFab_ext. intros n p c.
  cbn [fabdata with_fabdata].
  unfold RK_sum.
  rk_pointwise B0 ng n p c.
Qed.

Lemma with_B0_facts w B :
  finestLevel (with_B0 w B) = finestLevel w /\
  buffers (hybrid (with_B0 w B)) = buffers (hybrid w) /\
  frame_of (with_B0 w B) = frame_of w /\
  Bfield (with_B0 w B) 0 = B.
Proof. repeat split. Qed.

Lemma layout_restart_from ng a o k : layout (restart_from ng a o k) = layout a.
Proof. reflexivity. Qed.

(** On a single level with the buffers of level 0 allocated, the sub-cycle
    runs its four pushes, each from the field the spec names, and returns
    [B_old] plus the weighted sum of the captured deltas. *)
Lemma BfieldEvolveRK_lev_stages dt dt_type ng nodal_sync w :
  finestLevel w = 0%nat ->
  push_ready (buffers (hybrid w)) 0 = true ->
  exists s : RK_run,
    RK_stages dt dt_type ng nodal_sync w s /\
    BfieldEvolveRK_lev ext dt 0 dt_type ng nodal_sync w
    = Ok tt (with_B0 (out4 s) (RK_final ng w s)) /\
    frame_of (out1 s) = frame_of w /\ frame_of (in3 s) = frame_of w /\
    frame_of (in4 s) = frame_of w /\ frame_of (out4 s) = frame_of w /\
    (forall ii, boxArray (Arr3_get (Bfield (out4 s) 0) ii)
                = boxArray (Arr3_get (Bfield w 0) ii)).
Proof.
  intros Hfin Hr.
  destruct (FieldPush_returns (0.5 * dt) dt_type ng nodal_sync w Hfin Hr)
    as (w1 & Hp1 & Hf1 & Hr1 & Hl1 & _).
  assert (Hfin1 : finestLevel w1 = 0%nat).
  { unfold frame_of, world_frame in Hf1. congruence. }
  destruct (FieldPush_returns (0.5 * dt) dt_type ng nodal_sync w1 Hfin1 Hr1)
    as (w2 & Hp2 & Hf2 & Hr2 & Hl2 & _).
  assert (Hfin2 : finestLevel w2 = 0%nat).
  { unfold frame_of, world_frame in Hf2. congruence. }
  assert (Hb1 : forall ii, boxArray (Arr3_get (Bfield w1 0) ii)
                           = boxArray (Arr3_get (Bfield w 0) ii)).
  { intros ii. apply layout_boxArray, Hl1. }
  assert (Hb2 : forall ii, boxArray (Arr3_get (Bfield w2 0) ii)
                           = boxArray (Arr3_get (Bfield w 0) ii)).
  { intros ii. rewrite <- Hb1. apply layout_boxArray, Hl2. }
  set (i3 := with_B0 w2 (Arr3_map3 (rk_B_step2 ng) (Bfield w 0) (Bfield w1 0)
                           (Bfield w2 0))).
  destruct (FieldPush_returns dt dt_type ng nodal_sync i3 Hfin2 Hr2)
    as (w3 & Hp3 & Hf3 & Hr3 & Hl3 & _).
  assert (Hfin3 : finestLevel w3 = 0%nat).
  { unfold frame_of, world_frame in Hf3. cbn in Hf3. congruence. }
  assert (Hb3 : forall ii, boxArray (Arr3_get (Bfield w3 0) ii)
                           = boxArray (Arr3_get (Bfield w 0) ii)).
  { intros ii. rewrite <- Hb2.
    rewrite (layout_boxArray _ _ (Hl3 0%nat ii)).
    destruct ii as [|[|ii]]; reflexivity. }
  set (i4 := with_B0 w3 (Arr3_map4 (rk_B_step3 ng) (Bfield w 0) (Bfield w1 0)
                           (Bfield w2 0) (Bfield w3 0))).
  destruct (FieldPush_returns (0.5 * dt) dt_type ng nodal_sync i4 Hfin3 Hr3)
    as (w4 & Hp4 & Hf4 & Hr4 & Hl4 & _).
  assert (Hb4 : forall ii, boxArray (Arr3_get (Bfield w4 0) ii)
                           = boxArray (Arr3_get (Bfield w 0) ii)).
  { intros ii. rewrite <- Hb3.
    rewrite (layout_boxArray _ _ (Hl4 0%nat ii)).
    destruct ii as [|[|ii]]; reflexivity. }
  pose (s := {| out1 := w1; out2 := w2; in3 := i3; out3 := w3; in4 := i4;
                out4 := w4 |}).
  assert (E3 : Arr3_map3 (rk_B_step2 ng) (Bfield w 0) (Bfield w1 0) (Bfield w2 0)
               = Arr3_map3 (restart_from ng) (Bfield w2 0) (Bfield w 0) (RK_K1 w s)).
  { unfold Arr3_map3, RK_K1, RK_K0, Arr3_map2, s. cbn [out1 out2 Arr3_x Arr3_y Arr3_z fst snd].
    rewrite !rk_B_step2_spec by (first [apply (Hb2 0%nat) | apply (Hb2 1%nat) | apply (Hb2 2%nat)]).
    reflexivity. }
  assert (E4 : Arr3_map4 (rk_B_step3 ng) (Bfield w 0) (Bfield w1 0) (Bfield w2 0)
                 (Bfield w3 0)
               = Arr3_map3 (restart_from ng) (Bfield w3 0) (Bfield w 0) (RK_K2 w s)).
  { unfold Arr3_map4, Arr3_map3, RK_K2, RK_K1, RK_K0, Arr3_map2, s.
    cbn [out1 out2 out3 Arr3_x Arr3_y Arr3_z fst snd].
    rewrite !rk_B_step3_spec
      by (first [apply (Hb2 0%nat) | apply (Hb2 1%nat) | apply (Hb2 2%nat)
                | apply (Hb3 0%nat) | apply (Hb3 1%nat) | apply (Hb3 2%nat)]).
    reflexivity. }
  assert (E5 : Arr3_map4 (rk_B_final ng) (Bfield w 0) (Bfield w1 0) (Bfield w2 0)
                 (Bfield w4 0)
               = RK_final ng w s).
  { unfold Arr3_map4, RK_final, Arr3_map3, RK_K3, RK_K2, RK_K1, RK_K0, Arr3_map2, s.
    cbn [out1 out2 out3 out4 Arr3_x Arr3_y Arr3_z fst snd].
    rewrite (rk_B_final_spec ng _ _ _ (Arr3_x (Bfield w3 0)))
      by (first [apply (Hb2 0%nat) | apply (Hb4 0%nat)]).
    rewrite (rk_B_final_spec ng _ _ _ (Arr3_y (Bfield w3 0)))
      by (first [apply (Hb2 1%nat) | apply (Hb4 1%nat)]).
    rewrite (rk_B_final_spec ng _ _ _ (Arr3_z (Bfield w3 0)))
      by (first [apply (Hb2 2%nat) | apply (Hb4 2%nat)]).
    reflexivity. }
  exists s.
  change (out1 s) with w1. change (in3 s) with i3.
  change (in4 s) with i4. change (out4 s) with w4.
  assert (Hfi3 : frame_of i3 = frame_of w).
  { transitivity (frame_of w2); [reflexivity|]. rewrite Hf2. exact Hf1. }
  assert (Hfi4 : frame_of i4 = frame_of w).
  { transitivity (frame_of w3); [reflexivity|]. rewrite Hf3. exact Hfi3. }
  split; [|split; [|repeat split]].
  - unfold RK_stages.
    change (out1 s) with w1. change (out2 s) with w2. change (in3 s) with i3.
    change (out3 s) with w3. change (in4 s) with i4. change (out4 s) with w4.
    split; [exact Hp1|]. split; [exact Hp2|].
    split; [rewrite <- E3; reflexivity|].
    split; [exact Hp3|].
    split; [rewrite <- E4; reflexivity|].
    exact Hp4.
  - rewrite <- E5.
    apply (BfieldEvolveRK_lev_unfold dt dt_type ng nodal_sync w w1 w2 w3 w4
             Hp1 Hp2 Hp3 Hp4).
  - exact Hf1.
  - exact Hfi3.
  - exact Hfi4.
  - rewrite Hf4. exact Hfi4.
  - exact Hb4.
Qed.

Lemma Arr3_get_map2 {A B C} (f : A -> B -> C) a b ii :
  Arr3_get (Arr3_map2 f a b) ii = f (Arr3_get a ii) (Arr3_get b ii).
Proof. destruct ii as [|[|ii]]; reflexivity. Qed.

Lemma Arr3_get_map3 {A B C D} (f : A -> B -> C -> D) a b c ii :
  Arr3_get (Arr3_map3 f a b c) ii = f (Arr3_get a ii) (Arr3_get b ii) (Arr3_get c ii).
Proof. destruct ii as [|[|ii]]; reflexivity. Qed.

(** The value of component [ii] of the level-0 B field at a cell. *)
Definition Bval (w : World) (ii : nat) : Delta :=
  fun n p => fabdata (Arr3_get (Bfield w 0) ii) n p 0%nat.

(** The delta of stage [j] of a run, component [ii]. *)
Definition K_of (j : nat) (w : World) (s : RK_run) (ii : nat) : Delta :=
  match j with
  | 0%nat => Arr3_get (RK_K0 w s) ii
  | 1%nat => Arr3_get (RK_K1 w s) ii
  | 2%nat => Arr3_get (RK_K2 w s) ii
  | _ => Arr3_get (RK_K3 w s) ii
  end.

Lemma K_of_0 w s ii n p : K_of 0 w s ii n p = (Bval (out1 s) ii n p - Bval w ii n p - 0)%R.
Proof. unfold K_of, RK_K0. rewrite Arr3_get_map2. reflexivity. Qed.

Lemma K_of_1 w s ii n p :
  K_of 1 w s ii n p = (Bval (out2 s) ii n p - Bval w ii n p - K_of 0 w s ii n p)%R.
Proof. unfold K_of, RK_K1. rewrite Arr3_get_map3. reflexivity. Qed.

Lemma K_of_2 w s ii n p :
  K_of 2 w s ii n p = (Bval (out3 s) ii n p - Bval w ii n p - K_of 1 w s ii n p)%R.
Proof. unfold K_of, RK_K2. rewrite Arr3_get_map3. reflexivity. Qed.

Lemma K_of_3 w s ii n p :
  K_of 3 w s ii n p = (Bval (out4 s) ii n p - Bval w ii n p - K_of 2 w s ii n p)%R.
Proof. unfold K_of, RK_K3. rewrite Arr3_get_map3. reflexivity. Qed.

Lemma Bval_restart ng ws w K ii n p :
  MF_region (Arr3_get (Bfield ws 0) ii) ng n p = true ->
  Bval (with_B0 ws (Arr3_map3 (restart_from ng) (Bfield ws 0) (Bfield w 0) K)) ii n p
  = (Bval w ii n p + Arr3_get K ii n p)%R.
Proof.
  intros Hreg. unfold Bval, with_B0. cbn [Bfield set_Bfield upd Nat.eqb].
  rewrite Arr3_get_map3. unfold restart_from. cbn [fabdata with_fabdata].
  rewrite Hreg. reflexivity.
Qed.

(** The value the sub-cycle leaves in a cell the operations act on. *)
Lemma Bval_RK_final ng w s ii n p :
  MF_region (Arr3_get (Bfield (out4 s) 0) ii) ng n p = true ->
  Bval (with_B0 (out4 s) (RK_final ng w s)) ii n p
  = (Bval w ii n p
     + 1 / 3 * (K_of 0 w s ii n p + 2 * K_of 1 w s ii n p
                + K_of 2 w s ii n p + K_of 3 w s ii n p))%R.
Proof.
  intros Hreg. unfold RK_final. rewrite Bval_restart by exact Hreg.
  rewrite !Arr3_get_map2. reflexivity.
Qed.

(** The field push advances B by [h] times a slope [F]; the slope may
    depend on the world the push starts from. *)
Definition affine_push (dt_type : DtType) (ng : IntVect) (nodal_sync : option bool)
    (w : World) (F : World -> nat -> Delta) : Prop :=
  forall h w1 w2,
    frame_of w1 = frame_of w ->
    FieldPush ext h dt_type ng nodal_sync w1 = Ok tt w2 ->
    forall ii n p, Bval w2 ii n p = (Bval w1 ii n p + h * F w1 ii n p)%R.

(** With an affine push, the run is the classical fourth-order Runge-Kutta
    step: the slopes are taken at [B_old], [B_old + dt/2 k1],
    [B_old + dt/2 k2] and [B_old + dt k3], and the result is
    [B_old + dt/6 (k1 + 2 k2 + 2 k3 + k4)]. *)
Lemma RK_stages_classical dt dt_type ng nodal_sync w s F :
  RK_stages dt dt_type ng nodal_sync w s ->
  frame_of (out1 s) = frame_of w -> frame_of (in3 s) = frame_of w ->
  frame_of (in4 s) = frame_of w ->
  affine_push dt_type ng nodal_sync w F ->
  forall ii n p,
    MF_region (Arr3_get (Bfield (out2 s) 0) ii) ng n p = true ->
    MF_region (Arr3_get (Bfield (out3 s) 0) ii) ng n p = true ->
    let k1 := F w ii n p in
    let k2 := F (out1 s) ii n p in
    let k3 := F (in3 s) ii n p in
    let k4 := F (in4 s) ii n p in
    Bval (out1 s) ii n p = (Bval w ii n p + dt / 2 * k1)%R /\
    Bval (in3 s) ii n p = (Bval w ii n p + dt / 2 * k2)%R /\
    Bval (in4 s) ii n p = (Bval w ii n p + dt * k3)%R /\
    K_of 0 w s ii n p = (dt / 2 * k1)%R /\ K_of 1 w s ii n p = (dt / 2 * k2)%R /\
    K_of 2 w s ii n p = (dt * k3)%R /\ K_of 3 w s ii n p = (dt / 2 * k4)%R.
Proof.
  intros (Hp1 & Hp2 & Hi3 & Hp3 & Hi4 & Hp4) Hf1 Hf3 Hf4 HF ii n p Hr2 Hr3
         k1 k2 k3 k4.
  pose proof (HF _ _ _ eq_refl Hp1 ii n p) as E1.
  pose proof (HF _ _ _ Hf1 Hp2 ii n p) as E2.
  pose proof (HF _ _ _ Hf3 Hp3 ii n p) as E3.
  pose proof (HF _ _ _ Hf4 Hp4 ii n p) as E4.
  assert (B3 : Bval (in3 s) ii n p = (Bval w ii n p + K_of 1 w s ii n p)%R).
  { rewrite Hi3. apply Bval_restart. exact Hr2. }
  assert (B4 : Bval (in4 s) ii n p = (Bval w ii n p + K_of 2 w s ii n p)%R).
  { rewrite Hi4. apply Bval_restart. exact Hr3. }
  pose proof (K_of_0 w s ii n p) as D0. pose proof (K_of_1 w s ii n p) as D1.
  pose proof (K_of_2 w s ii n p) as D2. pose proof (K_of_3 w s ii n p) as D3.
  fold k1 in E1. fold k2 in E2. fold k3 in E3. fold k4 in E4.
  repeat split; lra.
Qed.

Lemma for_levels_single_run (body : nat -> M unit) w w' :
  finestLevel w = 0%nat -> body 0%nat w = Ok tt w' -> for_levels body w = Ok tt w'.
Proof.
  intros Hfin Hb. unfold for_levels. rewrite bind_get, Hfin. cbn [for_range].
  rewrite (bind_Ok _ _ _ _ _ Hb). reflexivity.
Qed.

(** C2 (as amended). On a single-level hierarchy with the model's level-0
    buffers allocated, every field push returns normally after exactly this
    sequence: (1) the Ampere current is computed from the current B and
    boundary-filled, (2) E is solved from that current, the ion current, B,
    the electron pressure and the external fields with the resistivity term
    included, and the E boundary condition applied, (3) the E boundary is
    filled, (4) B is advanced by the Faraday stencil with the E just solved
    and the given [dt], (5) the B boundary is filled. *)
Theorem FieldPush_single_level_sequence :
  forall (w : World) (dt : R) (dt_type : DtType) (ng : IntVect)
         (nodal_sync : option bool),
    finestLevel w = 0%nat ->
    push_ready (buffers (hybrid w)) 0 = true ->
    exists (Pe : MultiFab) (Jamp Jext Bext : Arr3 MultiFab),
      nth_error (electron_pressure_fp (buffers (hybrid w))) 0 = Some (Some Pe) /\
      nth_error (current_fp_ampere (buffers (hybrid w))) 0 = Some (Arr3_map Some Jamp) /\
      nth_error (current_fp_external (buffers (hybrid w))) 0 = Some (Arr3_map Some Jext) /\
      nth_error (bfield_fp_external (buffers (hybrid w))) 0 = Some (Arr3_map Some Bext) /\
      FieldPush ext dt dt_type ng nodal_sync w
      = Ok tt (fillB_step ng nodal_sync
                 (evolveB_step dt dt_type
                    (fillE_step ng nodal_sync
                       (solve_step true Pe (ampere_current Jamp w) Jext Bext
                          (ampere_step Jamp w))))) /\
      log (fillB_step ng nodal_sync
             (evolveB_step dt dt_type
                (fillE_step ng nodal_sync
                   (solve_step true Pe (ampere_current Jamp w) Jext Bext
                      (ampere_step Jamp w)))))
      = (log w ++
         [ EvCalculateCurrentAmpere 0; EvFillBoundaryJ 0 0; EvFillBoundaryJ 0 1;
           EvFillBoundaryJ 0 2; EvHybridPICSolveE 0 true;
           EvApplyEfieldBoundary 0 PatchType_fine; EvFillBoundaryE ng nodal_sync;
           EvEvolveB dt dt_type; EvFillBoundaryB ng nodal_sync ])%list.
Proof.
  intros w dt dt_type ng nodal_sync Hfin Hr.
  destruct (push_ready_inv _ _ Hr)
    as (Pe & Jx & Jy & Jz & Jex & Jey & Jez & Bex & Bey & Bez & H1 & H2 & H3 & H4).
  exists Pe, (Jx, Jy, Jz), (Jex, Jey, Jez), (Bex, Bey, Bez).
  split; [exact H1|]. split; [exact H2|]. split; [exact H3|]. split; [exact H4|].
  split.
  - apply (FieldPush_single_level dt dt_type ng nodal_sync w Pe Jx Jy Jz
             (Jex, Jey, Jez) (Bex, Bey, Bez) Hfin H1 H2 H3 H4).
  - cbn [log fillB_step evolveB_step fillE_step solve_step ampere_step].
    rewrite <- !app_assoc. reflexivity.
Qed.

Lemma frame_of_fields w w' :
  frame_of w' = frame_of w ->
  Jfield w' = Jfield w /\ rhofield w' = rhofield w /\ edge_lengths w' = edge_lengths w.
Proof. unfold frame_of, world_frame. intros H. repeat split; congruence. Qed.

(** C9. The Runge-Kutta sub-cycle leaves the ion current, the charge
    density and the edge lengths as they were, however it ends; so does
    every field push started from a world with these fields; and the worlds
    the four pushes of a run start from carry them unmodified.  The frame
    covers every part of the world except the B field, the E field, the
    model's Ampere-current buffer and the log. *)
Theorem BfieldEvolveRK_leaves_J_rho_and_edge_lengths :
  forall (w : World) (dt : R) (lev : nat) (dt_type : DtType) (ng : IntVect)
         (nodal_sync : option bool),
    (let w' := final_world (BfieldEvolveRK_lev ext dt lev dt_type ng nodal_sync w) in
     Jfield w' = Jfield w /\ rhofield w' = rhofield w /\
     edge_lengths w' = edge_lengths w /\ frame_of w' = frame_of w)
    /\
    (let w' := final_world (BfieldEvolveRK ext dt dt_type ng nodal_sync w) in
     Jfield w' = Jfield w /\ rhofield w' = rhofield w /\
     edge_lengths w' = edge_lengths w /\ frame_of w' = frame_of w)
    /\
    (forall (h : R) (w1 : World),
        frame_of w1 = frame_of w ->
        let w2 := final_world (FieldPush ext h dt_type ng nodal_sync w1) in
        Jfield w2 = Jfield w /\ rhofield w2 = rhofield w /\
        edge_lengths w2 = edge_lengths w /\ frame_of w2 = frame_of w)
    /\
    (forall s : RK_run,
        RK_stages dt dt_type ng nodal_sync w s ->
        forall w1, In w1 [w; out1 s; in3 s; in4 s] ->
                   Jfield w1 = Jfield w /\ rhofield w1 = rhofield w /\
                   edge_lengths w1 = edge_lengths w).
Proof.
  intros w dt lev dt_type ng nodal_sync.
  assert (Hpush : forall h w1 w2,
             frame_of w1 = frame_of w ->
             FieldPush ext h dt_type ng nodal_sync w1 = Ok tt w2 ->
             frame_of w2 = frame_of w).
  { intros h w1 w2 Hw1 Hp.
    pose proof (kf_FieldPush w h dt_type ng nodal_sync w1 Hw1) as Hk.
    rewrite Hp in Hk. exact Hk. }
  split; [|split; [|split]].
  - pose proof (kf_BfieldEvolveRK_lev w dt lev dt_type ng nodal_sync w eq_refl) as Hk.
    cbv zeta. destruct (frame_of_fields _ _ Hk) as (H1 & H2 & H3). auto.
  - assert (Hk : keeps_from w (BfieldEvolveRK ext dt dt_type ng nodal_sync)).
    { unfold BfieldEvolveRK. apply kf_for_levels. intros l.
      apply kf_BfieldEvolveRK_lev. }
    specialize (Hk w eq_refl).
    cbv zeta. destruct (frame_of_fields _ _ Hk) as (H1 & H2 & H3). auto.
  - intros h w1 Hw1.
    pose proof (kf_FieldPush w h dt_type ng nodal_sync w1 Hw1) as Hk.
    cbv zeta. destruct (frame_of_fields _ _ Hk) as (H1 & H2 & H3). auto.
  - intros s (Hp1 & Hp2 & Hi3 & Hp3 & Hi4 & Hp4) w1 Hin.
    assert (Hf1 : frame_of (out1 s) = frame_of w) by (eapply Hpush; eauto).
    assert (Hf2 : frame_of (out2 s) = frame_of w) by (eapply Hpush; eauto).
    assert (Hf3 : frame_of (in3 s) = frame_of w) by (rewrite Hi3; exact Hf2).
    assert (Hf3' : frame_of (out3 s) = frame_of w) by (eapply Hpush; eauto).
    assert (Hf4 : frame_of (in4 s) = frame_of w) by (rewrite Hi4; exact Hf3').
    apply frame_of_fields.
    cbn [In] in Hin.
    destruct Hin as [<-|[<-|[<-|[<-|[]]]]]; auto.
Qed.

(** The cells the MultiFab operations act on are the same after every push
    of a run: the pushes keep the layout of B. *)
Lemma RK_stages_regions dt dt_type ng nodal_sync w s ii n p :
  finestLevel w = 0%nat ->
  push_ready (buffers (hybrid w)) 0 = true ->
  RK_stages dt dt_type ng nodal_sync w s ->
  frame_of (out1 s) = frame_of w -> frame_of (in3 s) = frame_of w ->
  MF_region (Arr3_get (Bfield w 0) ii) ng n p = true ->
  MF_region (Arr3_get (Bfield (out2 s) 0) ii) ng n p = true /\
  MF_region (Arr3_get (Bfield (out3 s) 0) ii) ng n p = true /\
  (finestLevel (out1 s) = 0%nat /\ push_ready (buffers (hybrid (out1 s))) 0 = true) /\
  (finestLevel (in3 s) = 0%nat /\ push_ready (buffers (hybrid (in3 s))) 0 = true) /\
  (finestLevel (in4 s) = 0%nat /\ push_ready (buffers (hybrid (in4 s))) 0 = true).
Proof.
  intros Hfin Hr Hst Hf1 Hf3 Hreg.
  destruct Hst as (Hp1 & Hp2 & Hi3 & Hp3 & Hi4 & Hp4).
  assert (Hl : forall h wa wb,
             frame_of wa = frame_of w -> finestLevel wa = 0%nat ->
             push_ready (buffers (hybrid wa)) 0 = true ->
             FieldPush ext h dt_type ng nodal_sync wa = Ok tt wb ->
             boxArray (Arr3_get (Bfield wb 0) ii)
             = boxArray (Arr3_get (Bfield wa 0) ii) /\
             push_ready (buffers (hybrid wb)) 0 = true /\
             finestLevel wb = 0%nat).
  { intros h wa wb Hfa Hfina Hra Hpa.
    destruct (FieldPush_returns h dt_type ng nodal_sync wa Hfina Hra)
      as (wb' & Hpb & Hfb & Hrb & Hlb & _).
    rewrite Hpa in Hpb. injection Hpb as <-.
    split; [apply layout_boxArray, Hlb|]. split; [exact Hrb|].
    unfold frame_of, world_frame in Hfb. congruence. }
  destruct (Hl _ _ _ eq_refl Hfin Hr Hp1) as (L1 & R1 & F1).
  destruct (Hl _ _ _ Hf1 F1 R1 Hp2) as (L2 & R2 & F2).
  assert (Hreg2 : MF_region (Arr3_get (Bfield (out2 s) 0) ii) ng n p = true).
  { rewrite (MF_region_boxArray _ (Arr3_get (Bfield w 0) ii) ng n p)
      by (rewrite L2; exact L1).
    exact Hreg. }
  assert (R3 : push_ready (buffers (hybrid (in3 s))) 0 = true)
    by (rewrite Hi3; exact R2).
  assert (F3 : finestLevel (in3 s) = 0%nat) by (rewrite Hi3; exact F2).
  assert (L3in : boxArray (Arr3_get (Bfield (in3 s) 0) ii)
                 = boxArray (Arr3_get (Bfield (out2 s) 0) ii)).
  { rewrite Hi3. unfold with_B0. cbn [Bfield set_Bfield upd Nat.eqb].
    rewrite Arr3_get_map3. reflexivity. }
  destruct (Hl _ _ _ Hf3 F3 R3 Hp3) as (L3 & R3' & F3').
  assert (Hreg3 : MF_region (Arr3_get (Bfield (out3 s) 0) ii) ng n p = true).
  { rewrite (MF_region_boxArray _ (Arr3_get (Bfield w 0) ii) ng n p)
      by (rewrite L3, L3in, L2; exact L1).
    exact Hreg. }
  split; [exact Hreg2|]. split; [exact Hreg3|].
  split; [split; [exact F1 | exact R1]|].
  split; [split; [exact F3 | exact R3]|].
  rewrite Hi4. split; [exact F3' | exact R3'].
Qed.

(** C1 (as amended). On a single level with the level-0 buffers allocated,
    the sub-cycle runs the four pushes (dt/2 from [B_old], dt/2 from
    [B_old + K0], dt from [B_old + K1], dt/2 from [B_old + K2]) with the
    deltas captured as K0 = B_after - B_old and K(j) = B_after - B_old -
    K(j-1), and in every cell the operations act on it ends with
    [B_new = B_old + (1/3) (K0 + 2 K1 + K2 + K3)].  With slopes k1 .. k4
    such that K0 = dt/2 k1, K1 = dt/2 k2, K2 = dt k3 and K3 = dt/2 k4 this is
    [B_old + dt/3 (0.5 k1 + k2 + k3 + 0.5 k4) = B_old + dt/6 (k1 + 2 k2 + 2 k3
    + k4)]; and when every push advances B by its step times a slope, these
    slopes are the ones of the classical Runge-Kutta step, taken at [B_old],
    [B_old + dt/2 k1], [B_old + dt/2 k2] and [B_old + dt k3]. *)
Theorem BfieldEvolveRK_weighted_sum_of_deltas :
  forall (w : World) (dt : R) (dt_type : DtType) (ng : IntVect)
         (nodal_sync : option bool),
    finestLevel w = 0%nat ->
    push_ready (buffers (hybrid w)) 0 = true ->
    exists (s : RK_run) (wf : World),
      RK_stages dt dt_type ng nodal_sync w s /\
      BfieldEvolveRK_lev ext dt 0 dt_type ng nodal_sync w = Ok tt wf /\
      BfieldEvolveRK ext dt dt_type ng nodal_sync w = Ok tt wf /\
      (forall ii n p,
          MF_region (Arr3_get (Bfield w 0) ii) ng n p = true ->
          let K0 := K_of 0 w s ii n p in
          let K1 := K_of 1 w s ii n p in
          let K2 := K_of 2 w s ii n p in
          let K3 := K_of 3 w s ii n p in
          Bval wf ii n p = (Bval w ii n p + 1 / 3 * (K0 + 2 * K1 + K2 + K3))%R /\
          (forall k1 k2 k3 k4 : R,
              K0 = (dt / 2 * k1)%R -> K1 = (dt / 2 * k2)%R ->
              K2 = (dt * k3)%R -> K3 = (dt / 2 * k4)%R ->
              Bval wf ii n p
              = (Bval w ii n p + dt / 3 * (0.5 * k1 + k2 + k3 + 0.5 * k4))%R /\
              Bval wf ii n p
              = (Bval w ii n p + dt / 6 * (k1 + 2 * k2 + 2 * k3 + k4))%R) /\
          (forall F : World -> nat -> Delta,
              affine_push dt_type ng nodal_sync w F ->
              let k1 := F w ii n p in
              let k2 := F (out1 s) ii n p in
              let k3 := F (in3 s) ii n p in
              let k4 := F (in4 s) ii n p in
              Bval (out1 s) ii n p = (Bval w ii n p + dt / 2 * k1)%R /\
              Bval (in3 s) ii n p = (Bval w ii n p + dt / 2 * k2)%R /\
              Bval (in4 s) ii n p = (Bval w ii n p + dt * k3)%R /\
              Bval wf ii n p
              = (Bval w ii n p + dt / 6 * (k1 + 2 * k2 + 2 * k3 + k4))%R)).
Proof.
  intros w dt dt_type ng nodal_sync Hfin Hr.
  destruct (BfieldEvolveRK_lev_stages dt dt_type ng nodal_sync w Hfin Hr)
    as (s & Hst & Hrun & Hf1 & Hf3 & Hf4 & Hf4' & Hb4).
  exists s, (with_B0 (out4 s) (RK_final ng w s)).
  split; [exact Hst|]. split; [exact Hrun|].
  split; [apply for_levels_single_run; [exact Hfin | exact Hrun]|].
  intros ii n p Hreg K0 K1 K2 K3.
  assert (Hreg4 : MF_region (Arr3_get (Bfield (out4 s) 0) ii) ng n p = true).
  { rewrite (MF_region_boxArray _ _ ng n p (Hb4 ii)). exact Hreg. }
  pose proof (Bval_RK_final ng w s ii n p Hreg4) as Hsum.
  fold K0 K1 K2 K3 in Hsum.
  split; [exact Hsum|]. split.
  - intros k1 k2 k3 k4 E0 E1 E2 E3. rewrite Hsum, E0, E1, E2, E3. split; lra.
  - intros F HF k1 k2 k3 k4.
    destruct (RK_stages_regions dt dt_type ng nodal_sync w s ii n p
                Hfin Hr Hst Hf1 Hf3 Hreg) as (Hreg2 & Hreg3 & _).
    destruct Hst as (Hp1 & Hp2 & Hi3 & Hp3 & Hi4 & Hp4).
    destruct (RK_stages_classical dt dt_type ng nodal_sync w s F
                (conj Hp1 (conj Hp2 (conj Hi3 (conj Hp3 (conj Hi4 Hp4)))))
                Hf1 Hf3 Hf4 HF ii n p Hreg2 Hreg3)
      as (E1 & E3 & E4 & D0 & D1 & D2 & D3).
    fold k1 k2 k3 k4 in E1, E3, E4, D0, D1, D2, D3.
    split; [exact E1|]. split; [exact E3|]. split; [exact E4|].
    rewrite Hsum. unfold K0, K1, K2, K3. rewrite D0, D1, D2, D3. lra.
Qed.

(** *** External current without time dependence *)

Definition xyzt : list string := ["x"; "y"; "z"; "t"].



Lemma fill_from_executor_ext mfx mf l dx lo (f g : R -> R -> R -> R) :
  (forall x y z, f x y z = g x y z) ->
  fill_from_executor bld mfx mf l dx lo f = fill_from_executor bld mfx mf l dx lo g.
Proof.
  intros H. f_equal.
  apply functional_extensionality. intros x.
  apply functional_extensionality. intros y.
  apply functional_extensionality. intros z. apply H.
Qed.


(** An invariant that reads neither the buffers nor the log survives every
    step that writes only those. *)
Definition buffers_blind (I : World -> Prop) : Prop :=
  (forall w ev, I w -> I (add_log w ev)) /\
  (forall w b, I w -> I (set_hybrid w (set_buffers (hybrid w) b))).

Ltac inv_step HI :=
  cbv beta;
  lazymatch goal with
  | |- invariant _ _ (bind get _) => apply inv_bind_get; intros ? ?
  | |- invariant _ _ (bind get_buffers _) => apply inv_bind_get_buffers; intros ? ?
  | |- invariant _ _ (bind _ _) => apply inv_bind; [|intros ?]
  | |- invariant _ _ (ret _) => apply inv_ret
  | |- invariant _ _ fault => apply inv_fault
  | |- invariant _ _ (amrex_Abort _) => apply inv_abort; exact Logic.I
  | |- invariant _ _ (WARPX_ABORT_WITH_MESSAGE _) => apply inv_abort; exact Logic.I
  | |- invariant _ _ (deref3 _) => apply inv_deref3
  | |- invariant _ _ (at_level _ _) => apply inv_deref
  | |- invariant _ _ (deref _) => apply inv_deref
  | |- invariant _ _ (emit _) => apply inv_modify; intros ? ?; apply HI; assumption
  | |- invariant _ _ (Print _) => apply inv_modify; intros ? ?; apply HI; assumption
  | |- invariant _ _ (put_buffers _) =>
      apply inv_modify; intros ? ?; apply HI; assumption
  | |- invariant _ _ (for_range _ _ _) => apply inv_for_range; intros ?
  | |- invariant _ _ (for_levels _) => apply inv_for_levels; intros ?
  | |- invariant _ _ (if ?c then _ else _) => destruct c
  | |- invariant _ _ (match ?c with _ => _ end) => destruct c
  end.

Lemma inv_assign_level_comp Inv E {A} (getv : Buffers -> list (Arr3 A)) setv lev i (v : A) :
  buffers_blind Inv -> invariant Inv E (assign_level_comp getv setv lev i v).
Proof. intros HI. unfold assign_level_comp. repeat inv_step HI. Qed.

Lemma inv_GetCurrentExternal_lev Inv edge lev :
  buffers_blind Inv ->
  invariant Inv (fun _ => True) (GetCurrentExternal_lev bld edge lev).
Proof. intros HI. unfold GetCurrentExternal_lev, eb_arrays. repeat inv_step HI. Qed.

Lemma inv_GetExternalBField_lev Inv edge lev :
  buffers_blind Inv ->
  invariant Inv (fun _ => True) (GetExternalBField_lev bld edge lev).
Proof. intros HI. unfold GetExternalBField_lev, eb_arrays. repeat inv_step HI. Qed.

Lemma inv_ReadExternalBFieldFromFile Inv path edge lev mf F_name F_component :
  buffers_blind Inv ->
  invariant Inv (fun _ => True)
    (ReadExternalBFieldFromFile bld ext path edge lev mf F_name F_component).
Proof. intros HI. unfold ReadExternalBFieldFromFile. repeat inv_step HI. Qed.

Definition J_parsers (w : World) : Arr3 (option Parser) :=
  (Some (makeParser ext (m_Jx_ext_grid_function (params (hybrid w))) xyzt),
   Some (makeParser ext (m_Jy_ext_grid_function (params (hybrid w))) xyzt),
   Some (makeParser ext (m_Jz_ext_grid_function (params (hybrid w))) xyzt)).

Definition compiled_blind (P : Compiled -> Prop) : World -> Prop :=
  fun w => P (compiled (hybrid w)).

Lemma compiled_blind_buffers P : buffers_blind (compiled_blind P).
Proof. split; intros w x H; exact H. Qed.

(** What [InitData] leaves in the parsers and the time-dependence flag. *)
Lemma InitData_compiled w w1 :
  InitData bld ext w = Ok tt w1 ->
  m_J_external_parser (compiled (hybrid w1)) = J_parsers w /\
  m_external_field_has_time_dependence (compiled (hybrid w1))
  = fold_left (fun flag parser =>
                 bool_plus_assign flag (symbols_count (Parser_symbols parser) "t"))
      [ makeParser ext (m_Jx_ext_grid_function (params (hybrid w))) xyzt;
        makeParser ext (m_Jy_ext_grid_function (params (hybrid w))) xyzt;
        makeParser ext (m_Jz_ext_grid_function (params (hybrid w))) xyzt ]
      (m_external_field_has_time_dependence (compiled (hybrid w))).
Proof.
  intros H. unfold InitData in H. rewrite bind_get in H. cbv zeta in H.
  unfold put_compiled in H. rewrite bind_modify in H.
  unfold WARPX_ALWAYS_ASSERT_WITH_MESSAGE in H.
  match type of H with
  | context [ if ?c then ret tt else _ ] => destruct c
  end; [|discriminate H].
  rewrite bind_ret, bind_modify in H.
  match type of H with
  | for_levels ?body ?W = _ =>
      assert (Hb : forall lev,
                 invariant (compiled_blind (fun c => c = compiled (hybrid W)))
                   (fun _ => True) (body lev))
  end.
  { intros lev.
    match goal with
    | |- invariant ?Inv _ _ =>
        assert (HI : buffers_blind Inv) by (apply compiled_blind_buffers)
    end.
    apply inv_bind_get. intros w' Hw'.
    apply inv_bind; [apply inv_GetCurrentExternal_lev; exact HI | intros _].
    apply inv_bind.
    - inv_step HI; [|apply inv_ret].
      apply inv_bind; [inv_step HI|intros _].
      apply inv_GetExternalBField_lev. exact HI.
    - intros _. inv_step HI; [|apply inv_ret].
      apply inv_bind; [inv_step HI|intros _].
      apply inv_bind; [|intros _; inv_step HI].
      apply inv_for_range. intros i.
      apply inv_bind_get_buffers. intros w'' Hw''.
      apply inv_bind; [apply inv_deref|intros mfs].
      apply inv_bind; [apply inv_ReadExternalBFieldFromFile; exact HI|intros mf'].
      apply inv_assign_level_comp. exact HI. }
  match type of H with
  | for_levels ?body ?W = _ =>
      pose proof (inv_for_levels _ _ body Hb W eq_refl) as Hinv
  end.
  rewrite H in Hinv. unfold compiled_blind in Hinv. rewrite Hinv.
  split; reflexivity.
Qed.


(** *** Initialization with an unrecognized external-B style *)

(** The staggering test of [InitData]. *)
Definition appropriate_grids (w : World) : bool :=
  let J_stag := Arr3_map ixType (current_fp w 0) in
  let B_stag := Arr3_map ixType (Bfield w 0) in
  let E_stag := Arr3_map ixType (Efield w 0) in
  yee_staggering bld (Arr3_get E_stag 0) (Arr3_get E_stag 1) (Arr3_get E_stag 2)
                 (Arr3_get B_stag 0) (Arr3_get B_stag 1) (Arr3_get B_stag 2)
  && IntVect_eqb (Arr3_get J_stag 0) (Arr3_get E_stag 0)
  && IntVect_eqb (Arr3_get J_stag 1) (Arr3_get E_stag 1)
  && IntVect_eqb (Arr3_get J_stag 2) (Arr3_get E_stag 2).

(** The external-current buffers of the level are allocated and, with
    embedded boundaries, so are the level's edge lengths. *)
Definition Jext_ready (w : World) (lev : nat) : Prop :=
  is_alloc3 (nth_error (current_fp_external (buffers (hybrid w))) lev) = true /\
  (AMREX_USE_EB bld = true -> is_alloc3 (Some (edge_lengths w lev)) = true).

Lemma GetCurrentExternal_lev_returns edge lev w p0 p1 p2 :
  is_alloc3 (nth_error (current_fp_external (buffers (hybrid w))) lev) = true ->
  m_J_external_parser (compiled (hybrid w)) = (Some p0, Some p1, Some p2) ->
  (AMREX_USE_EB bld = true -> is_alloc3 (Some edge) = true) ->
  exists X Y Z,
    GetCurrentExternal_lev bld edge lev w
    = Ok tt (set_hybrid w (set_buffers (hybrid w)
               (set_current_fp_external (buffers (hybrid w))
                  (list_set (current_fp_external (buffers (hybrid w))) lev
                     (Some X, Some Y, Some Z))))).
Proof.
  intros Ha Hp He.
  apply is_alloc3_true in Ha. destruct Ha as (mfx & mfy & mfz & Ha).
  unfold GetCurrentExternal_lev. rewrite bind_get.
  rewrite (bind_at_level _ _ _ _ _ Ha), Hp.
  cbn [Arr3_get Arr3_x Arr3_y Arr3_z fst snd].
  rewrite !bind_deref_Some.
  unfold eb_arrays.
  destruct (AMREX_USE_EB bld).
  - specialize (He eq_refl). apply is_alloc3_true in He.
    destruct He as (lx & ly & lz & He). injection He as ->.
    rewrite bind_bind, bind_deref3_Some, bind_ret, bind_get_buffers.
    eexists _, _, _. reflexivity.
  - rewrite bind_ret, bind_get_buffers. eexists _, _, _. reflexivity.
Qed.

Lemma is_alloc3_list_set l lev lev' X Y Z :
  is_alloc3 (nth_error l lev) = true ->
  is_alloc3 (nth_error l lev') = true ->
  is_alloc3 (nth_error (list_set l lev (Some X, Some Y, Some Z)) lev') = true.
Proof.
  intros H H'. destruct (Nat.eq_dec lev lev') as [<-|Hne].
  - apply is_alloc3_true in H. destruct H as (x & y & z & H).
    rewrite (nth_error_list_set_eq _ _ _ _ H). reflexivity.
  - rewrite nth_error_list_set_neq by exact Hne. exact H'.
Qed.

Lemma for_range_returns (P : World -> Prop) (body : nat -> M unit) count :
  forall from w,
    (forall lev w0, (from <= lev < from + count)%nat -> P w0 ->
                    exists w1, body lev w0 = Ok tt w1 /\ P w1) ->
    P w ->
    exists w', for_range body from count w = Ok tt w' /\ P w'.
Proof.
  induction count as [|c IH]; intros from w Hb Hw; cbn [for_range].
  - exists w. split; [reflexivity | exact Hw].
  - destruct (Hb from w ltac:(lia) Hw) as (w1 & E1 & H1).
    rewrite (bind_Ok _ _ _ _ _ E1).
    apply IH; [|exact H1].
    intros lev w0 Hlev. apply Hb. lia.
Qed.

Lemma InitData_returns_unrecognized w :
  B_ext_grid_s (params (hybrid w)) <> "parse_b_ext_grid_function" ->
  B_ext_grid_s (params (hybrid w)) <> "read_from_file" ->
  appropriate_grids w = true ->
  (forall lev, (lev <= finestLevel w)%nat -> Jext_ready w lev) ->
  exists w', InitData bld ext w = Ok tt w'.
Proof.
  intros Hs1 Hs2 Hy Hready.
  apply String.eqb_neq in Hs1, Hs2.
  unfold InitData. rewrite bind_get. cbv zeta.
  rewrite Hs1, Hs2.
  unfold put_compiled. rewrite bind_modify.
  unfold appropriate_grids in Hy. cbv zeta in Hy. rewrite Hy.
  unfold WARPX_ALWAYS_ASSERT_WITH_MESSAGE. rewrite bind_ret, bind_modify.
  unfold for_levels. rewrite bind_get.
  cbn [finestLevel set_hybrid].
  match goal with
  | |- exists w', for_range ?body 0 ?n ?W = _ =>
      destruct (for_range_returns
                  (fun w0 => edge_lengths w0 = edge_lengths w /\
                             m_J_external_parser (compiled (hybrid w0)) = J_parsers w /\
                             forall lev, (lev <= finestLevel w)%nat ->
                               is_alloc3 (nth_error (current_fp_external
                                                       (buffers (hybrid w0))) lev) = true)
                  body n 0 W) as (w' & Hw' & _)
  end.
  - intros lev w0 Hlev (He & Hp & Ha).
    rewrite bind_get.
    destruct (GetCurrentExternal_lev_returns
                (if AMREX_USE_EB bld then edge_lengths w0 lev else null3) lev w0
                _ _ _ (Ha lev ltac:(lia)) Hp) as (X & Y & Z & E).
    { intros Heb. rewrite Heb, He. apply (Hready lev ltac:(lia)). exact Heb. }
    rewrite (bind_Ok _ _ _ _ _ E). rewrite !bind_ret.
    eexists. split; [reflexivity|].
    split; [exact He|]. split; [exact Hp|].
    intros lev' Hlev'. cbn [hybrid set_hybrid buffers set_buffers
                              current_fp_external set_current_fp_external].
    apply is_alloc3_list_set; apply Ha; lia.
  - split; [reflexivity|]. split; [reflexivity|].
    intros lev Hlev. apply (Hready lev Hlev).
  - exists w'. exact Hw'.
Qed.

(** What the external-current update leaves alone: the external B buffers
    and the stored parameters. *)
Definition Bext_kept (B0 : list (Arr3 (option MultiFab))) (p0 : Params) (w : World) : Prop :=
  bfield_fp_external (buffers (hybrid w)) = B0 /\ params (hybrid w) = p0.

Lemma inv_GetCurrentExternal_lev_Bext B0 p0 E edge lev :
  invariant (Bext_kept B0 p0) E (GetCurrentExternal_lev bld edge lev).
Proof.
  unfold GetCurrentExternal_lev.
  apply inv_bind_get. intros w Hw.
  apply inv_bind; [apply inv_deref|intros mfs].
  do 6 (apply inv_bind; [apply inv_deref|intros ?]).
  apply inv_bind.
  { unfold eb_arrays. destruct (AMREX_USE_EB bld); [|apply inv_ret].
    apply inv_bind; [apply inv_deref3|intros ?]. apply inv_ret. }
  intros l. apply inv_bind_get_buffers. intros w1 [HB1 Hp1].
  apply inv_modify. intros w2 [HB2 Hp2].
  split; [exact HB1 | exact Hp2].
Qed.

Lemma InitData_unrecognized_style w :
  B_ext_grid_s (params (hybrid w)) <> "parse_b_ext_grid_function" ->
  B_ext_grid_s (params (hybrid w)) <> "read_from_file" ->
  match InitData bld ext w with
  | Ok _ w' => Bext_kept (bfield_fp_external (buffers (hybrid w))) (params (hybrid w)) w'
               /\ appropriate_grids w = true
  | Abort msg _ => msg = msg_yee /\ appropriate_grids w = false
  | Fault _ => True
  end.
Proof.
  intros Hs1 Hs2.
  apply String.eqb_neq in Hs1, Hs2.
  unfold InitData. rewrite bind_get. cbv zeta.
  rewrite Hs1, Hs2.
  unfold put_compiled. rewrite bind_modify.
  match goal with
  | |- context [ WARPX_ALWAYS_ASSERT_WITH_MESSAGE ?c _ ] =>
      change c with (appropriate_grids w)
  end.
  unfold WARPX_ALWAYS_ASSERT_WITH_MESSAGE.
  destruct (appropriate_grids w).
  2:{ unfold bind, amrex_Abort. split; reflexivity. }
  rewrite bind_ret, bind_modify.
  match goal with
  | |- match for_levels ?body ?W with _ => _ end =>
      assert (Hb : forall lev,
                 invariant (Bext_kept (bfield_fp_external (buffers (hybrid w)))
                                      (params (hybrid w)))
                   (fun _ => False) (body lev));
      [|pose proof (inv_for_levels _ _ body Hb W (conj eq_refl eq_refl)) as Hinv;
        destruct (for_levels body W) as [[] w'| |]]
  end.
  - intros lev. apply inv_bind_get. intros w' Hw'.
    apply inv_bind; [apply inv_GetCurrentExternal_lev_Bext|intros _].
    apply inv_bind; [apply inv_ret|intros _; apply inv_ret].
  - split; [exact Hinv|reflexivity].
  - destruct Hinv.
  - exact Logic.I.
Qed.

(** [ReadParameters] stores whatever style string the input gives: its only
    aborts are the two on the electron temperature and the reference
    density. *)
Lemma ReadParameters_style_unchecked w :
  match ReadParameters ext w with
  | Ok _ w' =>
      B_ext_grid_s (params (hybrid w'))
      = snd (query (pp_str (parm w)) "B_external_init_style"
               (B_ext_grid_s (params (hybrid w)))) /\
      buffers (hybrid w') = buffers (hybrid w)
  | Abort msg _ => msg = msg_elec_temp \/ msg = msg_n0_ref
  | Fault _ => False
  end.
Proof.
  unfold ReadParameters, bind, get, put_params, modify, emit, amrex_Abort, ret.
  destruct (fst (query (pp_real (parm w)) "elec_temp" _)); cbn [negb];
    [|left; reflexivity].
  destruct (Req_dec_T _ 1); cbn [andb].
  - destruct (String.eqb _ "read_from_file"); split; reflexivity.
  - destruct (fst (query (pp_real (parm w)) "n0_ref" _)); cbn [negb];
      [|right; reflexivity].
    destruct (String.eqb _ "read_from_file"); split; reflexivity.
Qed.

Lemma ReadParameters_returns w te :
  pp_real (parm w) "elec_temp" = Some te ->
  gamma_read w = 1%R \/ pp_real (parm w) "n0_ref" <> None ->
  exists w', ReadParameters ext w = Ok tt w'.
Proof.
  intros Hte Hg.
  assert (Hq : forall d, query (pp_real (parm w)) "elec_temp" d = (true, te))
    by (intros d; unfold query; rewrite Hte; reflexivity).
  unfold ReadParameters, bind, get, put_params, modify, emit, amrex_Abort, ret.
  unfold gamma_read in Hg. rewrite !Hq. cbn [fst snd negb].
  destruct (Req_dec_T _ 1) as [Heq|Hne]; cbn [andb].
  - destruct (String.eqb _ "read_from_file"); eexists; reflexivity.
  - destruct Hg as [Hg|Hg]; [contradiction|].
    destruct (pp_real (parm w) "n0_ref") as [n0|] eqn:Hn0; [|congruence].
    assert (Hq0 : forall d, query (pp_real (parm w)) "n0_ref" d = (true, n0))
      by (intros d; unfold query; rewrite Hn0; reflexivity).
    rewrite !Hq0. cbn [fst negb].
    destruct (String.eqb _ "read_from_file"); eexists; reflexivity.
Qed.

(** C7 (as amended).  A style string other than [parse_b_ext_grid_function]
    and [read_from_file] is never rejected.  [ReadParameters] stores it as
    given: its only aborts are the two on the electron temperature and on the
    reference density, and when those parameters are in order it returns with
    the string stored.  [InitData] with such a string stored aborts only
    through the staggering assertion; on staggered fields with the
    external-current buffers of every level allocated it returns, and
    whenever it returns the external B buffers and the stored parameters are
    what they were: no external-B initialization takes place. *)
Theorem unrecognized_style_is_not_rejected :
  forall (w : World) (s : string),
    pp_str (parm w) "B_external_init_style" = Some s ->
    s <> "parse_b_ext_grid_function" ->
    s <> "read_from_file" ->
    (forall msg w', ReadParameters ext w = Abort msg w' ->
                    msg = msg_elec_temp \/ msg = msg_n0_ref)
    /\
    (forall te, pp_real (parm w) "elec_temp" = Some te ->
                gamma_read w = 1%R \/ pp_real (parm w) "n0_ref" <> None ->
                exists w1, ReadParameters ext w = Ok tt w1 /\
                           B_ext_grid_s (params (hybrid w1)) = s)
    /\
    (forall w1, B_ext_grid_s (params (hybrid w1)) = s ->
       (forall msg w', InitData bld ext w1 = Abort msg w' ->
                       msg = msg_yee /\ appropriate_grids w1 = false)
       /\
       (forall w2, InitData bld ext w1 = Ok tt w2 ->
                   bfield_fp_external (buffers (hybrid w2))
                   = bfield_fp_external (buffers (hybrid w1)) /\
                   params (hybrid w2) = params (hybrid w1))
       /\
       (appropriate_grids w1 = true ->
        (forall lev, (lev <= finestLevel w1)%nat -> Jext_ready w1 lev) ->
        exists w2, InitData bld ext w1 = Ok tt w2)).
Proof.
  intros w s Hs Hs1 Hs2. split; [|split].
  - intros msg w' H. pose proof (ReadParameters_style_unchecked w) as Hr.
    rewrite H in Hr. exact Hr.
  - intros te Hte Hg.
    destruct (ReadParameters_returns w te Hte Hg) as (w1 & E1).
    exists w1. split; [exact E1|].
    pose proof (ReadParameters_style_unchecked w) as Hr.
    rewrite E1 in Hr. destruct Hr as [Hr _]. rewrite Hr.
    unfold query. rewrite Hs. reflexivity.
  - intros w1 <-.
    pose proof (InitData_unrecognized_style w1 Hs1 Hs2) as Hi.
    split; [|split].
    + intros msg w' H. rewrite H in Hi. exact Hi.
    + intros w2 H. rewrite H in Hi. destruct Hi as [[HB Hp] _].
      split; [exact HB | exact Hp].
    + intros Hy Hready.
      apply InitData_returns_unrecognized; assumption.
Qed.

End Theorems.

(** * Concrete runs

    A one-box 3D build without embedded boundaries, with the push
    [B <- B + h B] for the solver's stencils: the theorems applied to it, and
    the runs on which the statements of the specification that the code does
    not satisfy fail. *)

Local Open Scope string_scope.

(** The demo world after [AllocateMFs 1] and the allocation of level 0. *)
Definition demo_ready : World :=
  final_world ((AllocateMFs 1 ;;; demo_allocate 0) (demo_world pp_elec_temp 0)).

(** The same with two levels, both allocated. *)
Definition demo_two_levels : World :=
  final_world ((AllocateMFs 2 ;;; demo_allocate 0 ;;; demo_allocate 1)
                 (demo_world pp_elec_temp 1)).

(** C8 on the two-level demo world: the solve of level 1 runs and aborts. *)
Lemma HybridPICSolveE_lev_aborts_above_level_0_witness :
  (0 < 1)%nat /\
  (forall a w', HybridPICSolveE_lev demo_ext 1 true demo_two_levels <> Ok a w') /\
  exists w',
    HybridPICSolveE_lev demo_ext 1 true demo_two_levels
    = Abort (TextMsg_Err demo_ext msg_one_level) w' /\
    HybridPICSolveE_patch demo_ext 1 PatchType_fine true demo_two_levels = Ok tt w'.
Proof.
  split; [lia|].
  destruct (HybridPICSolveE_lev_aborts_above_level_0 demo_ext 1 true demo_two_levels
              ltac:(lia)) as [H1 H2].
  split; [exact H1|]. apply H2. vm_compute. reflexivity.
Defined.

(** C10 on the demo world: the staggered flags passed for the currents do
    not reach the external fields. *)
Lemma AllocateLevelMFs_external_fields_witness :
  level_exists (buffers (hybrid (final_world (AllocateMFs 1 (demo_world pp_elec_temp 0))))) 0
  = true /\
  nth_error (current_fp_external (buffers (hybrid demo_ready))) 0
  = Some (Some (zero_MultiFab demo_ba [1; 1; 1] 0 1 [0; 0; 0]),
          Some (zero_MultiFab demo_ba [1; 1; 1] 0 1 [0; 0; 0]),
          Some (zero_MultiFab demo_ba [1; 1; 1] 0 1 [0; 0; 0])) /\
  nth_error (bfield_fp_external (buffers (hybrid demo_ready))) 0
  = Some (Some (zero_MultiFab demo_ba [1; 1; 1] 0 1 [0; 0; 0]),
          Some (zero_MultiFab demo_ba [1; 1; 1] 0 1 [0; 0; 0]),
          Some (zero_MultiFab demo_ba [1; 1; 1] 0 1 [0; 0; 0])).
Proof.
  split; [vm_compute; reflexivity|].
  pose proof (AllocateLevelMFs_external_fields_nodal_without_ghosts demo_build demo_ext
                (final_world (AllocateMFs 1 (demo_world pp_elec_temp 0)))
                0%nat demo_ba 0%nat 1
                [1; 1; 1] [1; 1; 1] [0; 1; 1] [1; 0; 1] [1; 1; 0] [1; 1; 1]
                ltac:(vm_compute; reflexivity)) as H.
  cbv zeta in H. destruct H as (_ & HJ & HB & _).
  split; [exact HJ | exact HB].
Defined.

(** A polytropic model: gamma = 2, n0 = 2 and T_e = 10; a density of value
    3, the vacuum, and a pressure field that holds 7 everywhere. *)
Definition demo_box : Box := {| smallEnd := [0; 0; 0]; bigEnd := [2; 2; 2] |}.
Definition demo_polytropic : HybridPICModel :=
  set_params demo_model
    {| m_substeps := 50; m_gamma := 2; m_elec_temp := 10; m_n0_ref := 2;
       m_eta_expression := "0.0"; m_n_floor := 1; m_eta_h := 0;
       m_Jx_ext_grid_function := "0.0"; m_Jy_ext_grid_function := "0.0";
       m_Jz_ext_grid_function := "0.0"; m_Bx_ext_grid_function := "0.0";
       m_By_ext_grid_function := "0.0"; m_Bz_ext_grid_function := "0.0";
       B_ext_grid_s := "default"; external_fields_path := "" |}.
Definition demo_rho3 : MultiFab := demo_mf [1; 1; 1] 3.
Definition demo_vacuum : MultiFab := demo_mf [1; 1; 1] 0.
Definition demo_Pe7 : MultiFab := demo_mf [1; 1; 1] 7.

(** C4 at a point of the demo box, with gamma = 2: the pressure 7 held there
    becomes [2 * 10 * (3/2)^2 = 45] for the density 3, and 0 (not
    [n0 * T_e = 20]) in the vacuum. *)
Lemma FillElectronPressureMF_witness :
  tilebox (boxArray demo_Pe7) 0%nat = Some demo_box /\
  Box_contains demo_box (2, 0, 1) = true /\
  fabdata demo_Pe7 0%nat (2, 0, 1) 0%nat = 7%R /\
  fabdata (FillElectronPressureMF demo_polytropic demo_Pe7 demo_rho3)
    0%nat (2, 0, 1) 0%nat = 45%R /\
  fabdata (FillElectronPressureMF demo_polytropic demo_Pe7 demo_vacuum)
    0%nat (2, 0, 1) 0%nat = 0%R.
Proof.
  assert (Hb : tilebox (boxArray demo_Pe7) 0%nat = Some demo_box)
    by (vm_compute; reflexivity).
  assert (Hc : Box_contains demo_box (2, 0, 1) = true) by (vm_compute; reflexivity).
  assert (Hg : m_gamma (params demo_polytropic) = 2%R) by reflexivity.
  assert (Hn : m_n0_ref (params demo_polytropic) = 2%R) by reflexivity.
  assert (Ht : m_elec_temp (params demo_polytropic) = 10%R) by reflexivity.
  split; [exact Hb|]. split; [exact Hc|]. split; [reflexivity|].
  split.
  - pose proof (FillElectronPressureMF_pointwise_equation_of_state
                  demo_polytropic demo_Pe7 demo_rho3 0%nat demo_box (2, 0, 1) Hb Hc)
      as H.
    cbv zeta in H. destruct H as (_ & _ & _ & _ & _ & H1 & _).
    rewrite (H1 2%nat).
    + rewrite Hn, Ht.
      change (fabdata demo_rho3 0%nat (2, 0, 1) 0%nat) with 3%R.
      simpl pow. field.
    + rewrite Hg. simpl INR. ring.
    + discriminate.
    + rewrite Hn. lra.
  - pose proof (FillElectronPressureMF_pointwise_equation_of_state
                  demo_polytropic demo_Pe7 demo_vacuum 0%nat demo_box (2, 0, 1) Hb Hc)
      as H.
    cbv zeta in H. destruct H as (_ & _ & _ & _ & H0 & _).
    apply H0.
    + rewrite Hg. lra.
    + rewrite Hg. lra.
    + rewrite Hn. lra.
    + reflexivity.
Defined.

(** C2 (as amended) on the single-level demo world. *)
Lemma FieldPush_single_level_sequence_witness :
  finestLevel demo_ready = 0%nat /\
  push_ready (buffers (hybrid demo_ready)) 0 = true /\
  exists wf,
    FieldPush demo_ext 1 DtType_Full [1; 1; 1] None demo_ready = Ok tt wf /\
    log wf
    = (log demo_ready ++
       [ EvCalculateCurrentAmpere 0; EvFillBoundaryJ 0 0; EvFillBoundaryJ 0 1;
         EvFillBoundaryJ 0 2; EvHybridPICSolveE 0 true;
         EvApplyEfieldBoundary 0 PatchType_fine; EvFillBoundaryE [1; 1; 1] None;
         EvEvolveB 1 DtType_Full; EvFillBoundaryB [1; 1; 1] None ])%list.
Proof.
  assert (Hf : finestLevel demo_ready = 0%nat) by reflexivity.
  assert (Hr : push_ready (buffers (hybrid demo_ready)) 0 = true)
    by (vm_compute; reflexivity).
  split; [exact Hf|]. split; [exact Hr|].
  destruct (FieldPush_single_level_sequence demo_ext demo_ready 1 DtType_Full
              [1; 1; 1] None Hf Hr)
    as (Pe & Jamp & Jext & Bext & _ & _ & _ & _ & Hrun & Hlog).
  eexists. split; [exact Hrun | exact Hlog].
Defined.

(** On two levels the push stops in step (2): the solve of level 1 aborts,
    no boundary fill of E, push of B or boundary fill of B follows, and B is
    as it was. *)
Lemma FieldPush_two_levels_stops_in_the_solve :
  exists w',
    FieldPush demo_ext 1 DtType_Full [1; 1; 1] None demo_two_levels
    = Abort msg_one_level w' /\
    log w'
    = (log demo_two_levels ++
       [ EvCalculateCurrentAmpere 0; EvFillBoundaryJ 0 0; EvFillBoundaryJ 0 1;
         EvFillBoundaryJ 0 2;
         EvCalculateCurrentAmpere 1; EvFillBoundaryJ 1 0; EvFillBoundaryJ 1 1;
         EvFillBoundaryJ 1 2;
         EvHybridPICSolveE 0 true; EvApplyEfieldBoundary 0 PatchType_fine;
         EvHybridPICSolveE 1 true; EvApplyEfieldBoundary 1 PatchType_fine ])%list /\
    Bfield w' = Bfield demo_two_levels.
Proof.
  exists (final_world (FieldPush demo_ext 1 DtType_Full [1; 1; 1] None demo_two_levels)).
  split; [vm_compute; reflexivity|].
  split; [vm_compute; reflexivity|].
  vm_compute; reflexivity.
Qed.

(** With the demo stencils a push by [h] takes B to [B + h B]. *)
Lemma demo_FieldPush_Bval h dt_type ng nodal_sync w1 w2 :
  finestLevel w1 = 0%nat ->
  push_ready (buffers (hybrid w1)) 0 = true ->
  FieldPush demo_ext h dt_type ng nodal_sync w1 = Ok tt w2 ->
  forall ii n p, Bval w2 ii n p = (Bval w1 ii n p + h * Bval w1 ii n p)%R.
Proof.
  intros Hf Hr Hp ii n p.
  destruct (push_ready_inv _ _ Hr)
    as (Pe & Jx & Jy & Jz & Jex & Jey & Jez & Bex & Bey & Bez & H1 & H2 & H3 & H4).
  rewrite (FieldPush_single_level demo_ext h dt_type ng nodal_sync w1 Pe Jx Jy Jz
             (Jex, Jey, Jez) (Bex, Bey, Bez) Hf H1 H2 H3 H4) in Hp.
  injection Hp as <-.
  unfold Bval, FieldPush_flow.
  cbn [Bfield Efield fillB_step evolveB_step fillE_step solve_step ampere_step].
  cbn [demo_ext warpx_FillBoundaryB warpx_EvolveB warpx_FillBoundaryE
       warpx_ApplyEfieldBoundary fdtd_HybridPICSolveE].
  unfold demo_EvolveB.
  destruct (Bfield w1 0) as [[bx by_] bz], (Efield w1 0) as [[ex ey] ez].
  destruct ii as [|[|ii]]; reflexivity.
Qed.

Definition demo_cell : Point := (0, 0, 0).

(** The demo cell is one the MultiFab operations act on. *)
Lemma demo_ready_region ii :
  MF_region (Arr3_get (Bfield demo_ready 0) ii) [1; 1; 1] 0%nat demo_cell = true.
Proof. destruct ii as [|[|ii]]; vm_compute; reflexivity. Qed.

(** C1 (as amended) on the single-level demo world. *)
Lemma BfieldEvolveRK_weighted_sum_of_deltas_witness :
  finestLevel demo_ready = 0%nat /\
  push_ready (buffers (hybrid demo_ready)) 0 = true /\
  exists (s : RK_run) (wf : World),
    BfieldEvolveRK demo_ext 1 DtType_Full [1; 1; 1] None demo_ready = Ok tt wf /\
    Bval wf 0%nat 0%nat demo_cell
    = (Bval demo_ready 0%nat 0%nat demo_cell
       + 1 / 3 * (K_of 0%nat demo_ready s 0%nat 0%nat demo_cell
                  + 2 * K_of 1%nat demo_ready s 0%nat 0%nat demo_cell
                  + K_of 2%nat demo_ready s 0%nat 0%nat demo_cell
                  + K_of 3%nat demo_ready s 0%nat 0%nat demo_cell))%R.
Proof.
  assert (Hf : finestLevel demo_ready = 0%nat) by reflexivity.
  assert (Hr : push_ready (buffers (hybrid demo_ready)) 0 = true)
    by (vm_compute; reflexivity).
  split; [exact Hf|]. split; [exact Hr|].
  destruct (BfieldEvolveRK_weighted_sum_of_deltas demo_ext demo_ready 1 DtType_Full
              [1; 1; 1] None Hf Hr) as (s & wf & _ & _ & Hrun & Hcell).
  exists s, wf. split; [exact Hrun|].
  destruct (Hcell 0%nat 0%nat demo_cell (demo_ready_region 0%nat)) as [Hsum _].
  exact Hsum.
Defined.

(** On the demo push [B <- B + h B] from [B = 1] with [dt = 1] the deltas
    are 1/2, 3/4, 7/4 and 11/8 and the run ends in 65/24, the fourth-order
    Taylor polynomial of [exp] at 1; the weights (dt/3) (1/2, 1, 1, 1/2) on
    the deltas would give 103/48. *)
Lemma RK_deltas_do_not_take_the_slope_weights :
  exists (s : RK_run) (wf : World),
    RK_stages demo_ext 1 DtType_Full [1; 1; 1] None demo_ready s /\
    BfieldEvolveRK demo_ext 1 DtType_Full [1; 1; 1] None demo_ready = Ok tt wf /\
    let B_old := Bval demo_ready 0%nat 0%nat demo_cell in
    let K0 := K_of 0%nat demo_ready s 0%nat 0%nat demo_cell in
    let K1 := K_of 1%nat demo_ready s 0%nat 0%nat demo_cell in
    let K2 := K_of 2%nat demo_ready s 0%nat 0%nat demo_cell in
    let K3 := K_of 3%nat demo_ready s 0%nat 0%nat demo_cell in
    B_old = 1%R /\ K0 = (1 / 2)%R /\ K1 = (3 / 4)%R /\ K2 = (7 / 4)%R /\
    K3 = (11 / 8)%R /\
    Bval wf 0%nat 0%nat demo_cell = (65 / 24)%R /\
    (B_old + 1 / 3 * (0.5 * K0 + K1 + K2 + 0.5 * K3) = 103 / 48)%R /\
    Bval wf 0%nat 0%nat demo_cell <> (B_old + 1 / 3 * (0.5 * K0 + K1 + K2 + 0.5 * K3))%R.
Proof.
  assert (Hf : finestLevel demo_ready = 0%nat) by reflexivity.
  assert (Hr : push_ready (buffers (hybrid demo_ready)) 0 = true)
    by (vm_compute; reflexivity).
  destruct (BfieldEvolveRK_lev_stages demo_ext 1 DtType_Full [1; 1; 1] None
              demo_ready Hf Hr)
    as (s & Hst & Hrun & Hf1 & Hf3 & Hf4 & _ & Hb4).
  destruct (RK_stages_regions demo_ext 1 DtType_Full [1; 1; 1] None demo_ready s
              0%nat 0%nat demo_cell Hf Hr Hst Hf1 Hf3 (demo_ready_region 0%nat))
    as (Hreg2 & Hreg3 & [F1 R1] & [F3 R3] & [F4 R4]).
  exists s, (with_B0 (out4 s) (RK_final [1; 1; 1] demo_ready s)).
  split; [exact Hst|].
  split; [apply for_levels_single_run; [exact Hf | exact Hrun]|].
  assert (Hreg4 : MF_region (Arr3_get (Bfield (out4 s) 0) 0%nat) [1; 1; 1] 0%nat demo_cell
                  = true).
  { rewrite (MF_region_boxArray _ _ [1; 1; 1] 0%nat demo_cell (Hb4 0%nat)).
    exact (demo_ready_region 0%nat). }
  pose proof (Bval_RK_final [1; 1; 1] demo_ready s 0%nat 0%nat demo_cell Hreg4)
    as Hsum.
  destruct Hst as (Hp1 & Hp2 & Hi3 & Hp3 & Hi4 & Hp4).
  pose proof (demo_FieldPush_Bval _ _ _ _ _ _ Hf Hr Hp1 0%nat 0%nat demo_cell) as E1.
  pose proof (demo_FieldPush_Bval _ _ _ _ _ _ F1 R1 Hp2 0%nat 0%nat demo_cell) as E2.
  pose proof (demo_FieldPush_Bval _ _ _ _ _ _ F3 R3 Hp3 0%nat 0%nat demo_cell) as E3.
  pose proof (demo_FieldPush_Bval _ _ _ _ _ _ F4 R4 Hp4 0%nat 0%nat demo_cell) as E4.
  assert (B3 : Bval (in3 s) 0%nat 0%nat demo_cell
               = (Bval demo_ready 0%nat 0%nat demo_cell
                  + K_of 1%nat demo_ready s 0%nat 0%nat demo_cell)%R).
  { rewrite Hi3. apply (Bval_restart [1; 1; 1] (out2 s) demo_ready
                          (RK_K1 demo_ready s) 0%nat). exact Hreg2. }
  assert (B4 : Bval (in4 s) 0%nat 0%nat demo_cell
               = (Bval demo_ready 0%nat 0%nat demo_cell
                  + K_of 2%nat demo_ready s 0%nat 0%nat demo_cell)%R).
  { rewrite Hi4. apply (Bval_restart [1; 1; 1] (out3 s) demo_ready
                          (RK_K2 demo_ready s) 0%nat). exact Hreg3. }
  pose proof (K_of_0 demo_ready s 0%nat 0%nat demo_cell) as D0.
  pose proof (K_of_1 demo_ready s 0%nat 0%nat demo_cell) as D1.
  pose proof (K_of_2 demo_ready s 0%nat 0%nat demo_cell) as D2.
  pose proof (K_of_3 demo_ready s 0%nat 0%nat demo_cell) as D3.
  assert (B0 : Bval demo_ready 0%nat 0%nat demo_cell = 1%R) by reflexivity.
  cbv zeta.
  repeat split; try lra.
Qed.

(** The demo world with external current [(2 x, x, 0)]. *)
Definition demo_J_world : World :=
  set_hybrid demo_ready
    (set_params (hybrid demo_ready)
       {| m_substeps := 50; m_gamma := 1; m_elec_temp := 10; m_n0_ref := 1;
          m_eta_expression := "0.0"; m_n_floor := 1; m_eta_h := 0;
          m_Jx_ext_grid_function := "2*x"; m_Jy_ext_grid_function := "x";
          m_Jz_ext_grid_function := "0.0"; m_Bx_ext_grid_function := "0.0";
          m_By_ext_grid_function := "0.0"; m_Bz_ext_grid_function := "0.0";
          B_ext_grid_s := "default"; external_fields_path := "" |}).



(** C7 (as amended) on the demo input with the style [from_a_crystal_ball]. *)
Lemma unrecognized_style_is_not_rejected_witness :
  pp_str (parm (demo_world pp_unknown_style 0)) "B_external_init_style"
  = Some "from_a_crystal_ball" /\
  "from_a_crystal_ball" <> "parse_b_ext_grid_function" /\
  "from_a_crystal_ball" <> "read_from_file" /\
  exists w1,
    ReadParameters demo_ext (demo_world pp_unknown_style 0) = Ok tt w1 /\
    B_ext_grid_s (params (hybrid w1)) = "from_a_crystal_ball".
Proof.
  assert (H1 : "from_a_crystal_ball" <> "parse_b_ext_grid_function")
    by (intros H; discriminate H).
  assert (H2 : "from_a_crystal_ball" <> "read_from_file")
    by (intros H; discriminate H).
  split; [reflexivity|]. split; [exact H1|]. split; [exact H2|].
  destruct (unrecognized_style_is_not_rejected demo_build demo_ext
              (demo_world pp_unknown_style 0) "from_a_crystal_ball"
              eq_refl H1 H2) as (_ & Hread & _).
  apply (Hread 10%R); [reflexivity | left; reflexivity].
Defined.

(** The demo world as the constructor leaves it when the input gives the
    style [from_a_crystal_ball]. *)
Definition demo_styled : World :=
  final_world
    (AllocateMFs 1
       (add_log
          (set_hybrid (demo_world pp_unknown_style 0)
             (set_params demo_model
                {| m_substeps := 50; m_gamma := 1;
                   m_elec_temp := 10 * q_e demo_ext; m_n0_ref := 1;
                   m_eta_expression := "0.0"; m_n_floor := 1; m_eta_h := 0;
                   m_Jx_ext_grid_function := "0.0"; m_Jy_ext_grid_function := "0.0";
                   m_Jz_ext_grid_function := "0.0"; m_Bx_ext_grid_function := "0.0";
                   m_By_ext_grid_function := "0.0"; m_Bz_ext_grid_function := "0.0";
                   B_ext_grid_s := "from_a_crystal_ball";
                   external_fields_path := "" |}))
          (EvPrint "from_a_crystal_ball"))).

(** With that style the constructor, the allocation of level 0 and the
    initialization all return normally, and the external B stays zero. *)
Lemma unrecognized_style_runs_to_completion :
  exists w2 w3,
    HybridPICModel_ctor demo_ext 1 (demo_world pp_unknown_style 0) = Ok tt demo_styled /\
    B_ext_grid_s (params (hybrid demo_styled)) = "from_a_crystal_ball" /\
    demo_allocate 0 demo_styled = Ok tt w2 /\
    InitData demo_build demo_ext w2 = Ok tt w3 /\
    bfield_fp_external (buffers (hybrid w3)) = bfield_fp_external (buffers (hybrid w2)) /\
    nth_error (bfield_fp_external (buffers (hybrid w3))) 0
    = Some (Some (zero_MultiFab demo_ba [1; 1; 1] 0 1 [0; 0; 0]),
            Some (zero_MultiFab demo_ba [1; 1; 1] 0 1 [0; 0; 0]),
            Some (zero_MultiFab demo_ba [1; 1; 1] 0 1 [0; 0; 0])).
Proof.
  exists (final_world (demo_allocate 0 demo_styled)).
  exists (final_world (InitData demo_build demo_ext
                         (final_world (demo_allocate 0 demo_styled)))).
  split.
  { unfold HybridPICModel_ctor, ReadParameters, bind, get, put_params, modify, emit,
      amrex_Abort, ret.
    cbn [parm demo_world pp_unknown_style pp_real pp_str pp_int hybrid query
         String.eqb Ascii.eqb Bool.eqb fst snd negb].
    destruct (Req_dec_T _ 1) as [_|Hne]; [|exfalso; apply Hne; reflexivity].
    vm_compute. reflexivity. }
  split; [reflexivity|].
  split; [vm_compute; reflexivity|].
  split; [vm_compute; reflexivity|].
  split; vm_compute; reflexivity.
Qed.

(** * Further properties of the functions of the file *)

Section Further.

Context (bld : Build) (ext : Collaborators).

(** ** ReadParameters *)

(** The value of a member after a query: the value given for the name, or
    the member's previous value when the name is not given. *)
Definition given {A} (tbl : string -> option A) (name : string) (ref : A) : A :=
  snd (query tbl name ref).

(** X1. [ReadParameters] returns normally exactly when the electron
    temperature is given and either the value of gamma read is 1 or the
    reference density is given; it never faults. *)
Theorem ReadParameters_returns_iff :
  forall w : World,
    ((exists w', ReadParameters ext w = Ok tt w') <->
     (pp_real (parm w) "elec_temp" <> None /\
      (gamma_read w = 1%R \/ pp_real (parm w) "n0_ref" <> None))) /\
    (forall w', ReadParameters ext w <> Fault w').
Proof.
  intros w. split; [split|].
  - intros [w' H]. unfold gamma_read.
    destruct (pp_real (parm w) "elec_temp") as [te|] eqn:Hte.
    2:{ assert (Hq : forall d, query (pp_real (parm w)) "elec_temp" d = (false, d))
          by (intros d; unfold query; rewrite Hte; reflexivity).
        unfold ReadParameters, bind, get, put_params, modify, emit, amrex_Abort, ret
          in H.
        rewrite !Hq in H. cbn [fst negb] in H. discriminate H. }
    split; [discriminate|].
    assert (Hq : forall d, query (pp_real (parm w)) "elec_temp" d = (true, te))
      by (intros d; unfold query; rewrite Hte; reflexivity).
    destruct (pp_real (parm w) "n0_ref") as [n0|] eqn:Hn0;
      [right; discriminate|].
    assert (Hq0 : forall d, query (pp_real (parm w)) "n0_ref" d = (false, d))
      by (intros d; unfold query; rewrite Hn0; reflexivity).
    unfold ReadParameters, bind, get, put_params, modify, emit, amrex_Abort, ret in H.
    rewrite !Hq, !Hq0 in H. cbn [fst snd negb] in H.
    destruct (Req_dec_T _ 1) as [Heq|Hne]; [left; exact Heq|].
    cbn [andb] in H. discriminate H.
  - intros [Hte Hg].
    destruct (pp_real (parm w) "elec_temp") as [te|] eqn:E; [|congruence].
    exact (ReadParameters_returns ext w te E Hg).
  - intros w' H. pose proof (ReadParameters_style_unchecked ext w) as Hr.
    rewrite H in Hr. exact Hr.
Qed.

(** The run of [ReadParameters], by cases on what the input gives. *)
Ltac ReadParameters_cases w H :=
  let te := fresh "te" in
  let Hte := fresh "Hte" in
  let Hq := fresh "Hq" in
  destruct (pp_real (parm w) "elec_temp") as [te|] eqn:Hte;
  [ assert (Hq : forall d, query (pp_real (parm w)) "elec_temp" d = (true, te))
      by (intros d; unfold query; rewrite Hte; reflexivity)
  | assert (Hq : forall d, query (pp_real (parm w)) "elec_temp" d = (false, d))
      by (intros d; unfold query; rewrite Hte; reflexivity) ];
  unfold ReadParameters, bind, get, put_params, modify, emit, amrex_Abort, ret in H;
  rewrite !Hq in H; cbn [fst snd negb] in H;
  [ | discriminate H ];
  match type of H with
  | context [ if ?c && ?d then _ else _ ] =>
      destruct c; destruct d; cbn [andb] in H; try discriminate H
  end;
  match type of H with
  | context [ if String.eqb ?s "read_from_file" then _ else _ ] =>
      destruct (String.eqb s "read_from_file") eqn:?
  end;
  injection H as <-.

(** X2. When [ReadParameters] returns, the electron temperature stored is
    the value given (in eV) times the elementary charge, and every other
    member holds the value given for its name, or its previous value when the
    name is not given. *)
Theorem ReadParameters_stores_given_or_previous :
  forall w w' : World,
    ReadParameters ext w = Ok tt w' ->
    let pp := parm w in
    let p := params (hybrid w) in
    let p' := params (hybrid w') in
    (exists te, pp_real pp "elec_temp" = Some te /\
                m_elec_temp p' = (te * q_e ext)%R) /\
    m_substeps p' = given (pp_int pp) "substeps" (m_substeps p) /\
    m_gamma p' = given (pp_real pp) "gamma" (m_gamma p) /\
    m_n0_ref p' = given (pp_real pp) "n0_ref" (m_n0_ref p) /\
    m_eta_expression p'
    = given (pp_str pp) "plasma_resistivity(rho,J)" (m_eta_expression p) /\
    m_n_floor p' = given (pp_real pp) "n_floor" (m_n_floor p) /\
    m_eta_h p' = given (pp_real pp) "plasma_hyper_resistivity" (m_eta_h p) /\
    m_Jx_ext_grid_function p'
    = given (pp_str pp) "Jx_external_grid_function(x,y,z,t)" (m_Jx_ext_grid_function p) /\
    m_Jy_ext_grid_function p'
    = given (pp_str pp) "Jy_external_grid_function(x,y,z,t)" (m_Jy_ext_grid_function p) /\
    m_Jz_ext_grid_function p'
    = given (pp_str pp) "Jz_external_grid_function(x,y,z,t)" (m_Jz_ext_grid_function p) /\
    m_Bx_ext_grid_function p'
    = given (pp_str pp) "Bx_external_grid_function(x,y,z)" (m_Bx_ext_grid_function p) /\
    m_By_ext_grid_function p'
    = given (pp_str pp) "By_external_grid_function(x,y,z)" (m_By_ext_grid_function p) /\
    m_Bz_ext_grid_function p'
    = given (pp_str pp) "Bz_external_grid_function(x,y,z)" (m_Bz_ext_grid_function p) /\
    B_ext_grid_s p' = given (pp_str pp) "B_external_init_style" (B_ext_grid_s p).
Proof.
  intros w w' H. cbv zeta.
  ReadParameters_cases w H;
    (split; [exists te; split; reflexivity|]); repeat split.
Qed.

(** X3. The path of the field file is read only for the style
    [read_from_file]: with any other style the stored path is the previous
    one, whatever the input gives for [read_fields_from_path], and only the
    style is printed; with [read_from_file] the path given (or the previous
    one) is stored and printed after the style.  The buffers and the compiled
    parsers are not touched. *)
Theorem ReadParameters_reads_path_for_read_from_file_only :
  forall w w' : World,
    ReadParameters ext w = Ok tt w' ->
    let style := B_ext_grid_s (params (hybrid w')) in
    let path := external_fields_path (params (hybrid w)) in
    let path' := external_fields_path (params (hybrid w')) in
    (style <> "read_from_file" ->
     path' = path /\ log w' = (log w ++ [EvPrint style])%list) /\
    (style = "read_from_file" ->
     path' = given (pp_str (parm w)) "read_fields_from_path" path /\
     log w' = (log w ++ [EvPrint style; EvPrint path'])%list) /\
    buffers (hybrid w') = buffers (hybrid w) /\
    compiled (hybrid w') = compiled (hybrid w).
Proof.
  intros w w' H. cbv zeta.
  ReadParameters_cases w H;
    cbn [hybrid set_hybrid add_log params set_params B_ext_grid_s external_fields_path
         log buffers compiled];
    match goal with
    | E : String.eqb _ _ = true |- _ => apply String.eqb_eq in E
    | E : String.eqb _ _ = false |- _ => apply String.eqb_neq in E
    end;
    (split; [intros Hs; try contradiction|
             split; [intros Hs; try contradiction|split; reflexivity]]);
    rewrite <- ?app_assoc; split; reflexivity.
Qed.

(** ** AllocateMFs, the constructor and ClearLevel *)

Lemma nth_error_resize {A} (dflt : A) (l : list A) (n lev : nat) :
  nth_error (resize dflt l n) lev
  = if (lev <? n)%nat then Some (nth lev l dflt) else None.
Proof.
  unfold resize.
  destruct (Nat.ltb_spec lev n) as [Hlt|Hge].
  - destruct (Nat.lt_ge_cases lev (List.length l)) as [Hl|Hl].
    + rewrite nth_error_app1 by (rewrite length_firstn; lia).
      rewrite nth_error_firstn.
      replace (lev <? n)%nat with true by (symmetry; apply Nat.ltb_lt; exact Hlt).
      apply nth_error_nth'. exact Hl.
    + rewrite nth_error_app2 by (rewrite length_firstn; lia).
      rewrite length_firstn, nth_error_repeat by (rewrite ?length_firstn; lia).
      rewrite nth_overflow by exact Hl. reflexivity.
  - apply nth_error_None. rewrite length_app, length_firstn, repeat_length. lia.
Qed.

(** The entry [lev] of a vector after [resize(n)]: the previous entry where
    there was one, a null entry where the vector grew, nothing at [n] and
    beyond. *)
Definition resized {A} (dflt : A) (l : list A) (n lev : nat) : option A :=
  if (lev <? n)%nat then Some (nth lev l dflt) else None.

(** X4. [AllocateMFs] always returns; it gives each of the six vectors
    exactly [nlevs_max] entries, keeps the entries of the levels that
    existed, fills the new levels with null pointers, and drops the levels
    from [nlevs_max] on.  Nothing outside the six vectors changes. *)
Theorem AllocateMFs_keeps_existing_levels :
  forall (nlevs_max : nat) (w : World),
    exists b',
      AllocateMFs nlevs_max w = Ok tt (set_hybrid w (set_buffers (hybrid w) b')) /\
      let b := buffers (hybrid w) in
      forall lev,
        nth_error (electron_pressure_fp b') lev
        = resized None (electron_pressure_fp b) nlevs_max lev /\
        nth_error (rho_fp_temp b') lev
        = resized None (rho_fp_temp b) nlevs_max lev /\
        nth_error (current_fp_temp b') lev
        = resized null3 (current_fp_temp b) nlevs_max lev /\
        nth_error (current_fp_ampere b') lev
        = resized null3 (current_fp_ampere b) nlevs_max lev /\
        nth_error (current_fp_external b') lev
        = resized null3 (current_fp_external b) nlevs_max lev /\
        nth_error (bfield_fp_external b') lev
        = resized null3 (bfield_fp_external b) nlevs_max lev /\
        level_exists b' lev = (lev <? nlevs_max)%nat.
Proof.
  intros n w. eexists. split; [reflexivity|].
  cbv zeta. intros lev.
  cbn [electron_pressure_fp rho_fp_temp current_fp_temp current_fp_ampere
       current_fp_external bfield_fp_external].
  unfold level_exists, in_rangeb, resized.
  cbn [electron_pressure_fp rho_fp_temp current_fp_temp current_fp_ampere
       current_fp_external bfield_fp_external].
  rewrite !nth_error_resize.
  destruct (lev <? n)%nat; repeat split; reflexivity.
Qed.

(** X5. The constructor of a fresh model (whose vectors are empty) that
    returns has made [nlevs_max] levels, none of them allocated: every
    pointer of every level below [nlevs_max] is null, and no level from
    [nlevs_max] on exists. *)
Theorem ctor_makes_empty_levels :
  forall (nlevs_max : nat) (w w' : World),
    buffers (hybrid w)
    = {| electron_pressure_fp := []; rho_fp_temp := []; current_fp_temp := [];
         current_fp_ampere := []; current_fp_external := [];
         bfield_fp_external := [] |} ->
    HybridPICModel_ctor ext nlevs_max w = Ok tt w' ->
    forall lev,
      let b' := buffers (hybrid w') in
      ((lev < nlevs_max)%nat ->
       nth_error (electron_pressure_fp b') lev = Some None /\
       nth_error (rho_fp_temp b') lev = Some None /\
       nth_error (current_fp_temp b') lev = Some null3 /\
       nth_error (current_fp_ampere b') lev = Some null3 /\
       nth_error (current_fp_external b') lev = Some null3 /\
       nth_error (bfield_fp_external b') lev = Some null3) /\
      level_exists b' lev = (lev <? nlevs_max)%nat /\
      push_ready b' lev = false.
Proof.
  intros n w w' Hb H lev.
  unfold HybridPICModel_ctor in H.
  apply bind_Ok_inv in H. destruct H as ([] & w1 & Hr & Ha).
  pose proof (ReadParameters_style_unchecked ext w) as Hs.
  rewrite Hr in Hs. destruct Hs as [_ Hb1]. rewrite Hb in Hb1.
  unfold AllocateMFs in Ha. rewrite bind_get_buffers, Hb1 in Ha.
  injection Ha as <-.
  cbv zeta.
  cbn [hybrid set_hybrid buffers set_buffers electron_pressure_fp rho_fp_temp
       current_fp_temp current_fp_ampere current_fp_external bfield_fp_external].
  unfold level_exists, push_ready, in_rangeb.
  cbn [electron_pressure_fp rho_fp_temp current_fp_temp current_fp_ampere
       current_fp_external bfield_fp_external].
  rewrite !nth_error_resize.
  destruct (Nat.ltb_spec lev n) as [Hlt|Hge].
  - destruct lev; cbn; repeat split; reflexivity.
  - split; [intros Hlt; lia|]. split; reflexivity.
Qed.

(** The buffers after [ClearLevel lev]. *)
Definition ClearLevel_buffers (lev : nat) (b : Buffers) : Buffers :=
  {| electron_pressure_fp := list_set (electron_pressure_fp b) lev None;
     rho_fp_temp := list_set (rho_fp_temp b) lev None;
     current_fp_temp := list_set (current_fp_temp b) lev null3;
     current_fp_ampere := list_set (current_fp_ampere b) lev null3;
     current_fp_external := list_set (current_fp_external b) lev null3;
     bfield_fp_external := bfield_fp_external b |}.

Lemma ClearLevel_run (lev : nat) (w : World) :
  level_exists (buffers (hybrid w)) lev = true ->
  ClearLevel lev w
  = Ok tt (set_hybrid w (set_buffers (hybrid w)
             (ClearLevel_buffers lev (buffers (hybrid w))))).
Proof.
  intros H. apply level_exists_inv in H.
  destruct H as (H1 & H2 & H3 & H4 & H5 & H6).
  destruct (in_rangeb_true _ _ H3) as [[[t0 t1] t2] E3].
  destruct (in_rangeb_true _ _ H4) as [[[a0 a1] a2] E4].
  destruct (in_rangeb_true _ _ H5) as [[[e0 e1] e2] E5].
  unfold ClearLevel, for_range.
  rewrite (bind_Ok _ _ _ _ _ (assign_level_run _ _ lev None w H1)). norm_world.
  erewrite bind_Ok by (apply assign_level_run; norm_world; exact H2). norm_world.
  repeat (rewrite ?bind_bind;
          erewrite bind_Ok
            by (eapply assign_level_comp_run; norm_world;
                first [ eassumption
                      | apply nth_error_list_set_same;
                        rewrite ?in_rangeb_list_set; assumption ]);
          norm_world).
  unfold ret, ClearLevel_buffers. norm_world.
  rewrite !list_set_twice. reflexivity.
Qed.

(** X6. [ClearLevel] on an existing level returns and touches that level
    only: the entries of every other level of the six vectors, the length of
    the vectors, the parameters, the parsers, the borrowed fields and the log
    are as they were; releasing the level a second time changes nothing. *)
Theorem ClearLevel_touches_its_level_only :
  forall (lev : nat) (w : World),
    level_exists (buffers (hybrid w)) lev = true ->
    exists w',
      ClearLevel lev w = Ok tt w' /\
      (let b := buffers (hybrid w) in
       let b' := buffers (hybrid w') in
       forall lev', lev' <> lev ->
         nth_error (electron_pressure_fp b') lev' = nth_error (electron_pressure_fp b) lev' /\
         nth_error (rho_fp_temp b') lev' = nth_error (rho_fp_temp b) lev' /\
         nth_error (current_fp_temp b') lev' = nth_error (current_fp_temp b) lev' /\
         nth_error (current_fp_ampere b') lev' = nth_error (current_fp_ampere b) lev' /\
         nth_error (current_fp_external b') lev' = nth_error (current_fp_external b) lev' /\
         nth_error (bfield_fp_external b') lev' = nth_error (bfield_fp_external b) lev') /\
      (forall lev', level_exists (buffers (hybrid w')) lev'
                    = level_exists (buffers (hybrid w)) lev') /\
      params (hybrid w') = params (hybrid w) /\
      compiled (hybrid w') = compiled (hybrid w) /\
      Bfield w' = Bfield w /\ Efield w' = Efield w /\ log w' = log w /\
      ClearLevel lev w' = Ok tt w'.
Proof.
  intros lev w H.
  eexists. split; [apply ClearLevel_run; exact H|].
  split; [|split].
  - cbv zeta. intros lev' Hne.
    cbn [hybrid set_hybrid buffers set_buffers ClearLevel_buffers
         electron_pressure_fp rho_fp_temp current_fp_temp current_fp_ampere
         current_fp_external bfield_fp_external].
    rewrite !nth_error_list_set_neq by congruence.
    repeat split; reflexivity.
  - intros lev'. unfold level_exists.
    cbn [hybrid set_hybrid buffers set_buffers ClearLevel_buffers
         electron_pressure_fp rho_fp_temp current_fp_temp current_fp_ampere
         current_fp_external bfield_fp_external].
    rewrite !in_rangeb_list_set. reflexivity.
  - do 5 (split; [reflexivity|]).
    rewrite ClearLevel_run.
    + unfold ClearLevel_buffers. norm_world. rewrite !list_set_twice. reflexivity.
    + unfold level_exists.
      cbn [hybrid set_hybrid buffers set_buffers ClearLevel_buffers
           electron_pressure_fp rho_fp_temp current_fp_temp current_fp_ampere
           current_fp_external bfield_fp_external].
      rewrite !in_rangeb_list_set. exact H.
Qed.

(** ** InitData *)

(** X7. Whatever the external-B style, [InitData] on fields whose
    staggering is not the Yee staggering of the build (or whose ion current
    is not staggered like E) aborts with the staggering error before it
    evaluates any external field: the buffers and the log are untouched. *)
Theorem InitData_aborts_off_the_Yee_grid :
  forall w : World,
    appropriate_grids bld w = false ->
    exists w',
      InitData bld ext w = Abort msg_yee w' /\
      buffers (hybrid w') = buffers (hybrid w) /\
      params (hybrid w') = params (hybrid w) /\
      log w' = log w.
Proof.
  intros w Hy.
  unfold InitData. rewrite bind_get. cbv zeta.
  unfold put_compiled. rewrite bind_modify.
  match goal with
  | |- context [ WARPX_ALWAYS_ASSERT_WITH_MESSAGE ?c _ ] =>
      change c with (appropriate_grids bld w)
  end.
  rewrite Hy. unfold WARPX_ALWAYS_ASSERT_WITH_MESSAGE, bind, amrex_Abort.
  eexists. split; [reflexivity|]. repeat split; reflexivity.
Qed.

Ltac inv_if :=
  lazymatch goal with
  | |- invariant _ _ (if ?c then _ else _) => destruct c
  end.

Ltac inv_print HI := apply inv_modify; intros ? ?; apply HI; assumption.

(** A name occurs in the parsed text. *)
Definition mentions (s : string) (text : string) (vars : list string) : bool :=
  if in_dec string_dec s (Parser_symbols (makeParser ext text vars)) then true else false.

Lemma bool_plus_assign_count flag syms s :
  bool_plus_assign flag (symbols_count syms s)
  = flag || (if in_dec string_dec s syms then true else false).
Proof.
  unfold bool_plus_assign, symbols_count.
  destruct flag; destruct (in_dec string_dec s syms); reflexivity.
Qed.

(** What a returning [InitData] has stored in the compiled members. *)
Lemma InitData_Ok_compiled w w1 :
  InitData bld ext w = Ok tt w1 ->
  let p := params (hybrid w) in
  let c := compiled (hybrid w) in
  let c1 := compiled (hybrid w1) in
  appropriate_grids bld w = true /\
  m_resistivity_has_J_dependence c1
  = m_resistivity_has_J_dependence c || mentions "J" (m_eta_expression p) ["rho"; "J"] /\
  m_external_field_has_time_dependence c1
  = m_external_field_has_time_dependence c
    || mentions "t" (m_Jx_ext_grid_function p) xyzt
    || mentions "t" (m_Jy_ext_grid_function p) xyzt
    || mentions "t" (m_Jz_ext_grid_function p) xyzt /\
  J_IndexType c1
  = Arr3_map2 (store_IndexType bld) (J_IndexType c) (Arr3_map ixType (current_fp w 0)) /\
  B_IndexType c1
  = Arr3_map2 (store_IndexType bld) (B_IndexType c) (Arr3_map ixType (Bfield w 0)) /\
  E_IndexType c1
  = Arr3_map2 (store_IndexType bld) (E_IndexType c) (Arr3_map ixType (Efield w 0)).
Proof.
  intros H. cbv zeta.
  unfold InitData in H. rewrite bind_get in H. cbv zeta in H.
  unfold put_compiled in H. rewrite bind_modify in H.
  match type of H with
  | context [ WARPX_ALWAYS_ASSERT_WITH_MESSAGE ?c _ ] =>
      change c with (appropriate_grids bld w) in H
  end.
  unfold WARPX_ALWAYS_ASSERT_WITH_MESSAGE in H.
  destruct (appropriate_grids bld w); [|discriminate H].
  rewrite bind_ret, bind_modify in H.
  match type of H with
  | for_levels ?body ?W = _ =>
      assert (Hb : forall lev,
                 invariant (compiled_blind (fun c => c = compiled (hybrid W)))
                   (fun _ => True) (body lev))
  end.
  { intros lev.
    match goal with
    | |- invariant ?Inv _ _ =>
        assert (HI : buffers_blind Inv) by (apply compiled_blind_buffers)
    end.
    apply inv_bind_get. intros w' Hw'.
    apply inv_bind; [apply inv_GetCurrentExternal_lev; exact HI | intros _].
    apply inv_bind.
    - inv_if; [|apply inv_ret].
      apply inv_bind; [inv_print HI|intros _].
      apply inv_GetExternalBField_lev. exact HI.
    - intros _. inv_if; [|apply inv_ret].
      apply inv_bind; [inv_print HI|intros _].
      apply inv_bind; [|intros _; inv_print HI].
      apply inv_for_range. intros i.
      apply inv_bind_get_buffers. intros w'' Hw''.
      apply inv_bind; [apply inv_deref|intros mfs].
      apply inv_bind; [apply inv_ReadExternalBFieldFromFile; exact HI|intros mf'].
      apply inv_assign_level_comp. exact HI. }
  match type of H with
  | for_levels ?body ?W = _ =>
      pose proof (inv_for_levels _ _ body Hb W eq_refl) as Hinv
  end.
  rewrite H in Hinv. unfold compiled_blind in Hinv. rewrite Hinv.
  cbn [hybrid set_hybrid compiled set_compiled m_resistivity_has_J_dependence
       m_external_field_has_time_dependence J_IndexType B_IndexType E_IndexType
       fold_left].
  unfold mentions. rewrite !bool_plus_assign_count.
  repeat split; reflexivity.
Qed.

Lemma IntVect_eqb_eq (a b : IntVect) : IntVect_eqb a b = true -> a = b.
Proof. unfold IntVect_eqb. destruct (list_eq_dec Z.eq_dec a b); [auto|discriminate]. Qed.

(** The staggering descriptors of E (and of the ion current) and of B on
    the Yee grid, with the dimensions the build does not have set to nodal. *)
Definition Yee_E_IndexType (d : Dim) : Arr3 (list Z) :=
  match d with
  | DIM_1D_Z => ([1; 1; 1], [1; 1; 1], [0; 1; 1])
  | DIM_XZ | DIM_RZ => ([0; 1; 1], [1; 1; 1], [1; 0; 1])
  | DIM_3D => ([0; 1; 1], [1; 0; 1], [1; 1; 0])
  end.

Definition Yee_B_IndexType (d : Dim) : Arr3 (list Z) :=
  match d with
  | DIM_1D_Z => ([0; 1; 1], [0; 1; 1], [1; 1; 1])
  | DIM_XZ | DIM_RZ => ([1; 0; 1], [0; 0; 1], [0; 1; 1])
  | DIM_3D => ([1; 0; 0], [0; 1; 0], [0; 0; 1])
  end.

(** X8. When [InitData] returns, the staggering descriptors it has stored
    for the kernels are the Yee ones of the build, three entries each, with
    every dimension the build does not have marked nodal, whatever the
    descriptors held before; the ion current's descriptor is that of E. *)
Theorem InitData_stores_Yee_index_types :
  forall w w1 : World,
    InitData bld ext w = Ok tt w1 ->
    let c1 := compiled (hybrid w1) in
    E_IndexType c1 = Yee_E_IndexType (WARPX_DIM bld) /\
    J_IndexType c1 = Yee_E_IndexType (WARPX_DIM bld) /\
    B_IndexType c1 = Yee_B_IndexType (WARPX_DIM bld).
Proof.
  intros w w1 H. cbv zeta.
  destruct (InitData_Ok_compiled w w1 H) as (Hy & _ & _ & HJ & HB & HE).
  rewrite HJ, HB, HE. clear HJ HB HE H.
  unfold appropriate_grids, yee_staggering in Hy. cbv zeta in Hy.
  repeat match type of Hy with
         | (_ && _)%bool = true =>
             let H1 := fresh "Hs" in
             apply andb_true_iff in Hy; destruct Hy as [Hy H1];
             apply IntVect_eqb_eq in H1
         end.
  unfold Arr3_map2, Arr3_map, store_IndexType, Yee_E_IndexType, Yee_B_IndexType.
  cbn [Arr3_get Arr3_map Arr3_x Arr3_y Arr3_z fst snd] in *.
  destruct (WARPX_DIM bld);
    repeat match type of Hy with
           | (_ && _)%bool = true =>
               let H1 := fresh "Hs" in
               apply andb_true_iff in Hy; destruct Hy as [Hy H1];
               apply IntVect_eqb_eq in H1
           end;
    apply IntVect_eqb_eq in Hy;
    repeat match goal with
           | E : ixType _ = _ |- _ => rewrite E in *; clear E
           end;
    repeat split; reflexivity.
Qed.

(** X9. When [InitData] returns, the time-dependence flag of the external
    current is set exactly when it was set before or one of the three
    current expressions mentions [t], and the J-dependence flag of the
    resistivity is set exactly when it was set before or the resistivity
    expression mentions [J]. *)
Theorem InitData_sets_dependence_flags :
  forall w w1 : World,
    InitData bld ext w = Ok tt w1 ->
    let p := params (hybrid w) in
    (m_external_field_has_time_dependence (compiled (hybrid w1)) = true <->
     m_external_field_has_time_dependence (compiled (hybrid w)) = true \/
     In "t" (Parser_symbols (makeParser ext (m_Jx_ext_grid_function p) xyzt)) \/
     In "t" (Parser_symbols (makeParser ext (m_Jy_ext_grid_function p) xyzt)) \/
     In "t" (Parser_symbols (makeParser ext (m_Jz_ext_grid_function p) xyzt))) /\
    (m_resistivity_has_J_dependence (compiled (hybrid w1)) = true <->
     m_resistivity_has_J_dependence (compiled (hybrid w)) = true \/
     In "J" (Parser_symbols (makeParser ext (m_eta_expression p) ["rho"; "J"]))).
Proof.
  intros w w1 H. cbv zeta.
  destruct (InitData_Ok_compiled w w1 H) as (_ & HJ & Ht & _).
  rewrite HJ, Ht. unfold mentions.
  rewrite !orb_true_iff.
  repeat match goal with
         | |- context [ in_dec string_dec ?s ?l ] =>
             destruct (in_dec string_dec s l)
         end;
    split; split; intros; intuition congruence.
Qed.

(** The message of the stub that replaces the file reader in a build that
    cannot read field files: 1D, XZ, or no openPMD support. *)
Definition no_file_reader (b : Build) : option string :=
  match WARPX_USE_OPENPMD b, WARPX_DIM b with
  | _, DIM_1D_Z => Some "Reading fields from openPMD files is not supported in 1D"
  | _, DIM_XZ =>
      Some "Reading from openPMD for external fields is not known to work with XZ (see #3828)"
  | false, _ => Some "OpenPMD field reading requires OpenPMD support to be enabled"
  | true, _ => None
  end.

Lemma ReadExternalBFieldFromFile_stub msg path edge lev mf F_name F_component w :
  no_file_reader bld = Some msg ->
  ReadExternalBFieldFromFile bld ext path edge lev mf F_name F_component w
  = Abort msg w.
Proof.
  unfold no_file_reader, ReadExternalBFieldFromFile.
  destruct (WARPX_USE_OPENPMD bld), (WARPX_DIM bld); intros H;
    try discriminate H; injection H as <-; reflexivity.
Qed.

(** ** External fields from parsed expressions *)

(** The edge-length arrays the kernels read: those passed in a build with
    embedded boundaries, none otherwise. *)
Definition eb_edge (edge : Arr3 (option MultiFab)) : Arr3 (option MultiFab) :=
  if AMREX_USE_EB bld then edge else null3.

Lemma bind_eb_arrays {B} edge (k : Arr3 (option MultiFab) -> M B) w :
  (AMREX_USE_EB bld = true -> is_alloc3 (Some edge) = true) ->
  bind (eb_arrays bld edge) k w = k (eb_edge edge) w.
Proof.
  intros He. unfold eb_arrays, eb_edge.
  destruct (AMREX_USE_EB bld); [|reflexivity].
  specialize (He eq_refl). apply is_alloc3_true in He.
  destruct He as (lx & ly & lz & He). injection He as ->.
  rewrite bind_bind, bind_deref3_Some, bind_ret. reflexivity.
Qed.

(** The cell values after one component of the three-box loop. *)
Lemma fill_from_executor_spec mfx mf l dx lo (f : R -> R -> R -> R) n q c :
  fabdata (fill_from_executor bld mfx mf l dx lo f) n q c
  = match tilebox_as (boxArray mfx) (ixType mf) (nGrowVect mf) n with
    | Some bx =>
        if Box_contains bx q && Nat.eqb c 0 && negb (covered l n q)
        then let '(x, y, z) := node_coords bld (ixType mf) dx lo q in f x y z
        else fabdata mf n q c
    | None => fabdata mf n q c
    end.
Proof.
  unfold fill_from_executor, MFIter_ParallelFor. cbn [fabdata with_fabdata].
  destruct (tilebox_as (boxArray mfx) (ixType mf) (nGrowVect mf) n) as [bx|];
    [|reflexivity].
  rewrite ParallelFor_spec.
  destruct (Box_contains bx q && Nat.eqb c 0); [|reflexivity].
  destruct (covered l n q); cbn [negb andb]; [reflexivity|].
  destruct (node_coords bld (ixType mf) dx lo q) as [[x y] z]. reflexivity.
Qed.

(** The three components a run of [GetCurrentExternal] or
    [GetExternalBField] writes at a level. *)
Definition filled (w : World) (lev : nat) (edge : Arr3 (option MultiFab))
    (mfs : Arr3 MultiFab) (run : Arr3 (R -> R -> R -> R)) : Arr3 MultiFab :=
  (fill_from_executor bld (Arr3_x mfs) (Arr3_x mfs) (Arr3_x (eb_edge edge))
     (Geom_CellSize w lev) (Geom_ProbLo w lev) (Arr3_x run),
   fill_from_executor bld (Arr3_x mfs) (Arr3_y mfs) (Arr3_y (eb_edge edge))
     (Geom_CellSize w lev) (Geom_ProbLo w lev) (Arr3_y run),
   fill_from_executor bld (Arr3_x mfs) (Arr3_z mfs) (Arr3_z (eb_edge edge))
     (Geom_CellSize w lev) (Geom_ProbLo w lev) (Arr3_z run)).

Lemma GetCurrentExternal_lev_run edge lev w mfs ps :
  nth_error (current_fp_external (buffers (hybrid w))) lev = Some (Arr3_map Some mfs) ->
  m_J_external_parser (compiled (hybrid w)) = Arr3_map Some ps ->
  (AMREX_USE_EB bld = true -> is_alloc3 (Some edge) = true) ->
  GetCurrentExternal_lev bld edge lev w
  = Ok tt (set_hybrid w (set_buffers (hybrid w)
             (set_current_fp_external (buffers (hybrid w))
                (list_set (current_fp_external (buffers (hybrid w))) lev
                   (Arr3_map Some
                      (filled w lev edge mfs
                         (Arr3_map (fun e x y z =>
                                      Parser_compile e [x; y; z; gett_new w lev])
                                   ps))))))).
Proof.
  intros Ha Hp He. destruct mfs as [[mfx mfy] mfz], ps as [[p0 p1] p2].
  unfold GetCurrentExternal_lev. rewrite bind_get.
  rewrite (bind_at_level _ _ _ _ _ Ha), Hp.
  cbn [Arr3_map Arr3_get Arr3_x Arr3_y Arr3_z fst snd].
  rewrite !bind_deref_Some.
  rewrite (bind_eb_arrays _ _ _ He), bind_get_buffers.
  reflexivity.
Qed.

Lemma GetExternalBField_lev_run edge lev w mfs ps :
  nth_error (bfield_fp_external (buffers (hybrid w))) lev = Some (Arr3_map Some mfs) ->
  m_B_external_parser (compiled (hybrid w)) = Arr3_map Some ps ->
  (AMREX_USE_EB bld = true -> is_alloc3 (Some edge) = true) ->
  GetExternalBField_lev bld edge lev w
  = Ok tt (set_hybrid w (set_buffers (hybrid w)
             (set_bfield_fp_external (buffers (hybrid w))
                (list_set (bfield_fp_external (buffers (hybrid w))) lev
                   (Arr3_map Some
                      (filled w lev edge mfs
                         (Arr3_map (fun e x y z => Parser_compile e [x; y; z]) ps))))))).
Proof.
  intros Ha Hp He. destruct mfs as [[mfx mfy] mfz], ps as [[p0 p1] p2].
  unfold GetExternalBField_lev. rewrite bind_get.
  rewrite (bind_at_level _ _ _ _ _ Ha), Hp.
  cbn [Arr3_map Arr3_get Arr3_x Arr3_y Arr3_z fst snd].
  rewrite !bind_deref_Some.
  rewrite (bind_eb_arrays _ _ _ He), bind_get_buffers.
  reflexivity.
Qed.

Lemma filled_spec w lev edge mfs run ii n q c :
  fabdata (Arr3_get (filled w lev edge mfs run) ii) n q c
  = match tilebox_as (boxArray (Arr3_x mfs)) (ixType (Arr3_get mfs ii))
            (nGrowVect (Arr3_get mfs ii)) n with
    | Some bx =>
        if Box_contains bx q && Nat.eqb c 0
           && negb (covered (Arr3_get (eb_edge edge) ii) n q)
        then let '(x, y, z) := node_coords bld (ixType (Arr3_get mfs ii))
                                 (Geom_CellSize w lev) (Geom_ProbLo w lev) q in
             Arr3_get run ii x y z
        else fabdata (Arr3_get mfs ii) n q c
    | None => fabdata (Arr3_get mfs ii) n q c
    end.
Proof. destruct ii as [|[|ii]]; apply fill_from_executor_spec. Qed.

(** What the loop over the boxes of the x component writes in component
    [ii] of [mfs]: in the cells of those boxes (seen with the component's
    index type and ghost width) that no embedded boundary covers, the value
    of the expression at the cell's coordinates; nothing elsewhere. *)
Definition evaluated_on_the_grid (w : World) (lev : nat) (edge : Arr3 (option MultiFab))
    (mfs mfs' : Arr3 MultiFab) (run : Arr3 (R -> R -> R -> R)) : Prop :=
  forall (ii n : nat) (q : Point),
    let mf := Arr3_get mfs ii in
    let mf' := Arr3_get mfs' ii in
    let box := tilebox_as (boxArray (Arr3_x mfs)) (ixType mf) (nGrowVect mf) n in
    let cov := covered (Arr3_get (eb_edge edge) ii) n q in
    layout mf' = layout mf /\
    (forall bx, box = Some bx -> Box_contains bx q = true -> cov = false ->
       fabdata mf' n q 0%nat
       = let '(x, y, z) := node_coords bld (ixType mf) (Geom_CellSize w lev)
                             (Geom_ProbLo w lev) q in
         Arr3_get run ii x y z) /\
    (forall c, c <> 0%nat \/ cov = true \/
               (forall bx, box = Some bx -> Box_contains bx q = false) ->
       fabdata mf' n q c = fabdata mf n q c).

Lemma filled_evaluated w lev edge mfs run :
  evaluated_on_the_grid w lev edge mfs (filled w lev edge mfs run) run.
Proof.
  intros ii n q. cbv zeta. split; [|split].
  - destruct ii as [|[|ii]]; reflexivity.
  - intros bx Hb Hq Hc. rewrite filled_spec, Hb, Hq, Hc. reflexivity.
  - intros c H. rewrite filled_spec.
    destruct (tilebox_as _ _ _ n) as [bx|]; [|reflexivity].
    destruct H as [H|[H|H]].
    + replace (Nat.eqb c 0) with false by (symmetry; apply Nat.eqb_neq; exact H).
      rewrite andb_false_r. reflexivity.
    + rewrite H. cbn [negb]. rewrite andb_false_r. reflexivity.
    + rewrite (H bx eq_refl). reflexivity.
Qed.

(** X11. With the external-current buffers of the level allocated and the
    current parsers compiled, [GetCurrentExternal] for the level returns and
    replaces the three components by their evaluation on the grid at the
    level's current time: each uncovered cell of the boxes of the x
    component holds its expression at the cell's coordinates, every other
    cell and the layouts are as before, and nothing else in the world
    changes. *)
Theorem GetCurrentExternal_lev_evaluates_on_the_grid :
  forall (edge : Arr3 (option MultiFab)) (lev : nat) (w : World)
         (mfs : Arr3 MultiFab) (ps : Arr3 Parser),
    nth_error (current_fp_external (buffers (hybrid w))) lev = Some (Arr3_map Some mfs) ->
    m_J_external_parser (compiled (hybrid w)) = Arr3_map Some ps ->
    (AMREX_USE_EB bld = true -> is_alloc3 (Some edge) = true) ->
    exists mfs',
      GetCurrentExternal_lev bld edge lev w
      = Ok tt (set_hybrid w (set_buffers (hybrid w)
                 (set_current_fp_external (buffers (hybrid w))
                    (list_set (current_fp_external (buffers (hybrid w))) lev
                       (Arr3_map Some mfs'))))) /\
      evaluated_on_the_grid w lev edge mfs mfs'
        (Arr3_map (fun e x y z => Parser_compile e [x; y; z; gett_new w lev]) ps).
Proof.
  intros edge lev w mfs ps Ha Hp He.
  eexists. split; [exact (GetCurrentExternal_lev_run edge lev w mfs ps Ha Hp He)|].
  apply filled_evaluated.
Qed.

(** X12. The same for [GetExternalBField] and the external-B buffers, with
    the B expressions, which take no time argument. *)
Theorem GetExternalBField_lev_evaluates_on_the_grid :
  forall (edge : Arr3 (option MultiFab)) (lev : nat) (w : World)
         (mfs : Arr3 MultiFab) (ps : Arr3 Parser),
    nth_error (bfield_fp_external (buffers (hybrid w))) lev = Some (Arr3_map Some mfs) ->
    m_B_external_parser (compiled (hybrid w)) = Arr3_map Some ps ->
    (AMREX_USE_EB bld = true -> is_alloc3 (Some edge) = true) ->
    exists mfs',
      GetExternalBField_lev bld edge lev w
      = Ok tt (set_hybrid w (set_buffers (hybrid w)
                 (set_bfield_fp_external (buffers (hybrid w))
                    (list_set (bfield_fp_external (buffers (hybrid w))) lev
                       (Arr3_map Some mfs'))))) /\
      evaluated_on_the_grid w lev edge mfs mfs'
        (Arr3_map (fun e x y z => Parser_compile e [x; y; z]) ps).
Proof.
  intros edge lev w mfs ps Ha Hp He.
  eexists. split; [exact (GetExternalBField_lev_run edge lev w mfs ps Ha Hp He)|].
  apply filled_evaluated.
Qed.

(** *** One dimension *)

(** The boxes of a one-dimensional build: one index per end. *)
Definition one_dim (ba : BoxArray) : Prop :=
  Forall (fun b => (List.length (smallEnd b) <= 1)%nat /\
                   (List.length (bigEnd b) <= 1)%nat) (ba_boxes ba).

Lemma IntVect_zip_length f a b :
  (List.length (IntVect_zip f a b) <= List.length a)%nat.
Proof.
  unfold IntVect_zip. rewrite length_map, length_combine. lia.
Qed.

Lemma tilebox_as_one_dim ba typ ng n bx i j k :
  one_dim ba ->
  tilebox_as ba typ ng n = Some bx ->
  Box_contains bx (i, j, k) = true ->
  j = 0 /\ k = 0.
Proof.
  intros H1 Hb Hc. unfold tilebox_as in Hb.
  destruct (nth_error (ba_boxes ba) n) as [b|] eqn:E; [|discriminate Hb].
  cbn in Hb. injection Hb as <-.
  apply nth_error_In in E.
  unfold one_dim in H1. rewrite Forall_forall in H1.
  destruct (H1 b E) as [Hs He].
  unfold Box_contains, in_range, Box_lo, Box_hi in Hc.
  cbn [smallEnd bigEnd Box_grow Box_convert] in Hc.
  pose proof (IntVect_zip_length Z.sub (smallEnd b) ng) as L1.
  pose proof (IntVect_zip_length Z.add (IntVect_zip Z.add (bigEnd b) typ) ng) as L2.
  pose proof (IntVect_zip_length Z.add (bigEnd b) typ) as L3.
  rewrite (nth_overflow _ 0 (n := 1)) in Hc by lia.
  rewrite (nth_overflow (IntVect_zip Z.add _ ng) 0 (n := 1)) in Hc by lia.
  rewrite (nth_overflow _ 0 (n := 2)) in Hc by lia.
  rewrite (nth_overflow (IntVect_zip Z.add _ ng) 0 (n := 2)) in Hc by lia.
  rewrite !andb_true_iff, !Z.leb_le in Hc. lia.
Qed.

(** The coordinate at which the kernels evaluate every cell of a
    one-dimensional box: the lower end of the domain plus the half-cell
    shift of a cell-centred field. *)
Definition z_of_every_cell (typ : IntVect) (dx_lev real_box_lo : list R) : R :=
  (rnth real_box_lo 0 + (1 - IZR (znth typ 0)) * rnth dx_lev 0 * 0.5)%R.

Lemma node_coords_one_dim typ dx lo i k :
  WARPX_DIM bld = DIM_1D_Z ->
  node_coords bld typ dx lo (i, 0, k) = (0%R, 0%R, z_of_every_cell typ dx lo).
Proof.
  intros Hd. unfold node_coords, z_of_every_cell. rewrite Hd.
  f_equal. cbn [IZR]. ring.
Qed.

Lemma filled_one_dim w lev edge mfs run ii n bx q :
  WARPX_DIM bld = DIM_1D_Z ->
  one_dim (boxArray (Arr3_x mfs)) ->
  tilebox_as (boxArray (Arr3_x mfs)) (ixType (Arr3_get mfs ii))
    (nGrowVect (Arr3_get mfs ii)) n = Some bx ->
  Box_contains bx q = true ->
  covered (Arr3_get (eb_edge edge) ii) n q = false ->
  fabdata (Arr3_get (filled w lev edge mfs run) ii) n q 0%nat
  = Arr3_get run ii 0%R 0%R
      (z_of_every_cell (ixType (Arr3_get mfs ii)) (Geom_CellSize w lev)
         (Geom_ProbLo w lev)).
Proof.
  intros Hd H1 Hb Hq Hc.
  rewrite filled_spec, Hb, Hq, Hc. cbn [andb negb Nat.eqb].
  destruct q as [[i j] k].
  destruct (tilebox_as_one_dim _ _ _ _ _ i j k H1 Hb Hq) as [-> ->].
  rewrite node_coords_one_dim by exact Hd. reflexivity.
Qed.

(** X13. In a one-dimensional build the kernels of [GetCurrentExternal] and
    [GetExternalBField] compute the z coordinate from the second grid index,
    which is 0 in every cell of a one-dimensional box: every uncovered cell
    of a box receives the value of its expression at the same point
    [(0, 0, z_lo + shift)], so the field written does not vary along the
    grid. *)
Theorem one_dimensional_build_evaluates_at_one_point :
  forall (edge : Arr3 (option MultiFab)) (lev : nat) (w : World)
         (mfs : Arr3 MultiFab) (ps : Arr3 Parser),
    WARPX_DIM bld = DIM_1D_Z ->
    one_dim (boxArray (Arr3_x mfs)) ->
    (AMREX_USE_EB bld = true -> is_alloc3 (Some edge) = true) ->
    let everywhere (mfs' : Arr3 MultiFab) (run : Arr3 (R -> R -> R -> R)) :=
      forall ii n bx q,
        tilebox_as (boxArray (Arr3_x mfs)) (ixType (Arr3_get mfs ii))
          (nGrowVect (Arr3_get mfs ii)) n = Some bx ->
        Box_contains bx q = true ->
        covered (Arr3_get (eb_edge edge) ii) n q = false ->
        fabdata (Arr3_get mfs' ii) n q 0%nat
        = Arr3_get run ii 0%R 0%R
            (z_of_every_cell (ixType (Arr3_get mfs ii)) (Geom_CellSize w lev)
               (Geom_ProbLo w lev)) in
    (nth_error (current_fp_external (buffers (hybrid w))) lev = Some (Arr3_map Some mfs) ->
     m_J_external_parser (compiled (hybrid w)) = Arr3_map Some ps ->
     exists mfs',
       GetCurrentExternal_lev bld edge lev w
       = Ok tt (set_hybrid w (set_buffers (hybrid w)
                  (set_current_fp_external (buffers (hybrid w))
                     (list_set (current_fp_external (buffers (hybrid w))) lev
                        (Arr3_map Some mfs'))))) /\
       everywhere mfs'
         (Arr3_map (fun e x y z => Parser_compile e [x; y; z; gett_new w lev]) ps))
    /\
    (nth_error (bfield_fp_external (buffers (hybrid w))) lev = Some (Arr3_map Some mfs) ->
     m_B_external_parser (compiled (hybrid w)) = Arr3_map Some ps ->
     exists mfs',
       GetExternalBField_lev bld edge lev w
       = Ok tt (set_hybrid w (set_buffers (hybrid w)
                  (set_bfield_fp_external (buffers (hybrid w))
                     (list_set (bfield_fp_external (buffers (hybrid w))) lev
                        (Arr3_map Some mfs'))))) /\
       everywhere mfs' (Arr3_map (fun e x y z => Parser_compile e [x; y; z]) ps)).
Proof.
  intros edge lev w mfs ps Hd H1 He everywhere. split.
  - intros Ha Hp. eexists.
    split; [exact (GetCurrentExternal_lev_run edge lev w mfs ps Ha Hp He)|].
    intros ii n bx q Hb Hq Hc. eapply filled_one_dim; eassumption.
  - intros Ha Hp. eexists.
    split; [exact (GetExternalBField_lev_run edge lev w mfs ps Ha Hp He)|].
    intros ii n bx q Hb Hq Hc. eapply filled_one_dim; eassumption.
Qed.

(** *** Evaluating again *)

Lemma filled_again w w1 lev edge mfs run :
  Geom_CellSize w1 = Geom_CellSize w -> Geom_ProbLo w1 = Geom_ProbLo w ->
  filled w1 lev edge (filled w lev edge mfs run) run = filled w lev edge mfs run.
Proof.
  intros Hdx Hlo.
  assert (Hc : forall ii,
             Arr3_get (filled w1 lev edge (filled w lev edge mfs run) run) ii
             = Arr3_get (filled w lev edge mfs run) ii).
  { intros ii.
    transitivity (with_fabdata (Arr3_get mfs ii)
                    (fabdata (Arr3_get (filled w1 lev edge
                                          (filled w lev edge mfs run) run) ii))).
    { destruct ii as [|[|ii]]; reflexivity. }
    transitivity (with_fabdata (Arr3_get mfs ii)
                    (fabdata (Arr3_get (filled w lev edge mfs run) ii))).
    2:{ destruct ii as [|[|ii]]; reflexivity. }
    apply MultiFab_ext. intros n q c.
    rewrite (filled_spec w1). rewrite Hdx, Hlo.
    replace (boxArray (Arr3_x (filled w lev edge mfs run)))
      with (boxArray (Arr3_x mfs)) by reflexivity.
    replace (ixType (Arr3_get (filled w lev edge mfs run) ii))
      with (ixType (Arr3_get mfs ii)) by (destruct ii as [|[|ii]]; reflexivity).
    replace (nGrowVect (Arr3_get (filled w lev edge mfs run) ii))
      with (nGrowVect (Arr3_get mfs ii)) by (destruct ii as [|[|ii]]; reflexivity).
    rewrite (filled_spec w).
    destruct (tilebox_as _ _ _ n) as [bx|]; [|reflexivity].
    destruct (Box_contains bx q && Nat.eqb c 0 && negb _); reflexivity. }
  pose proof (Hc 0%nat) as H0. pose proof (Hc 1%nat) as H1. pose proof (Hc 2%nat) as H2.
  cbn [Arr3_get] in H0, H1, H2.
  destruct (filled w1 lev edge (filled w lev edge mfs run) run) as [[a b] c].
  destruct (filled w lev edge mfs run) as [[a' b'] c'].
  cbn [Arr3_x Arr3_y Arr3_z fst snd] in H0, H1, H2. congruence.
Qed.

(** X14. Evaluating the external B field of a level a second time changes
    nothing: the second run of [GetExternalBField] returns the world the
    first one left.  The same holds for [GetCurrentExternal] on a level as
    long as the level's time has not changed. *)
Theorem external_field_evaluation_is_idempotent :
  forall (edge : Arr3 (option MultiFab)) (lev : nat) (w : World)
         (mfs : Arr3 MultiFab) (ps : Arr3 Parser),
    (AMREX_USE_EB bld = true -> is_alloc3 (Some edge) = true) ->
    (nth_error (bfield_fp_external (buffers (hybrid w))) lev = Some (Arr3_map Some mfs) ->
     m_B_external_parser (compiled (hybrid w)) = Arr3_map Some ps ->
     exists w1,
       GetExternalBField_lev bld edge lev w = Ok tt w1 /\
       GetExternalBField_lev bld edge lev w1 = Ok tt w1)
    /\
    (nth_error (current_fp_external (buffers (hybrid w))) lev = Some (Arr3_map Some mfs) ->
     m_J_external_parser (compiled (hybrid w)) = Arr3_map Some ps ->
     exists w1,
       GetCurrentExternal_lev bld edge lev w = Ok tt w1 /\
       GetCurrentExternal_lev bld edge lev w1 = Ok tt w1).
Proof.
  intros edge lev w mfs ps He. split; intros Ha Hp.
  - eexists. split; [exact (GetExternalBField_lev_run edge lev w mfs ps Ha Hp He)|].
    erewrite GetExternalBField_lev_run;
      [ | norm_world; eapply nth_error_list_set_eq; exact Ha
        | norm_world; exact Hp | exact He ].
    norm_world. rewrite list_set_twice.
    rewrite filled_again by reflexivity. reflexivity.
  - eexists. split; [exact (GetCurrentExternal_lev_run edge lev w mfs ps Ha Hp He)|].
    erewrite GetCurrentExternal_lev_run;
      [ | norm_world; eapply nth_error_list_set_eq; exact Ha
        | norm_world; exact Hp | exact He ].
    norm_world. rewrite list_set_twice.
    rewrite filled_again by reflexivity. reflexivity.
Qed.

(** ** The Ampere current and the Ohm's-law solve at any level *)

Ltac run_further :=
  first [ rewrite bind_bind
        | rewrite bind_get
        | rewrite bind_ret
        | rewrite bind_get_buffers
        | rewrite bind_emit
        | rewrite bind_modify
        | rewrite bind_put_buffers
        | rewrite bind_deref_Some
        | rewrite bind_deref3_Some
        | erewrite bind_at_level
            by (norm_world; rewrite ?list_set_twice;
                first [ eassumption
                      | eapply nth_error_list_set_eq; eassumption ]) ];
  norm_world; rewrite ?list_set_twice; norm_arr.

(** The Ampere current of a level after [CalculateCurrentAmpere]: the
    solver's stencil on the level's B field, then the boundary fill of each
    component. *)
Definition Ampere_current_of (lev : nat) (J : Arr3 MultiFab) (w : World) : Arr3 MultiFab :=
  Arr3_map (fun Ji => with_fabdata Ji (MultiFab_FillBoundary ext lev Ji))
    (overwrite3 J
       (fdtd_CalculateCurrentAmpere ext lev J (Bfield w lev) (edge_lengths w lev))).

Lemma CalculateCurrentAmpere_lev_run lev w J :
  nth_error (current_fp_ampere (buffers (hybrid w))) lev = Some (Arr3_map Some J) ->
  CalculateCurrentAmpere_lev ext lev w
  = Ok tt
      {| parm := parm w; finestLevel := finestLevel w; Geom_CellSize := Geom_CellSize w;
         Geom_ProbLo := Geom_ProbLo w; gett_new := gett_new w; current_fp := current_fp w;
         rho_fp := rho_fp w; Bfield := Bfield w; Efield := Efield w; Jfield := Jfield w;
         rhofield := rhofield w; edge_lengths := edge_lengths w;
         hybrid := set_buffers (hybrid w)
                     (set_current_fp_ampere (buffers (hybrid w))
                        (list_set (current_fp_ampere (buffers (hybrid w))) lev
                           (Arr3_map Some (Ampere_current_of lev J w))));
         log := log w ++ [ EvCalculateCurrentAmpere lev; EvFillBoundaryJ lev 0;
                           EvFillBoundaryJ lev 1; EvFillBoundaryJ lev 2 ] |}.
Proof.
  intros HJ. destruct J as [[Jx Jy] Jz].
  unfold Arr3_map in HJ. cbn [Arr3_x Arr3_y Arr3_z fst snd] in HJ.
  unfold CalculateCurrentAmpere_lev, assign_level_comp.
  cbn [for_range].
  repeat run_further.
  unfold Ampere_current_of. norm_world. norm_arr.
  rewrite <- !app_assoc. cbn [app].
  reflexivity.
Qed.

(** X15. With the Ampere-current buffer of a level allocated,
    [CalculateCurrentAmpere] for that level returns and writes that buffer
    only: it holds the solver's stencil applied to the level's B field,
    boundary-filled component by component, in the layout it had; the
    buffers of the other levels, the other buffers of the model, B, E and
    the parameters are untouched, and the log gains the stencil call and the
    three boundary fills in order. *)
Theorem CalculateCurrentAmpere_lev_writes_its_buffer_only :
  forall (lev : nat) (w : World) (J : Arr3 MultiFab),
    nth_error (current_fp_ampere (buffers (hybrid w))) lev = Some (Arr3_map Some J) ->
    exists w',
      CalculateCurrentAmpere_lev ext lev w = Ok tt w' /\
      nth_error (current_fp_ampere (buffers (hybrid w'))) lev
      = Some (Arr3_map Some (Ampere_current_of lev J w)) /\
      (forall ii, layout (Arr3_get (Ampere_current_of lev J w) ii)
                  = layout (Arr3_get J ii)) /\
      (forall lev', lev' <> lev ->
         nth_error (current_fp_ampere (buffers (hybrid w'))) lev'
         = nth_error (current_fp_ampere (buffers (hybrid w))) lev') /\
      frame_of w' = frame_of w /\
      Bfield w' = Bfield w /\ Efield w' = Efield w /\
      log w' = (log w ++ [ EvCalculateCurrentAmpere lev; EvFillBoundaryJ lev 0;
                           EvFillBoundaryJ lev 1; EvFillBoundaryJ lev 2 ])%list.
Proof.
  intros lev w J HJ.
  eexists. split; [exact (CalculateCurrentAmpere_lev_run lev w J HJ)|].
  cbn [hybrid buffers set_buffers current_fp_ampere set_current_fp_ampere
       Bfield Efield log].
  split; [eapply nth_error_list_set_eq; exact HJ|].
  split; [intros [|[|ii]]; reflexivity|].
  split; [intros lev' Hne; apply nth_error_list_set_neq; congruence|].
  repeat split; reflexivity.
Qed.

(** The E field of a level after the solve with a patch type: the solver's
    stencil, then the E boundary condition. *)
Definition solved_E (lev : nat) (patch_type : PatchType) (incl : bool) (Pe : MultiFab)
    (Jamp Jext Bext : Arr3 MultiFab) (w : World) : Arr3 MultiFab :=
  let E1 := overwrite3 (Efield w lev)
              (fdtd_HybridPICSolveE ext lev (Efield w lev) Jamp (Jfield w lev) Jext
                 (Bfield w lev) Bext (rhofield w lev) Pe (edge_lengths w lev)
                 (hybrid w) incl) in
  overwrite3 E1 (warpx_ApplyEfieldBoundary ext lev patch_type E1).

Lemma upd_same {A} (f : nat -> A) n a : upd f n a n = a.
Proof. unfold upd. rewrite Nat.eqb_refl. reflexivity. Qed.

Lemma HybridPICSolveE_patch_run lev patch_type incl w Pe Jamp Jext Bext :
  nth_error (electron_pressure_fp (buffers (hybrid w))) lev = Some (Some Pe) ->
  nth_error (current_fp_ampere (buffers (hybrid w))) lev = Some (Arr3_map Some Jamp) ->
  nth_error (current_fp_external (buffers (hybrid w))) lev = Some (Arr3_map Some Jext) ->
  nth_error (bfield_fp_external (buffers (hybrid w))) lev = Some (Arr3_map Some Bext) ->
  HybridPICSolveE_patch ext lev patch_type incl w
  = Ok tt
      {| parm := parm w; finestLevel := finestLevel w; Geom_CellSize := Geom_CellSize w;
         Geom_ProbLo := Geom_ProbLo w; gett_new := gett_new w; current_fp := current_fp w;
         rho_fp := rho_fp w; Bfield := Bfield w;
         Efield := upd (Efield w) lev
                     (solved_E lev patch_type incl Pe Jamp Jext Bext w);
         Jfield := Jfield w; rhofield := rhofield w; edge_lengths := edge_lengths w;
         hybrid := hybrid w;
         log := log w ++ [ EvHybridPICSolveE lev incl;
                           EvApplyEfieldBoundary lev patch_type ] |}.
Proof.
  intros HPe HJ HJe HBe.
  destruct Jamp as [[Jx Jy] Jz], Jext as [[Jex Jey] Jez], Bext as [[Bex Bey] Bez].
  unfold Arr3_map in HJ, HJe, HBe. cbn [Arr3_x Arr3_y Arr3_z fst snd] in HJ, HJe, HBe.
  unfold HybridPICSolveE_patch.
  repeat (first [ rewrite bind_bind | rewrite bind_get | rewrite bind_emit
                | rewrite bind_modify | rewrite bind_deref_Some
                | rewrite bind_deref3_Some
                | erewrite bind_at_level by (norm_world; eassumption) ];
          norm_world).
  unfold modify, solved_E. norm_world.
  rewrite !upd_same, upd_upd, <- !app_assoc. cbn [app].
  reflexivity.
Qed.

(** X16. The overload of [HybridPICSolveE] that takes a patch type has no
    level guard: with the buffers of the level allocated it returns for
    every level and either patch type.  It replaces the E field of that
    level by the solver's result with the E boundary condition applied, in
    the layout it had, and leaves the E field of the other levels, B and the
    model as they were. *)
Theorem HybridPICSolveE_patch_returns_at_any_level :
  forall (lev : nat) (patch_type : PatchType) (incl : bool) (w : World),
    push_ready (buffers (hybrid w)) lev = true ->
    exists (Pe : MultiFab) (Jamp Jext Bext : Arr3 MultiFab) (w' : World),
      nth_error (electron_pressure_fp (buffers (hybrid w))) lev = Some (Some Pe) /\
      nth_error (current_fp_ampere (buffers (hybrid w))) lev = Some (Arr3_map Some Jamp) /\
      nth_error (current_fp_external (buffers (hybrid w))) lev = Some (Arr3_map Some Jext) /\
      nth_error (bfield_fp_external (buffers (hybrid w))) lev = Some (Arr3_map Some Bext) /\
      HybridPICSolveE_patch ext lev patch_type incl w = Ok tt w' /\
      Efield w' lev = solved_E lev patch_type incl Pe Jamp Jext Bext w /\
      (forall ii, layout (Arr3_get (Efield w' lev) ii)
                  = layout (Arr3_get (Efield w lev) ii)) /\
      (forall lev', lev' <> lev -> Efield w' lev' = Efield w lev') /\
      Bfield w' = Bfield w /\ hybrid w' = hybrid w /\
      log w' = (log w ++ [ EvHybridPICSolveE lev incl;
                           EvApplyEfieldBoundary lev patch_type ])%list.
Proof.
  intros lev patch_type incl w Hr.
  destruct (push_ready_inv _ _ Hr)
    as (Pe & Jx & Jy & Jz & Jex & Jey & Jez & Bex & Bey & Bez & H1 & H2 & H3 & H4).
  exists Pe, (Jx, Jy, Jz), (Jex, Jey, Jez), (Bex, Bey, Bez).
  eexists. do 4 (split; [eassumption|]).
  split; [exact (HybridPICSolveE_patch_run lev patch_type incl w Pe (Jx, Jy, Jz)
                   (Jex, Jey, Jez) (Bex, Bey, Bez) H1 H2 H3 H4)|].
  cbn [Efield Bfield hybrid log].
  split; [unfold upd; rewrite Nat.eqb_refl; reflexivity|].
  split; [intros ii; unfold upd; rewrite Nat.eqb_refl;
          destruct ii as [|[|ii]]; reflexivity|].
  split; [intros lev' Hne; unfold upd;
          destruct (Nat.eqb_spec lev' lev); [contradiction|reflexivity]|].
  repeat split; reflexivity.
Qed.

(** ** Mesh refinement *)

Lemma for_range_never_Ok (body : nat -> M unit) (lev : nat) :
  (forall w a w', body lev w <> Ok a w') ->
  forall count from w w',
    (from <= lev < from + count)%nat ->
    for_range body from count w <> Ok tt w'.
Proof.
  intros Hb. induction count as [|c IH]; intros from w w' Hlev; [lia|].
  cbn [for_range]. unfold bind.
  destruct (body from w) as [a w1| |] eqn:E; try discriminate.
  destruct (Nat.eq_dec from lev) as [->|Hne].
  - exfalso. exact (Hb _ _ _ E).
  - apply IH. lia.
Qed.

Lemma HybridPICSolveE_lev_never_Ok lev incl w a w' :
  (0 < lev)%nat -> HybridPICSolveE_lev ext lev incl w <> Ok a w'.
Proof.
  intros Hlev. unfold HybridPICSolveE_lev, bind.
  destruct (HybridPICSolveE_patch ext lev PatchType_fine incl w); try discriminate.
  replace (0 <? lev)%nat with true by (symmetry; apply Nat.ltb_lt; exact Hlev).
  discriminate.
Qed.

Lemma HybridPICSolveE_never_Ok incl w w' :
  (1 <= finestLevel w)%nat -> HybridPICSolveE ext incl w <> Ok tt w'.
Proof.
  intros Hf. unfold HybridPICSolveE, for_levels. rewrite bind_get.
  apply (for_range_never_Ok _ 1%nat); [|lia].
  intros w0 a w0'. apply HybridPICSolveE_lev_never_Ok. lia.
Qed.

Lemma FieldPush_never_Ok dt dt_type ng nodal_sync w w' :
  (1 <= finestLevel w)%nat -> FieldPush ext dt dt_type ng nodal_sync w <> Ok tt w'.
Proof.
  intros Hf H. unfold FieldPush in H.
  apply bind_Ok_inv in H. destruct H as (a & w1 & H1 & H).
  apply bind_Ok_inv in H. destruct H as (a2 & w2 & H2 & _).
  assert (Hk : frame_of w1 = frame_of w).
  { pose proof (kf_for_levels w (CalculateCurrentAmpere_lev ext)
                  (fun lev => kf_CalculateCurrentAmpere_lev ext w lev) w eq_refl) as Hk.
    unfold CalculateCurrentAmpere in H1. rewrite H1 in Hk. exact Hk. }
  assert (Hf1 : finestLevel w1 = finestLevel w).
  { unfold frame_of, world_frame in Hk. congruence. }
  destruct a2. revert H2. apply HybridPICSolveE_never_Ok. lia.
Qed.

(** X17. The hybrid solver does not run with mesh refinement: when the
    hierarchy has a level above 0, neither the Ohm's-law solve over the
    levels, nor a field push, nor the Runge-Kutta sub-cycle (per level or
    over the levels) ever returns normally, whatever the state of the
    buffers. *)
Theorem refinement_stops_the_field_update :
  forall (w : World) (dt : R) (dt_type : DtType) (ng : IntVect)
         (nodal_sync : option bool) (incl : bool),
    (1 <= finestLevel w)%nat ->
    (forall w', HybridPICSolveE ext incl w <> Ok tt w') /\
    (forall w', FieldPush ext dt dt_type ng nodal_sync w <> Ok tt w') /\
    (forall lev w', BfieldEvolveRK_lev ext dt lev dt_type ng nodal_sync w <> Ok tt w') /\
    (forall w', BfieldEvolveRK ext dt dt_type ng nodal_sync w <> Ok tt w').
Proof.
  intros w dt dt_type ng nodal_sync incl Hf.
  assert (Hlev : forall lev w',
             BfieldEvolveRK_lev ext dt lev dt_type ng nodal_sync w <> Ok tt w').
  { intros lev w' H. unfold BfieldEvolveRK_lev in H. rewrite bind_get in H.
    cbv zeta in H. apply bind_Ok_inv in H. destruct H as ([] & w1 & H & _).
    revert H. apply FieldPush_never_Ok. exact Hf. }
  split; [intros w'; apply HybridPICSolveE_never_Ok; exact Hf|].
  split; [intros w'; apply FieldPush_never_Ok; exact Hf|].
  split; [exact Hlev|].
  intros w' H. unfold BfieldEvolveRK, for_levels in H. rewrite bind_get in H.
  cbn [for_range] in H. apply bind_Ok_inv in H. destruct H as ([] & w1 & H & _).
  exact (Hlev _ _ H).
Qed.




(** ** The sub-cycle as a sequence of pushes *)

Lemma FieldPush_step h dt_type ng nodal_sync wa wb :
  finestLevel wa = 0%nat ->
  push_ready (buffers (hybrid wa)) 0 = true ->
  FieldPush ext h dt_type ng nodal_sync wa = Ok tt wb ->
  finestLevel wb = 0%nat /\
  push_ready (buffers (hybrid wb)) 0 = true /\
  (forall lev ii, layout (Arr3_get (Bfield wb lev) ii)
                  = layout (Arr3_get (Bfield wa lev) ii)) /\
  log wb = (log wa ++ FieldPush_events h dt_type ng nodal_sync)%list.
Proof.
  intros Hf Hr Hp.
  destruct (FieldPush_returns ext h dt_type ng nodal_sync wa Hf Hr)
    as (wb' & Hpb & Hfb & Hrb & Hlb & Hlog).
  rewrite Hp in Hpb. injection Hpb as <-.
  split; [unfold frame_of, world_frame in Hfb; congruence|].
  split; [exact Hrb|]. split; [exact Hlb | exact Hlog].
Qed.

Lemma layout_with_B0_restart ng ws w K lev ii :
  layout (Arr3_get (Bfield (with_B0 ws (Arr3_map3 (restart_from ng) (Bfield ws 0)
                                          (Bfield w 0) K)) lev) ii)
  = layout (Arr3_get (Bfield ws lev) ii).
Proof.
  unfold with_B0. cbn [Bfield set_Bfield]. unfold upd.
  destruct (Nat.eqb_spec lev 0) as [->|Hne]; [|reflexivity].
  destruct ii as [|[|ii]]; reflexivity.
Qed.

(** X19. On a single level with the buffers of level 0 allocated, the
    Runge-Kutta sub-cycle returns after exactly four field pushes, with the
    steps dt/2, dt/2, dt and dt/2 in this order and nothing else logged
    between them; the B field keeps the layout of each of its components and
    the buffers stay allocated, so the sub-cycle can be run again. *)
Theorem BfieldEvolveRK_is_four_field_pushes :
  forall (w : World) (dt : R) (dt_type : DtType) (ng : IntVect)
         (nodal_sync : option bool),
    finestLevel w = 0%nat ->
    push_ready (buffers (hybrid w)) 0 = true ->
    exists wf,
      BfieldEvolveRK ext dt dt_type ng nodal_sync w = Ok tt wf /\
      log wf = (log w ++ FieldPush_events (0.5 * dt) dt_type ng nodal_sync
                      ++ FieldPush_events (0.5 * dt) dt_type ng nodal_sync
                      ++ FieldPush_events dt dt_type ng nodal_sync
                      ++ FieldPush_events (0.5 * dt) dt_type ng nodal_sync)%list /\
      (forall lev ii, layout (Arr3_get (Bfield wf lev) ii)
                      = layout (Arr3_get (Bfield w lev) ii)) /\
      finestLevel wf = 0%nat /\
      push_ready (buffers (hybrid wf)) 0 = true.
Proof.
  intros w dt dt_type ng nodal_sync Hf Hr.
  destruct (BfieldEvolveRK_lev_stages ext dt dt_type ng nodal_sync w Hf Hr)
    as (s & Hst & Hrun & _).
  destruct Hst as (Hp1 & Hp2 & Hi3 & Hp3 & Hi4 & Hp4).
  destruct (FieldPush_step _ _ _ _ _ _ Hf Hr Hp1) as (F1 & R1 & L1 & G1).
  destruct (FieldPush_step _ _ _ _ _ _ F1 R1 Hp2) as (F2 & R2 & L2 & G2).
  assert (F3 : finestLevel (in3 s) = 0%nat) by (rewrite Hi3; exact F2).
  assert (R3 : push_ready (buffers (hybrid (in3 s))) 0 = true)
    by (rewrite Hi3; exact R2).
  assert (G3 : log (in3 s) = log (out2 s)) by (rewrite Hi3; reflexivity).
  assert (L3 : forall lev ii, layout (Arr3_get (Bfield (in3 s) lev) ii)
                              = layout (Arr3_get (Bfield (out2 s) lev) ii))
    by (intros lev ii; rewrite Hi3; apply layout_with_B0_restart).
  destruct (FieldPush_step _ _ _ _ _ _ F3 R3 Hp3) as (F3' & R3' & L3' & G3').
  assert (F4 : finestLevel (in4 s) = 0%nat) by (rewrite Hi4; exact F3').
  assert (R4 : push_ready (buffers (hybrid (in4 s))) 0 = true)
    by (rewrite Hi4; exact R3').
  assert (G4 : log (in4 s) = log (out3 s)) by (rewrite Hi4; reflexivity).
  assert (L4 : forall lev ii, layout (Arr3_get (Bfield (in4 s) lev) ii)
                              = layout (Arr3_get (Bfield (out3 s) lev) ii))
    by (intros lev ii; rewrite Hi4; apply layout_with_B0_restart).
  destruct (FieldPush_step _ _ _ _ _ _ F4 R4 Hp4) as (F4' & R4' & L4' & G4').
  exists (with_B0 (out4 s) (RK_final ng w s)).
  split; [apply for_levels_single_run; [exact Hf | exact Hrun]|].
  split.
  { change (log (with_B0 (out4 s) (RK_final ng w s))) with (log (out4 s)).
    rewrite G4', G4, G3', G3, G2, G1. rewrite <- !app_assoc. reflexivity. }
  split.
  { intros lev ii. unfold RK_final. rewrite layout_with_B0_restart.
    rewrite L4', L4, L3', L3, L2, L1. reflexivity. }
  split; [exact F4' | exact R4'].
Qed.

(** ** The electron pressure of a level *)

(** The pressure field after [CalculateElectronPressure]: the equation of
    state of the density [rho] in the valid cells, then the pressure boundary
    condition, then the boundary fill. *)
Definition pressure_of (lev : nat) (Pe rho : MultiFab) (w : World) : MultiFab :=
  let P1 := FillElectronPressureMF (hybrid w) Pe rho in
  let P2 := with_fabdata P1
              (warpx_ApplyElectronPressureBoundary ext lev PatchType_fine P1) in
  with_fabdata P2 (MultiFab_FillBoundary ext lev P2).

(** X20. [CalculateElectronPressure] for a level whose pressure buffer is
    allocated takes the density of the full step from the simulation's
    [rho_fp] (the scratch density of the model need not be allocated) and the
    density of the two half steps from the model's [rho_fp_temp]; it returns,
    replaces the pressure buffer of that level, in the layout it had, and
    changes nothing else. *)
Theorem CalculateElectronPressure_lev_density_by_step :
  forall (lev : nat) (a_dt_type : DtType) (w : World) (Pe : MultiFab),
    nth_error (electron_pressure_fp (buffers (hybrid w))) lev = Some (Some Pe) ->
    (a_dt_type <> DtType_Full ->
     is_alloc (nth_error (rho_fp_temp (buffers (hybrid w))) lev) = true) ->
    exists rho,
      (a_dt_type = DtType_Full -> rho = rho_fp w lev) /\
      (a_dt_type <> DtType_Full ->
       nth_error (rho_fp_temp (buffers (hybrid w))) lev = Some (Some rho)) /\
      CalculateElectronPressure_lev ext lev a_dt_type w
      = Ok tt (set_hybrid w (set_buffers (hybrid w)
                 (set_electron_pressure_fp (buffers (hybrid w))
                    (list_set (electron_pressure_fp (buffers (hybrid w))) lev
                       (Some (pressure_of lev Pe rho w)))))) /\
      layout (pressure_of lev Pe rho w) = layout Pe.
Proof.
  intros lev a_dt_type w Pe HPe Hrho.
  assert (Hin : in_rangeb (electron_pressure_fp (buffers (hybrid w))) lev = true)
    by (unfold in_rangeb; rewrite HPe; reflexivity).
  destruct a_dt_type.
  - exists (rho_fp w lev). split; [reflexivity|]. split; [congruence|].
    split; [|reflexivity].
    unfold CalculateElectronPressure_lev. rewrite bind_get. cbv zeta.
    rewrite (bind_at_level _ _ _ _ _ HPe). cbv beta.
    rewrite bind_deref_Some, bind_ret.
    apply assign_level_run. exact Hin.
  - destruct (is_alloc_true _ (Hrho ltac:(discriminate))) as [rho Hr].
    exists rho. split; [discriminate|]. split; [intros _; exact Hr|].
    split; [|reflexivity].
    unfold CalculateElectronPressure_lev. rewrite bind_get. cbv zeta.
    rewrite (bind_at_level _ _ _ _ _ HPe). cbv beta.
    rewrite bind_deref_Some, !bind_bind, (bind_at_level _ _ _ _ _ Hr). cbv beta.
    rewrite bind_bind, bind_deref_Some, bind_ret.
    apply assign_level_run. exact Hin.
  - destruct (is_alloc_true _ (Hrho ltac:(discriminate))) as [rho Hr].
    exists rho. split; [discriminate|]. split; [intros _; exact Hr|].
    split; [|reflexivity].
    unfold CalculateElectronPressure_lev. rewrite bind_get. cbv zeta.
    rewrite (bind_at_level _ _ _ _ _ HPe). cbv beta.
    rewrite bind_deref_Some, !bind_bind, (bind_at_level _ _ _ _ _ Hr). cbv beta.
    rewrite bind_bind, bind_deref_Some, bind_ret.
    apply assign_level_run. exact Hin.
Qed.

(** ** Initialization of the external fields from their expressions *)

Lemma eb_edge_twice edge :
  eb_edge (if AMREX_USE_EB bld then edge else null3) = eb_edge edge.
Proof. unfold eb_edge. destruct (AMREX_USE_EB bld); reflexivity. Qed.

Lemma filled_eb_edge w lev edge mfs run :
  filled w lev (if AMREX_USE_EB bld then edge else null3) mfs run
  = filled w lev edge mfs run.
Proof. unfold filled. rewrite eb_edge_twice. reflexivity. Qed.

(** The executors of the three expressions [texts] with the variables
    [vars], the time (if any) bound to [args]. *)
Definition executors (texts : Arr3 string) (vars : list string) (args : list R)
  : Arr3 (R -> R -> R -> R) :=
  Arr3_map (fun text x y z => Parser_compile (makeParser ext text vars) ([x; y; z] ++ args))
    texts.

(** X21. On a single level with Yee-staggered fields and the external
    buffers of level 0 allocated, [InitData] with the style
    [parse_b_ext_grid_function] returns with both external fields evaluated
    from the texts of their expressions: the external current at the
    simulation's current time, whether or not it depends on time, and the
    external B field; the style is printed once and nothing else is logged. *)
Theorem InitData_evaluates_both_external_fields :
  forall (w : World) (mfsJ mfsB : Arr3 MultiFab),
    finestLevel w = 0%nat ->
    appropriate_grids bld w = true ->
    B_ext_grid_s (params (hybrid w)) = "parse_b_ext_grid_function" ->
    nth_error (current_fp_external (buffers (hybrid w))) 0 = Some (Arr3_map Some mfsJ) ->
    nth_error (bfield_fp_external (buffers (hybrid w))) 0 = Some (Arr3_map Some mfsB) ->
    (AMREX_USE_EB bld = true -> is_alloc3 (Some (edge_lengths w 0%nat)) = true) ->
    let p := params (hybrid w) in
    exists (w' : World) (mfsJ' mfsB' : Arr3 MultiFab),
      InitData bld ext w = Ok tt w' /\
      nth_error (current_fp_external (buffers (hybrid w'))) 0
      = Some (Arr3_map Some mfsJ') /\
      nth_error (bfield_fp_external (buffers (hybrid w'))) 0
      = Some (Arr3_map Some mfsB') /\
      evaluated_on_the_grid w 0 (edge_lengths w 0%nat) mfsJ mfsJ'
        (executors (m_Jx_ext_grid_function p, m_Jy_ext_grid_function p,
                    m_Jz_ext_grid_function p) xyzt [gett_new w 0%nat]) /\
      evaluated_on_the_grid w 0 (edge_lengths w 0%nat) mfsB mfsB'
        (executors (m_Bx_ext_grid_function p, m_By_ext_grid_function p,
                    m_Bz_ext_grid_function p) ["x"; "y"; "z"] []) /\
      log w' = (log w ++ [EvPrint "parse_b_ext_grid_function"])%list.
Proof.
  intros w mfsJ mfsB Hf Hy Hs HJ HB He. cbv zeta.
  assert (He' : AMREX_USE_EB bld = true ->
                is_alloc3 (Some (if AMREX_USE_EB bld then edge_lengths w 0%nat
                                 else null3)) = true).
  { intros Heb. rewrite Heb. apply He. exact Heb. }
  unfold InitData. rewrite bind_get. cbv zeta.
  rewrite Hs.
  change (String.eqb "parse_b_ext_grid_function" "parse_b_ext_grid_function") with true.
  change (String.eqb "parse_b_ext_grid_function" "read_from_file") with false.
  unfold put_compiled. rewrite bind_modify.
  unfold appropriate_grids in Hy. cbv zeta in Hy. rewrite Hy.
  unfold WARPX_ALWAYS_ASSERT_WITH_MESSAGE. rewrite bind_ret, bind_modify.
  eexists.
  exists (filled w 0 (edge_lengths w 0%nat) mfsJ
            (executors (m_Jx_ext_grid_function (params (hybrid w)),
                        m_Jy_ext_grid_function (params (hybrid w)),
                        m_Jz_ext_grid_function (params (hybrid w)))
               xyzt [gett_new w 0%nat])).
  exists (filled w 0 (edge_lengths w 0%nat) mfsB
            (executors (m_Bx_ext_grid_function (params (hybrid w)),
                        m_By_ext_grid_function (params (hybrid w)),
                        m_Bz_ext_grid_function (params (hybrid w)))
               ["x"; "y"; "z"] [])).
  split.
  { apply for_levels_single_run; [exact Hf|].
    rewrite bind_get. norm_world.
    erewrite bind_Ok;
      [ | apply (GetCurrentExternal_lev_run _ 0%nat _ mfsJ
                   (makeParser ext (m_Jx_ext_grid_function (params (hybrid w))) xyzt,
                    makeParser ext (m_Jy_ext_grid_function (params (hybrid w))) xyzt,
                    makeParser ext (m_Jz_ext_grid_function (params (hybrid w))) xyzt));
          [ norm_world; exact HJ | norm_world; reflexivity | exact He' ] ].
    unfold Print. rewrite !bind_bind, bind_emit.
    erewrite bind_Ok;
      [ | apply (GetExternalBField_lev_run _ 0%nat _ mfsB
                   (makeParser ext (m_Bx_ext_grid_function (params (hybrid w)))
                      ["x"; "y"; "z"],
                    makeParser ext (m_By_ext_grid_function (params (hybrid w)))
                      ["x"; "y"; "z"],
                    makeParser ext (m_Bz_ext_grid_function (params (hybrid w)))
                      ["x"; "y"; "z"]));
          [ norm_world; exact HB | norm_world; reflexivity | exact He' ] ].
    unfold ret. norm_world. rewrite !filled_eb_edge.
    reflexivity. }
  cbn [hybrid buffers current_fp_external bfield_fp_external log].
  split; [erewrite nth_error_list_set_eq by exact HJ; reflexivity|].
  split; [erewrite nth_error_list_set_eq by exact HB; reflexivity|].
  split; [apply filled_evaluated|]. split; [apply filled_evaluated|].
  reflexivity.
Qed.

(** X10. In a build that cannot read field files (1D, XZ, or without
    openPMD support), [InitData] with the style [read_from_file] aborts with
    the stub's message at level 0, whether or not the external-B buffers of
    the level are allocated: the stub does not look at the pointer it is
    given.  The abort comes after the external current of the level has been
    evaluated from the texts of its expressions and the style printed, and
    before any external-B buffer is written. *)
Theorem InitData_read_from_file_needs_a_reader :
  forall (w : World) (msg : string) (mfsJ : Arr3 MultiFab),
    B_ext_grid_s (params (hybrid w)) = "read_from_file" ->
    no_file_reader bld = Some msg ->
    appropriate_grids bld w = true ->
    nth_error (current_fp_external (buffers (hybrid w))) 0 = Some (Arr3_map Some mfsJ) ->
    (AMREX_USE_EB bld = true -> is_alloc3 (Some (edge_lengths w 0%nat)) = true) ->
    in_rangeb (bfield_fp_external (buffers (hybrid w))) 0 = true ->
    let p := params (hybrid w) in
    exists (w' : World) (mfsJ' : Arr3 MultiFab),
      InitData bld ext w = Abort msg w' /\
      nth_error (current_fp_external (buffers (hybrid w'))) 0
      = Some (Arr3_map Some mfsJ') /\
      evaluated_on_the_grid w 0 (edge_lengths w 0%nat) mfsJ mfsJ'
        (executors (m_Jx_ext_grid_function p, m_Jy_ext_grid_function p,
                    m_Jz_ext_grid_function p) xyzt [gett_new w 0%nat]) /\
      bfield_fp_external (buffers (hybrid w'))
      = bfield_fp_external (buffers (hybrid w)) /\
      log w' = (log w ++ [EvPrint "read_from_file"])%list.
Proof.
  intros w msg mfsJ Hs Hstub Hy HJ He HB. cbv zeta.
  assert (He' : AMREX_USE_EB bld = true ->
                is_alloc3 (Some (if AMREX_USE_EB bld then edge_lengths w 0%nat
                                 else null3)) = true).
  { intros Heb. rewrite Heb. apply He. exact Heb. }
  destruct (nth_error (bfield_fp_external (buffers (hybrid w))) 0) as [mfsB|] eqn:HBl;
    [|unfold in_rangeb in HB; rewrite HBl in HB; discriminate HB].
  unfold InitData. rewrite bind_get. cbv zeta.
  rewrite Hs.
  change (String.eqb "read_from_file" "parse_b_ext_grid_function") with false.
  change (String.eqb "read_from_file" "read_from_file") with true.
  unfold put_compiled. rewrite bind_modify.
  unfold appropriate_grids in Hy. cbv zeta in Hy. rewrite Hy.
  unfold WARPX_ALWAYS_ASSERT_WITH_MESSAGE. rewrite bind_ret, bind_modify.
  unfold for_levels. rewrite bind_get.
  cbn [for_range].
  eexists.
  exists (filled w 0 (edge_lengths w 0%nat) mfsJ
            (executors (m_Jx_ext_grid_function (params (hybrid w)),
                        m_Jy_ext_grid_function (params (hybrid w)),
                        m_Jz_ext_grid_function (params (hybrid w)))
               xyzt [gett_new w 0%nat])).
  split.
  { apply bind_Abort. rewrite bind_get. norm_world.
    erewrite bind_Ok;
      [ | apply (GetCurrentExternal_lev_run _ 0%nat _ mfsJ
                   (makeParser ext (m_Jx_ext_grid_function (params (hybrid w))) xyzt,
                    makeParser ext (m_Jy_ext_grid_function (params (hybrid w))) xyzt,
                    makeParser ext (m_Jz_ext_grid_function (params (hybrid w))) xyzt));
          [ norm_world; exact HJ | norm_world; reflexivity | exact He' ] ].
    rewrite bind_ret.
    unfold Print. rewrite ?bind_bind, bind_emit.
    cbn [for_range]. rewrite ?bind_bind, bind_get_buffers.
    norm_world. rewrite ?bind_bind.
    rewrite (bind_at_level _ _ _ _ _ HBl).
    rewrite ?bind_bind.
    apply bind_Abort.
    rewrite (ReadExternalBFieldFromFile_stub msg) by exact Hstub.
    rewrite filled_eb_edge. reflexivity. }
  cbn [hybrid buffers current_fp_external bfield_fp_external log].
  split; [erewrite nth_error_list_set_eq by exact HJ; reflexivity|].
  split; [apply filled_evaluated|].
  split; reflexivity.
Qed.

(** X22. When one of the three current expressions mentions [t], every call
    of [GetCurrentExternal] after a returning [InitData] evaluates the
    external current again, at the time the level has at that call: on a
    single level with the buffers of level 0 allocated it returns with the
    three components evaluated from the texts at that time. *)
Theorem time_dependent_current_is_evaluated_at_every_call :
  forall (w w1 w2 : World) (mfs : Arr3 MultiFab),
    InitData bld ext w = Ok tt w1 ->
    let p := params (hybrid w) in
    In "t" (Parser_symbols (makeParser ext (m_Jx_ext_grid_function p) xyzt)) \/
    In "t" (Parser_symbols (makeParser ext (m_Jy_ext_grid_function p) xyzt)) \/
    In "t" (Parser_symbols (makeParser ext (m_Jz_ext_grid_function p) xyzt)) ->
    compiled (hybrid w2) = compiled (hybrid w1) ->
    finestLevel w2 = 0%nat ->
    nth_error (current_fp_external (buffers (hybrid w2))) 0 = Some (Arr3_map Some mfs) ->
    (AMREX_USE_EB bld = true -> is_alloc3 (Some (edge_lengths w2 0%nat)) = true) ->
    exists mfs',
      GetCurrentExternal bld w2
      = Ok tt (set_hybrid w2 (set_buffers (hybrid w2)
                 (set_current_fp_external (buffers (hybrid w2))
                    (list_set (current_fp_external (buffers (hybrid w2))) 0
                       (Arr3_map Some mfs'))))) /\
      evaluated_on_the_grid w2 0 (edge_lengths w2 0%nat) mfs mfs'
        (executors (m_Jx_ext_grid_function p, m_Jy_ext_grid_function p,
                    m_Jz_ext_grid_function p) xyzt [gett_new w2 0%nat]).
Proof.
  intros w w1 w2 mfs Hinit p Ht Hc Hf Ha He.
  destruct (InitData_Ok_compiled w w1 Hinit) as (_ & _ & Hflag & _).
  destruct (InitData_compiled bld ext w w1 Hinit) as [Hpars _].
  assert (Hset : m_external_field_has_time_dependence (compiled (hybrid w2)) = true).
  { rewrite Hc, Hflag. unfold mentions. fold p.
    destruct Ht as [Ht|[Ht|Ht]];
      repeat match goal with
             | |- context [ in_dec string_dec ?s ?l ] =>
                 destruct (in_dec string_dec s l)
             end;
      try contradiction; rewrite ?orb_true_r; reflexivity. }
  exists (filled w2 0 (edge_lengths w2 0%nat) mfs
            (executors (m_Jx_ext_grid_function p, m_Jy_ext_grid_function p,
                        m_Jz_ext_grid_function p) xyzt [gett_new w2 0%nat])).
  split; [|apply filled_evaluated].
  unfold GetCurrentExternal. rewrite bind_get, Hset. cbn [negb].
  apply for_levels_single_run; [exact Hf|].
  rewrite bind_get.
  apply (GetCurrentExternal_lev_run (edge_lengths w2 0%nat) 0%nat w2 mfs
           (makeParser ext (m_Jx_ext_grid_function p) xyzt,
            makeParser ext (m_Jy_ext_grid_function p) xyzt,
            makeParser ext (m_Jz_ext_grid_function p) xyzt)); [exact Ha| |exact He].
  rewrite Hc, Hpars. reflexivity.
Qed.

End Further.

(** ** The further properties on concrete runs *)

(** X2 on the demo input that gives [elec_temp = 10] and a style. *)
Lemma ReadParameters_stores_given_or_previous_witness :
  exists w',
    ReadParameters demo_ext (demo_world pp_unknown_style 0) = Ok tt w' /\
    m_elec_temp (params (hybrid w')) = (10 * q_e demo_ext)%R /\
    m_substeps (params (hybrid w')) = 50 /\
    B_ext_grid_s (params (hybrid w')) = "from_a_crystal_ball".
Proof.
  destruct (ReadParameters_returns demo_ext (demo_world pp_unknown_style 0) 10%R
              eq_refl (or_introl eq_refl)) as [w' H].
  exists w'. split; [exact H|].
  destruct (ReadParameters_stores_given_or_previous demo_ext _ _ H)
    as ((te & Hte & E) & Hsub & _ & _ & _ & _ & _ & _ & _ & _ & _ & _ & _ & Hs).
  cbn in Hte. injection Hte as <-.
  split; [exact E|]. split; [exact Hsub | exact Hs].
Defined.

(** X3 on the same input: a path given with another style is not read. *)
Lemma ReadParameters_reads_path_witness :
  exists w',
    ReadParameters demo_ext (demo_world pp_unknown_style 0) = Ok tt w' /\
    external_fields_path (params (hybrid w')) = "" /\
    log w' = [EvPrint "from_a_crystal_ball"].
Proof.
  destruct (ReadParameters_returns demo_ext (demo_world pp_unknown_style 0) 10%R
              eq_refl (or_introl eq_refl)) as [w' H].
  exists w'. split; [exact H|].
  pose proof (ReadParameters_style_unchecked demo_ext (demo_world pp_unknown_style 0))
    as Hs.
  rewrite H in Hs. destruct Hs as [Hs _]. cbn in Hs.
  destruct (ReadParameters_reads_path_for_read_from_file_only demo_ext _ _ H)
    as (Hother & _ & _ & _).
  cbv zeta in Hother. rewrite Hs in Hother.
  destruct Hother as [Hp Hl]; [intros E; discriminate E|].
  split; [exact Hp | exact Hl].
Defined.

Lemma demo_ctor_run :
  HybridPICModel_ctor demo_ext 1 (demo_world pp_unknown_style 0) = Ok tt demo_styled.
Proof.
  unfold HybridPICModel_ctor, ReadParameters, bind, get, put_params, modify, emit,
    amrex_Abort, ret.
  cbn [parm demo_world pp_unknown_style pp_real pp_str pp_int hybrid query
       String.eqb Ascii.eqb Bool.eqb fst snd negb].
  destruct (Req_dec_T _ 1) as [_|Hne]; [|exfalso; apply Hne; reflexivity].
  vm_compute. reflexivity.
Qed.

(** X5 on the demo input: one level, nothing allocated. *)
Lemma ctor_makes_empty_levels_witness :
  HybridPICModel_ctor demo_ext 1 (demo_world pp_unknown_style 0) = Ok tt demo_styled /\
  nth_error (bfield_fp_external (buffers (hybrid demo_styled))) 0 = Some null3 /\
  level_exists (buffers (hybrid demo_styled)) 0 = true /\
  level_exists (buffers (hybrid demo_styled)) 1 = false /\
  push_ready (buffers (hybrid demo_styled)) 0 = false.
Proof.
  split; [exact demo_ctor_run|].
  pose proof (ctor_makes_empty_levels demo_ext 1 (demo_world pp_unknown_style 0)
                demo_styled eq_refl demo_ctor_run) as H.
  destruct (H 0%nat) as (H0 & L0 & R0).
  destruct (H 1%nat) as (_ & L1 & _).
  destruct (H0 ltac:(lia)) as (_ & _ & _ & _ & _ & HB).
  split; [exact HB|]. split; [exact L0|]. split; [exact L1 | exact R0].
Defined.

(** X6 on the demo world with level 0 allocated. *)
Lemma ClearLevel_touches_its_level_only_witness :
  level_exists (buffers (hybrid demo_ready)) 0 = true /\
  exists w',
    ClearLevel 0 demo_ready = Ok tt w' /\
    Bfield w' = Bfield demo_ready /\ log w' = log demo_ready /\
    ClearLevel 0 w' = Ok tt w'.
Proof.
  assert (H : level_exists (buffers (hybrid demo_ready)) 0 = true)
    by (vm_compute; reflexivity).
  split; [exact H|].
  destruct (ClearLevel_touches_its_level_only 0 demo_ready H)
    as (w' & Hrun & _ & _ & _ & _ & HB & _ & Hl & Hagain).
  exists w'. split; [exact Hrun|]. split; [exact HB|]. split; [exact Hl | exact Hagain].
Defined.

(** The demo world with the B field in the place of E: not a Yee grid. *)
Definition demo_unstaggered : World := set_Efield demo_ready (fun _ => demo_B).

(** X7 on that world. *)
Lemma InitData_aborts_off_the_Yee_grid_witness :
  appropriate_grids demo_build demo_unstaggered = false /\
  exists w',
    InitData demo_build demo_ext demo_unstaggered = Abort msg_yee w' /\
    buffers (hybrid w') = buffers (hybrid demo_unstaggered).
Proof.
  assert (H : appropriate_grids demo_build demo_unstaggered = false)
    by (vm_compute; reflexivity).
  split; [exact H|].
  destruct (InitData_aborts_off_the_Yee_grid demo_build demo_ext demo_unstaggered H)
    as (w' & Hrun & Hb & _).
  exists w'. split; [exact Hrun | exact Hb].
Defined.

(** The run of [InitData] on the demo world with the current [(2 x, x, 0)]. *)
Lemma demo_J_InitData :
  InitData demo_build demo_ext demo_J_world
  = Ok tt (final_world (InitData demo_build demo_ext demo_J_world)).
Proof. vm_compute. reflexivity. Qed.

(** X8 on that run: the 3D descriptors. *)
Lemma InitData_stores_Yee_index_types_witness :
  InitData demo_build demo_ext demo_J_world
  = Ok tt (final_world (InitData demo_build demo_ext demo_J_world)) /\
  E_IndexType (compiled (hybrid (final_world
                 (InitData demo_build demo_ext demo_J_world))))
  = ([0; 1; 1], [1; 0; 1], [1; 1; 0]) /\
  B_IndexType (compiled (hybrid (final_world
                 (InitData demo_build demo_ext demo_J_world))))
  = ([1; 0; 0], [0; 1; 0], [0; 0; 1]).
Proof.
  split; [exact demo_J_InitData|].
  destruct (InitData_stores_Yee_index_types demo_build demo_ext _ _ demo_J_InitData)
    as (HE & _ & HB).
  split; [exact HE | exact HB].
Defined.

(** X9 on that run: the flags are set only by a [t] or a [J] in the texts. *)
Lemma InitData_sets_dependence_flags_witness :
  InitData demo_build demo_ext demo_J_world
  = Ok tt (final_world (InitData demo_build demo_ext demo_J_world)) /\
  (m_external_field_has_time_dependence
     (compiled (hybrid (final_world (InitData demo_build demo_ext demo_J_world))))
   = true <->
   m_external_field_has_time_dependence (compiled (hybrid demo_J_world)) = true \/
   In "t" (Parser_symbols (makeParser demo_ext "2*x" xyzt)) \/
   In "t" (Parser_symbols (makeParser demo_ext "x" xyzt)) \/
   In "t" (Parser_symbols (makeParser demo_ext "0.0" xyzt))).
Proof.
  split; [exact demo_J_InitData|].
  exact (proj1 (InitData_sets_dependence_flags demo_build demo_ext _ _
                  demo_J_InitData)).
Defined.

(** The demo world with the given external-B style and the B expressions
    [(x, 2 x, 0)]. *)
Definition demo_style_world (style : string) : World :=
  set_hybrid demo_ready
    (set_params (hybrid demo_ready)
       {| m_substeps := 50; m_gamma := 1; m_elec_temp := 10; m_n0_ref := 1;
          m_eta_expression := "0.0"; m_n_floor := 1; m_eta_h := 0;
          m_Jx_ext_grid_function := "t"; m_Jy_ext_grid_function := "x";
          m_Jz_ext_grid_function := "0.0"; m_Bx_ext_grid_function := "x";
          m_By_ext_grid_function := "2*x"; m_Bz_ext_grid_function := "0.0";
          B_ext_grid_s := style; external_fields_path := "./" |}).

(** The external buffers as the allocation of level 0 makes them. *)
Definition demo_ext_mf : MultiFab := zero_MultiFab demo_ba [1; 1; 1] 0 1 [0; 0; 0].
Definition demo_ext_mfs : Arr3 MultiFab := (demo_ext_mf, demo_ext_mf, demo_ext_mf).

Lemma demo_no_EB (edge : Arr3 (option MultiFab)) :
  AMREX_USE_EB demo_build = true -> is_alloc3 (Some edge) = true.
Proof. intros H. discriminate H. Qed.

(** The demo world with the style [read_from_file] and the external-B
    buffers of level 0 not allocated. *)
Definition demo_no_Bext : World :=
  set_hybrid (demo_style_world "read_from_file")
    (set_buffers (hybrid (demo_style_world "read_from_file"))
       (set_bfield_fp_external
          (buffers (hybrid (demo_style_world "read_from_file"))) [null3])).

(** X10 on the demo build, which has no openPMD support, with null
    external-B buffers. *)
Lemma InitData_read_from_file_needs_a_reader_witness :
  no_file_reader demo_build
  = Some "OpenPMD field reading requires OpenPMD support to be enabled" /\
  appropriate_grids demo_build demo_no_Bext = true /\
  nth_error (bfield_fp_external (buffers (hybrid demo_no_Bext))) 0 = Some null3 /\
  exists (w' : World) (mfsJ' : Arr3 MultiFab),
    InitData demo_build demo_ext demo_no_Bext
    = Abort "OpenPMD field reading requires OpenPMD support to be enabled" w' /\
    nth_error (current_fp_external (buffers (hybrid w'))) 0
    = Some (Arr3_map Some mfsJ') /\
    evaluated_on_the_grid demo_build demo_no_Bext 0 (edge_lengths demo_no_Bext 0%nat)
      demo_ext_mfs mfsJ'
      (executors demo_ext
         (m_Jx_ext_grid_function (params (hybrid demo_no_Bext)),
          m_Jy_ext_grid_function (params (hybrid demo_no_Bext)),
          m_Jz_ext_grid_function (params (hybrid demo_no_Bext)))
         xyzt [gett_new demo_no_Bext 0%nat]) /\
    bfield_fp_external (buffers (hybrid w'))
    = bfield_fp_external (buffers (hybrid demo_no_Bext)) /\
    log w' = (log demo_no_Bext ++ [EvPrint "read_from_file"])%list.
Proof.
  assert (Hy : appropriate_grids demo_build demo_no_Bext = true)
    by (vm_compute; reflexivity).
  assert (HJ : nth_error (current_fp_external (buffers (hybrid demo_no_Bext))) 0
               = Some (Arr3_map Some demo_ext_mfs)) by (vm_compute; reflexivity).
  split; [reflexivity|]. split; [exact Hy|]. split; [reflexivity|].
  pose proof (InitData_read_from_file_needs_a_reader demo_build demo_ext
                demo_no_Bext
                "OpenPMD field reading requires OpenPMD support to be enabled"
                demo_ext_mfs eq_refl eq_refl Hy HJ (demo_no_EB _) eq_refl) as H.
  exact H.
Defined.

(** The demo world with the parsers of its expressions compiled and the
    external buffers still as allocated. *)
Definition demo_parsed : World :=
  set_hybrid (demo_style_world "parse_b_ext_grid_function")
    (set_compiled (hybrid (demo_style_world "parse_b_ext_grid_function"))
       (compiled (hybrid (final_world
          (InitData demo_build demo_ext
             (demo_style_world "parse_b_ext_grid_function")))))).

Definition demo_J_ps : Arr3 Parser :=
  (makeParser demo_ext "t" xyzt, makeParser demo_ext "x" xyzt,
   makeParser demo_ext "0.0" xyzt).
Definition demo_B_ps : Arr3 Parser :=
  (makeParser demo_ext "x" ["x"; "y"; "z"], makeParser demo_ext "2*x" ["x"; "y"; "z"],
   makeParser demo_ext "0.0" ["x"; "y"; "z"]).

Lemma demo_parsed_J :
  nth_error (current_fp_external (buffers (hybrid demo_parsed))) 0
  = Some (Arr3_map Some demo_ext_mfs) /\
  m_J_external_parser (compiled (hybrid demo_parsed)) = Arr3_map Some demo_J_ps.
Proof. split; vm_compute; reflexivity. Qed.

Lemma demo_parsed_B :
  nth_error (bfield_fp_external (buffers (hybrid demo_parsed))) 0
  = Some (Arr3_map Some demo_ext_mfs) /\
  m_B_external_parser (compiled (hybrid demo_parsed)) = Arr3_map Some demo_B_ps.
Proof. split; vm_compute; reflexivity. Qed.

(** X11 on that world. *)
Lemma GetCurrentExternal_lev_evaluates_on_the_grid_witness :
  (nth_error (current_fp_external (buffers (hybrid demo_parsed))) 0
   = Some (Arr3_map Some demo_ext_mfs) /\
   m_J_external_parser (compiled (hybrid demo_parsed)) = Arr3_map Some demo_J_ps) /\
  exists mfs',
    nth_error (current_fp_external (buffers (hybrid (final_world
      (GetCurrentExternal_lev demo_build null3 0 demo_parsed))))) 0
    = Some (Arr3_map Some mfs') /\
    evaluated_on_the_grid demo_build demo_parsed 0 null3 demo_ext_mfs mfs'
      (Arr3_map (fun e x y z => Parser_compile e [x; y; z; gett_new demo_parsed 0%nat])
         demo_J_ps).
Proof.
  split; [exact demo_parsed_J|].
  destruct demo_parsed_J as [Ha Hp].
  destruct (GetCurrentExternal_lev_evaluates_on_the_grid demo_build null3 0%nat
              demo_parsed demo_ext_mfs demo_J_ps Ha Hp (demo_no_EB _))
    as (mfs' & Hrun & Hev).
  exists mfs'. split; [|exact Hev].
  rewrite Hrun. cbn [final_world hybrid set_hybrid buffers set_buffers
                     current_fp_external set_current_fp_external].
  eapply nth_error_list_set_eq. exact Ha.
Defined.

(** X12 on that world. *)
Lemma GetExternalBField_lev_evaluates_on_the_grid_witness :
  (nth_error (bfield_fp_external (buffers (hybrid demo_parsed))) 0
   = Some (Arr3_map Some demo_ext_mfs) /\
   m_B_external_parser (compiled (hybrid demo_parsed)) = Arr3_map Some demo_B_ps) /\
  exists mfs',
    nth_error (bfield_fp_external (buffers (hybrid (final_world
      (GetExternalBField_lev demo_build null3 0 demo_parsed))))) 0
    = Some (Arr3_map Some mfs') /\
    evaluated_on_the_grid demo_build demo_parsed 0 null3 demo_ext_mfs mfs'
      (Arr3_map (fun e x y z => Parser_compile e [x; y; z]) demo_B_ps).
Proof.
  split; [exact demo_parsed_B|].
  destruct demo_parsed_B as [Ha Hp].
  destruct (GetExternalBField_lev_evaluates_on_the_grid demo_build null3 0%nat
              demo_parsed demo_ext_mfs demo_B_ps Ha Hp (demo_no_EB _))
    as (mfs' & Hrun & Hev).
  exists mfs'. split; [|exact Hev].
  rewrite Hrun. cbn [final_world hybrid set_hybrid buffers set_buffers
                     bfield_fp_external set_bfield_fp_external].
  eapply nth_error_list_set_eq. exact Ha.
Defined.

(** X14 on that world. *)
Lemma external_field_evaluation_is_idempotent_witness :
  exists w1,
    GetExternalBField_lev demo_build null3 0 demo_parsed = Ok tt w1 /\
    GetExternalBField_lev demo_build null3 0 w1 = Ok tt w1.
Proof.
  destruct demo_parsed_B as [Ha Hp].
  exact (proj1 (external_field_evaluation_is_idempotent demo_build null3 0%nat
                  demo_parsed demo_ext_mfs demo_B_ps (demo_no_EB _)) Ha Hp).
Defined.

(** A one-dimensional build and a world of it: one box of four cells, the
    external buffers nodal and without ghost cells. *)
Definition demo_1d_build : Build :=
  {| WARPX_DIM := DIM_1D_Z; AMREX_USE_EB := false; WARPX_USE_OPENPMD := false |}.

Definition demo_1d_ba : BoxArray :=
  {| ba_boxes := [ {| smallEnd := [0]; bigEnd := [3] |} ]; ba_ixType := [0] |}.

Definition demo_1d_mf : MultiFab := zero_MultiFab demo_1d_ba [1] 0 1 [0].
Definition demo_1d_mfs : Arr3 MultiFab := (demo_1d_mf, demo_1d_mf, demo_1d_mf).

Definition demo_1d_world : World :=
  set_hybrid demo_parsed
    (set_buffers (hybrid demo_parsed)
       {| electron_pressure_fp := [None]; rho_fp_temp := [None];
          current_fp_temp := [null3]; current_fp_ampere := [null3];
          current_fp_external := [Arr3_map Some demo_1d_mfs];
          bfield_fp_external := [Arr3_map Some demo_1d_mfs] |}).

Definition demo_1d_box : Box := {| smallEnd := [0]; bigEnd := [4] |}.

(** X13 on that world: the first and the last node of the box receive the
    same value of the current's y expression, which is [x]. *)
Lemma one_dimensional_build_evaluates_at_one_point_witness :
  WARPX_DIM demo_1d_build = DIM_1D_Z /\
  one_dim (boxArray (Arr3_x demo_1d_mfs)) /\
  exists mfs',
    GetCurrentExternal_lev demo_1d_build null3 0 demo_1d_world
    = Ok tt (set_hybrid demo_1d_world (set_buffers (hybrid demo_1d_world)
               (set_current_fp_external (buffers (hybrid demo_1d_world))
                  (list_set (current_fp_external (buffers (hybrid demo_1d_world))) 0
                     (Arr3_map Some mfs'))))) /\
    fabdata (Arr3_get mfs' 1) 0 (0, 0, 0) 0%nat
    = fabdata (Arr3_get mfs' 1) 0 (4, 0, 0) 0%nat.
Proof.
  assert (H1 : one_dim (boxArray (Arr3_x demo_1d_mfs))).
  { repeat constructor; cbn; lia. }
  assert (He : AMREX_USE_EB demo_1d_build = true -> is_alloc3 (Some null3) = true)
    by (intros H; discriminate H).
  split; [reflexivity|]. split; [exact H1|].
  destruct (one_dimensional_build_evaluates_at_one_point demo_1d_build null3 0%nat
              demo_1d_world demo_1d_mfs demo_J_ps eq_refl H1 He) as [HJ _].
  destruct (HJ ltac:(reflexivity) ltac:(vm_compute; reflexivity))
    as (mfs' & Hrun & Hev).
  exists mfs'. split; [exact Hrun|].
  rewrite (Hev 1%nat 0%nat demo_1d_box (0, 0, 0))
    by (vm_compute; reflexivity).
  rewrite (Hev 1%nat 0%nat demo_1d_box (4, 0, 0))
    by (vm_compute; reflexivity).
  reflexivity.
Defined.

(** The Ampere-current buffers as the allocation of level 0 makes them. *)
Definition demo_Jamp : Arr3 MultiFab :=
  (zero_MultiFab demo_ba [0; 1; 1] 0 1 [1; 1; 1],
   zero_MultiFab demo_ba [1; 0; 1] 0 1 [1; 1; 1],
   zero_MultiFab demo_ba [1; 1; 0] 0 1 [1; 1; 1]).

(** X15 on the demo world. *)
Lemma CalculateCurrentAmpere_lev_writes_its_buffer_only_witness :
  nth_error (current_fp_ampere (buffers (hybrid demo_ready))) 0
  = Some (Arr3_map Some demo_Jamp) /\
  exists w',
    CalculateCurrentAmpere_lev demo_ext 0 demo_ready = Ok tt w' /\
    Bfield w' = Bfield demo_ready /\ Efield w' = Efield demo_ready /\
    log w' = (log demo_ready ++ [ EvCalculateCurrentAmpere 0; EvFillBoundaryJ 0 0;
                                  EvFillBoundaryJ 0 1; EvFillBoundaryJ 0 2 ])%list.
Proof.
  assert (H : nth_error (current_fp_ampere (buffers (hybrid demo_ready))) 0
              = Some (Arr3_map Some demo_Jamp)) by (vm_compute; reflexivity).
  split; [exact H|].
  destruct (CalculateCurrentAmpere_lev_writes_its_buffer_only demo_ext 0%nat
              demo_ready demo_Jamp H)
    as (w' & Hrun & _ & _ & _ & _ & HB & HE & Hlog).
  exists w'. split; [exact Hrun|]. split; [exact HB|]. split; [exact HE | exact Hlog].
Defined.

(** X16 on level 1 of the two-level demo world, with the coarse patch. *)
Lemma HybridPICSolveE_patch_returns_at_any_level_witness :
  push_ready (buffers (hybrid demo_two_levels)) 1 = true /\
  exists w',
    HybridPICSolveE_patch demo_ext 1 PatchType_coarse true demo_two_levels = Ok tt w' /\
    Efield w' 0%nat = Efield demo_two_levels 0%nat /\
    Bfield w' = Bfield demo_two_levels.
Proof.
  assert (H : push_ready (buffers (hybrid demo_two_levels)) 1 = true)
    by (vm_compute; reflexivity).
  split; [exact H|].
  destruct (HybridPICSolveE_patch_returns_at_any_level demo_ext 1%nat
              PatchType_coarse true demo_two_levels H)
    as (Pe & Jamp & Jext & Bext & w' & _ & _ & _ & _ & Hrun & _ & _ & HE & HB & _).
  exists w'. split; [exact Hrun|]. split; [apply HE; discriminate | exact HB].
Defined.


(** X17 on the two-level demo world. *)
Lemma refinement_stops_the_field_update_witness :
  (1 <= finestLevel demo_two_levels)%nat /\
  (forall w', FieldPush demo_ext 1 DtType_Full [1; 1; 1] None demo_two_levels
              <> Ok tt w') /\
  (forall w', BfieldEvolveRK demo_ext 1 DtType_Full [1; 1; 1] None demo_two_levels
              <> Ok tt w').
Proof.
  assert (H : (1 <= finestLevel demo_two_levels)%nat) by (cbn; lia).
  split; [exact H|].
  destruct (refinement_stops_the_field_update demo_ext demo_two_levels 1%R
              DtType_Full [1; 1; 1] None true H) as (_ & Hp & _ & Hrk).
  split; [exact Hp | exact Hrk].
Defined.


(** X19 on the single-level demo world. *)
Lemma BfieldEvolveRK_is_four_field_pushes_witness :
  finestLevel demo_ready = 0%nat /\
  push_ready (buffers (hybrid demo_ready)) 0 = true /\
  exists wf,
    BfieldEvolveRK demo_ext 1 DtType_Full [1; 1; 1] None demo_ready = Ok tt wf /\
    log wf = (log demo_ready
              ++ FieldPush_events (0.5 * 1) DtType_Full [1; 1; 1] None
              ++ FieldPush_events (0.5 * 1) DtType_Full [1; 1; 1] None
              ++ FieldPush_events 1 DtType_Full [1; 1; 1] None
              ++ FieldPush_events (0.5 * 1) DtType_Full [1; 1; 1] None)%list.
Proof.
  assert (Hr : push_ready (buffers (hybrid demo_ready)) 0 = true)
    by (vm_compute; reflexivity).
  split; [reflexivity|]. split; [exact Hr|].
  destruct (BfieldEvolveRK_is_four_field_pushes demo_ext demo_ready 1%R DtType_Full
              [1; 1; 1] None eq_refl Hr) as (wf & Hrun & Hlog & _).
  exists wf. split; [exact Hrun | exact Hlog].
Defined.

(** The pressure buffer as the allocation of level 0 makes it. *)
Definition demo_Pe0 : MultiFab := zero_MultiFab demo_ba [1; 1; 1] 0 1 [1; 1; 1].

(** X20 on the demo world, for a half step. *)
Lemma CalculateElectronPressure_lev_density_by_step_witness :
  nth_error (electron_pressure_fp (buffers (hybrid demo_ready))) 0
  = Some (Some demo_Pe0) /\
  is_alloc (nth_error (rho_fp_temp (buffers (hybrid demo_ready))) 0) = true /\
  exists rho,
    nth_error (rho_fp_temp (buffers (hybrid demo_ready))) 0 = Some (Some rho) /\
    CalculateElectronPressure_lev demo_ext 0 DtType_FirstHalf demo_ready
    = Ok tt (set_hybrid demo_ready (set_buffers (hybrid demo_ready)
               (set_electron_pressure_fp (buffers (hybrid demo_ready))
                  (list_set (electron_pressure_fp (buffers (hybrid demo_ready))) 0
                     (Some (pressure_of demo_ext 0 demo_Pe0 rho demo_ready)))))).
Proof.
  assert (HPe : nth_error (electron_pressure_fp (buffers (hybrid demo_ready))) 0
                = Some (Some demo_Pe0)) by (vm_compute; reflexivity).
  assert (Hrho : is_alloc (nth_error (rho_fp_temp (buffers (hybrid demo_ready))) 0)
                 = true) by (vm_compute; reflexivity).
  split; [exact HPe|]. split; [exact Hrho|].
  destruct (CalculateElectronPressure_lev_density_by_step demo_ext 0%nat
              DtType_FirstHalf demo_ready demo_Pe0 HPe (fun _ => Hrho))
    as (rho & _ & Hsrc & Hrun & _).
  exists rho. split; [apply Hsrc; discriminate | exact Hrun].
Defined.

(** X21 on the demo world with the style [parse_b_ext_grid_function]. *)
Lemma InitData_evaluates_both_external_fields_witness :
  appropriate_grids demo_build (demo_style_world "parse_b_ext_grid_function") = true /\
  exists (w' : World) (mfsJ' mfsB' : Arr3 MultiFab),
    InitData demo_build demo_ext (demo_style_world "parse_b_ext_grid_function")
    = Ok tt w' /\
    nth_error (bfield_fp_external (buffers (hybrid w'))) 0
    = Some (Arr3_map Some mfsB') /\
    evaluated_on_the_grid demo_build (demo_style_world "parse_b_ext_grid_function") 0
      (edge_lengths (demo_style_world "parse_b_ext_grid_function") 0%nat)
      demo_ext_mfs mfsB'
      (executors demo_ext ("x", "2*x", "0.0") ["x"; "y"; "z"] []).
Proof.
  assert (Hy : appropriate_grids demo_build
                 (demo_style_world "parse_b_ext_grid_function") = true)
    by (vm_compute; reflexivity).
  split; [exact Hy|].
  destruct (InitData_evaluates_both_external_fields demo_build demo_ext
              (demo_style_world "parse_b_ext_grid_function")
              demo_ext_mfs demo_ext_mfs eq_refl Hy eq_refl
              ltac:(vm_compute; reflexivity) ltac:(vm_compute; reflexivity)
              (demo_no_EB _))
    as (w' & mfsJ' & mfsB' & Hrun & _ & HB & _ & HevB & _).
  exists w', mfsJ', mfsB'. split; [exact Hrun|]. split; [exact HB | exact HevB].
Defined.

(** The run of [InitData] on that world, whose current's x expression is
    [t]. *)
Lemma demo_t_InitData :
  InitData demo_build demo_ext (demo_style_world "parse_b_ext_grid_function")
  = Ok tt (final_world (InitData demo_build demo_ext
                          (demo_style_world "parse_b_ext_grid_function"))).
Proof. vm_compute. reflexivity. Qed.

(** The world with the parsers compiled, later, at time 7. *)
Definition demo_later : World := set_gett_new demo_parsed (fun _ => 7%R).

(** X22 on that run: a later call at time 7 evaluates again. *)
Lemma time_dependent_current_is_evaluated_at_every_call_witness :
  In "t" (Parser_symbols (makeParser demo_ext "t" xyzt)) /\
  exists mfs',
    GetCurrentExternal demo_build demo_later
    = Ok tt (set_hybrid demo_later
               (set_buffers (hybrid demo_later)
                  (set_current_fp_external (buffers (hybrid demo_later))
                     (list_set (current_fp_external (buffers (hybrid demo_later))) 0
                        (Arr3_map Some mfs'))))) /\
    evaluated_on_the_grid demo_build demo_later 0
      (edge_lengths demo_later 0%nat) demo_ext_mfs mfs'
      (executors demo_ext ("t", "x", "0.0") xyzt [gett_new demo_later 0%nat]).
Proof.
  assert (Ht : In "t" (Parser_symbols (makeParser demo_ext "t" xyzt)))
    by (left; reflexivity).
  split; [exact Ht|].
  assert (Hc : compiled (hybrid demo_later)
               = compiled (hybrid (final_world
                   (InitData demo_build demo_ext
                      (demo_style_world "parse_b_ext_grid_function")))))
    by (vm_compute; reflexivity).
  assert (Ha : nth_error (current_fp_external (buffers (hybrid demo_later))) 0
               = Some (Arr3_map Some demo_ext_mfs)) by (vm_compute; reflexivity).
  pose proof (time_dependent_current_is_evaluated_at_every_call demo_build demo_ext
                (demo_style_world "parse_b_ext_grid_function") _ demo_later
                demo_ext_mfs demo_t_InitData (or_introl Ht) Hc eq_refl Ha
                (demo_no_EB _)) as H.
  exact H.
Defined.

